(** * Subnet Coordinator: checkpoints, registry and vote threshold

    A shallow embedding of the hierarchical-consensus actors
    ([chain/consensus/hierarchical/actors/subnet/subnet_state.go], which
    holds the subnet actor state, the SCA actor, the SCA state and the
    checkpoint schema) and of [chain/types/blockmsg.go].

    Conventions of the embedding:
    - Go [error] results are values of [result]; actor methods that may
      [rt.Abortf] are computations in [Exec], whose [Abort] carries the
      exit code.  The host discards the state of an aborted call; [invoke]
      makes that explicit.
    - HAMTs and AMTs kept in the blockstore are represented by the finite
      map they denote ([gmap]); the blockstore itself is the host's and is
      taken not to fail.
    - [big.Int] token amounts and [abi.ChainEpoch] are [Z]; [uint64]
      counters are [Z] with the wrap-around written out. *)

From Stdlib Require Import ZArith String List Lia Bool.
From Stdlib Require Import Strings.Byte.
From Stdlib Require Import Floats.SpecFloat.
From stdpp Require Import base option gmap strings list.

Local Open Scope Z_scope.

(** ** Go results and actor computations *)

Definition error := string.

Inductive result (A : Type) : Type :=
| Ok (a : A)
| Err (e : error).
Arguments Ok {A} a.
Arguments Err {A} e.

#[export] Instance result_ret : MRet result := fun A a => Ok a.
#[export] Instance result_bind : MBind result :=
  fun A B f m => match m with Ok a => f a | Err e => Err e end.

(** Exit codes of [go-state-types/exitcode] that the actors use. *)
Inductive ExitCode : Type :=
| ExitOk
| SysErrForbidden
| ErrIllegalArgument
| ErrForbidden
| ErrIllegalState.

#[export] Instance ExitCode_eq_dec : EqDecision ExitCode.
Proof. solve_decision. Defined.

Definition IsSuccess (c : ExitCode) : bool :=
  match c with ExitOk => true | _ => false end.

Inductive Exec (A : Type) : Type :=
| Done (a : A)
| Abort (code : ExitCode).
Arguments Done {A} a.
Arguments Abort {A} code.

#[export] Instance Exec_ret : MRet Exec := fun A a => Done a.
#[export] Instance Exec_bind : MBind Exec :=
  fun A B f m => match m with Done a => f a | Abort c => Abort c end.

(** [builtin.RequireNoErr(rt, err, code, ...)] *)
Definition RequireNoErr {A} (r : result A) (code : ExitCode) : Exec A :=
  match r with Ok a => Done a | Err _ => Abort code end.

(** ** Basic types *)

Definition bytes := list Byte.byte.
#[export] Instance byte_eq_dec : EqDecision Byte.byte := Byte.byte_eq_dec.
Definition Address := string.
(** [type SubnetID string] *)
Definition SubnetID := string.
Definition TokenAmount := Z.
Definition ChainEpoch := Z.
(** [cid.Cid] is [struct{ str string }]; [cid.Undef] is the empty one. *)
Module cid.
Definition Cid := string.
Definition Undef : Cid := EmptyString.
End cid.

Definition two64 : Z := 2 ^ 64.
(** [uint64] increment. *)
Definition u64_succ (n : Z) : Z := (n + 1) mod two64.
(** [abi.ChainEpoch(x)] for [x : uint64]: reinterpretation as [int64]. *)
Definition u64_to_i64 (n : Z) : Z := if n <? 2 ^ 63 then n else n - two64.

(** ** Checkpoint schema (package [schema]) *)

Module Schema.

Record LinkPrototype := {
  Version : Z;
  Codec : Z;
  MhType : Z;
  MhLength : Z
}.

(** multicodec.DagCbor = 0x71, multicodec.Sha2_256 = 0x12 *)
Definition Linkproto : LinkPrototype :=
  {| Version := 1; Codec := 0x71; MhType := 0x12; MhLength := 16 |}.

Record ChildCheck := {
  cc_Source : string;
  cc_Check : cid.Cid
}.

(** [type MsgTreeList struct{}] *)
Definition MsgTreeList := unit.

Record CheckData := {
  Source : string;
  TipSet : bytes;
  Epoch : Z;
  PrevCheckpoint : cid.Cid;
  Childs : list ChildCheck;
  XShardMsg : option MsgTreeList
}.

Record Checkpoint := {
  Data : CheckData;
  Signature : bytes
}.

#[export] Instance ChildCheck_eq_dec : EqDecision ChildCheck.
Proof. solve_decision. Defined.
#[export] Instance CheckData_eq_dec : EqDecision CheckData.
Proof. solve_decision. Defined.
#[export] Instance Checkpoint_eq_dec : EqDecision Checkpoint.
Proof. solve_decision. Defined.

(** The link system of go-ipld-prime: [ComputeLink] encodes the node it
    is given with the codec of the prototype and hashes the bytes.  The
    node handed over by [Cid] is the bindnode view of a Go value, so the
    computation is a function of the prototype and of that value. *)
Class LinkSystem := {
  ComputeLink : LinkPrototype -> Checkpoint -> result cid.Cid
}.

Section WithLinkSystem.
Context `{LinkSystem}.

(** [func (c *Checkpoint) Cid() (cid.Cid, error)] *)
Definition Cid (c : Checkpoint) : result cid.Cid :=
  let ch := {| Data := Data c; Signature := [] |} in
  match ComputeLink Linkproto ch with
  | Err e => Err e
  | Ok lnk => Ok lnk
  end.

(** [func (c *Checkpoint) Equals(ch *Checkpoint) (bool, error)] *)
Definition Equals (c ch : Checkpoint) : result bool :=
  match Cid c with
  | Err e => Err e
  | Ok c1 =>
      match Cid ch with
      | Err e => Err e
      | Ok c2 => Ok (bool_decide (c1 = c2))
      end
  end.

End WithLinkSystem.

(** [func (c *Checkpoint) hasChild(child ChildCheck) int], on the list
    of children; the index is returned as an integer, -1 when absent. *)
Fixpoint hasChild_from (i : Z) (childs : list ChildCheck) (child : ChildCheck) : Z :=
  match childs with
  | [] => -1
  | ch :: rest =>
      if String.eqb (cc_Source ch) (cc_Source child) then i
      else hasChild_from (i + 1) rest child
  end.

Definition hasChild (c : Checkpoint) (child : ChildCheck) : Z :=
  hasChild_from 0 (Childs (Data c)) child.

Definition set_Childs (c : Checkpoint) (l : list ChildCheck) : Checkpoint :=
  {| Data := {| Source := Source (Data c);
                TipSet := TipSet (Data c);
                Epoch := Epoch (Data c);
                PrevCheckpoint := PrevCheckpoint (Data c);
                Childs := l;
                XShardMsg := XShardMsg (Data c) |};
     Signature := Signature c |}.

(** One iteration of the loop of [AddChildChecks]. *)
Definition addChildCheck (c : Checkpoint) (ch : ChildCheck) : Checkpoint :=
  let ind := hasChild c ch in
  let c1 :=
    if 0 <=? ind
    then set_Childs c (<[Z.to_nat ind := ch]> (Childs (Data c)))
    else c in
  set_Childs c1 (Childs (Data c1) ++ [ch]).

(** [func (c *Checkpoint) AddChildChecks(childs []ChildCheck)] *)
Definition AddChildChecks (c : Checkpoint) (childs : list ChildCheck) : Checkpoint :=
  fold_left addChildCheck childs c.

(** The checks recorded under one source, in order. *)
Definition checks_of (src : string) (l : list ChildCheck) : list cid.Cid :=
  map cc_Check (List.filter (fun ch => String.eqb (cc_Source ch) src) l).

(** An entry whose source is not the one of [ch]. *)
Definition other_source (ch x : ChildCheck) : Prop := cc_Source x <> cc_Source ch.

Definition set_Signature (c : Checkpoint) (sig : bytes) : Checkpoint :=
  {| Data := Data c; Signature := sig |}.

(** [func NewRawCheckpoint(source, epoch, prev, xmsgs) *Checkpoint]; the
    fields left out of the Go literal are nil. *)
Definition NewRawCheckpoint (source : SubnetID) (epoch : ChainEpoch)
    (prev : cid.Cid) (xmsgs : option MsgTreeList) : Checkpoint :=
  {| Data := {| Source := source;
                TipSet := [];
                Epoch := epoch;
                PrevCheckpoint := prev;
                Childs := [];
                XShardMsg := xmsgs |};
     Signature := [] |}.

End Schema.

(** ** Subnet actor state (package [subnet]) *)

Module Subnet.

Inductive ConsensusType := Delegated | PoW.

Inductive Status := Instantiated | Active | Inactive | Terminating | Killed.

Record CheckVotes := {
  cv_Miners : list Address
}.

Record SubnetState := {
  Name : string;
  ParentID : SubnetID;
  Consensus : ConsensusType;
  MinMinerStake : TokenAmount;
  Miners : list Address;
  TotalStake : TokenAmount;
  Stake : gmap Address TokenAmount;
  Status_ : Status;
  Genesis : bytes;
  CheckPeriod : ChainEpoch;
  Checkpoints : gmap Z Schema.Checkpoint;
  WindowChecks : gmap cid.Cid CheckVotes
}.

(** Go's [float32] is IEEE 754 binary32: 24 bits of precision, infinities
    at exponent 128. *)
Definition prec32 : Z := 24.
Definition emax32 : Z := 128.

(** [float32(n)] for an integer [n]: rounded to nearest, ties to even. *)
Definition float32_of_int (n : Z) : spec_float :=
  binary_normalize prec32 emax32 n 0 false.

Definition float32_div (x y : spec_float) : spec_float :=
  SFdiv prec32 emax32 x y.

(** [x >= y] on floats: false as soon as one side is NaN. *)
Definition float32_ge (x y : spec_float) : bool := SFleb y x.

(** [SignatureThreshold = float32(0.66)]: the binary32 number nearest to
    66/100, that is 11072963 * 2^-24. *)
Definition SignatureThreshold : spec_float :=
  S754_finite false 11072963 (-24).

(** [len(s)] *)
Definition len {A} (l : list A) : Z := Z.of_nat (length l).

(** [func (st SubnetState) majorityVote(wch *CheckVotes) bool] *)
Definition majorityVote (st : SubnetState) (wch : CheckVotes) : bool :=
  float32_ge
    (float32_div (float32_of_int (len (cv_Miners wch)))
                 (float32_of_int (len (Miners st))))
    SignatureThreshold.

(** The test as a function of the two lengths. *)
Definition majority (voters miners : Z) : bool :=
  float32_ge (float32_div (float32_of_int voters) (float32_of_int miners))
             SignatureThreshold.

(** The location after one more bit has been shifted out. *)
Definition loc_shift (q : Z) (l : location) : location :=
  loc_of_shr_record
    {| shr_m := q / 2; shr_r := Z.odd q;
       shr_s := match l with loc_Exact => false | _ => true end |}.

(** [func hasMiner(addr address.Address, miners []address.Address) bool] *)
Fixpoint hasMiner (addr : Address) (miners : list Address) : bool :=
  match miners with
  | [] => false
  | a :: rest => if String.eqb a addr then true else hasMiner addr rest
  end.

End Subnet.

(** ** The actor runtime, as far as the SCA uses it *)

Inductive ActorCode :=
| SystemActorCode
| AccountActorCodeID
| SubnetActorCodeID
| OtherActorCode.

#[export] Instance ActorCode_eq_dec : EqDecision ActorCode.
Proof. solve_decision. Defined.

(** What a call sees of [runtime.Runtime].  [SendResult] is the exit
    code the host gives back for a plain transfer ([builtin.MethodSend])
    of an amount to an address. *)
Record Runtime := {
  Caller : Address;
  CallerCode : ActorCode;
  ValueReceived : TokenAmount;
  CurrentBalance : TokenAmount;
  CurrEpoch : ChainEpoch;
  SendResult : Address -> TokenAmount -> ExitCode
}.

(** [rt.ValidateImmediateCallerType(code)]: the host aborts the call
    with [SysErrForbidden] when the caller is of another type. *)
Definition ValidateImmediateCallerType (rt : Runtime) (code : ActorCode) : Exec unit :=
  if bool_decide (CallerCode rt = code) then Done tt else Abort SysErrForbidden.

(** A transfer issued with [rt.Send(to, builtin.MethodSend, nil, value, _)]. *)
Record SendMsg := {
  send_To : Address;
  send_Value : TokenAmount
}.

(** ** Subnet coordinator actor (package [sca]) *)

Module SCA.
Import Schema.

(** [DefaultCheckpointPeriod], [MinCheckpointPeriod], [MaxNonce], [MinSubnetStake] *)
Definition DefaultCheckpointPeriod : ChainEpoch := 10.
Definition MinCheckpointPeriod : ChainEpoch := 10.
(** [^uint64(0)] *)
Definition MaxNonce : Z := Z.lnot 0 mod two64.
Definition MinSubnetStake : TokenAmount := 10 ^ 18.

Inductive Status := Active | Inactive | Killed.

#[export] Instance Status_eq_dec : EqDecision Status.
Proof. solve_decision. Defined.

(** Modelled from the spec: the cross-message of a top-down transfer,
    whose Go type is declared in a file that is missing.  Section 4.3 (Fund):
    it carries the funded amount, is addressed to the caller in the child,
    and section 4.2 gives it the nonce of the subnet at the time. *)
Record CrossMsg := {
  msg_To : Address;
  msg_Subnet : SubnetID;
  msg_Value : TokenAmount;
  msg_Nonce : Z
}.

(** Modelled from the spec: [CrossMsgMeta = { from, to, msgs_cid, nonce,
    value }] (section 3); the file that declares the Go type is missing. *)
Record CrossMsgMeta := {
  From : string;
  To : string;
  MsgsCid : cid.Cid;
  mm_Nonce : Z;
  mm_Value : TokenAmount
}.

(** Modelled from the spec: the registry entry [Subnet] (section 3); the
    file that declares the Go type is missing.  The fields are
    those [registerSubnet] initialises, plus the [nonce] of section 3.
    [TopDownMsgs] is the AMT of top-down messages, indexed by nonce. *)
Record Subnet := {
  ID : SubnetID;
  ParentID : SubnetID;
  Stake : TokenAmount;
  TopDownMsgs : gmap Z CrossMsg;
  Nonce_ : Z;
  CircSupply : TokenAmount;
  Status_ : Status;
  PrevCheckpoint_ : Checkpoint
}.

Record SCAState := {
  NetworkName : SubnetID;
  TotalSubnets : Z;
  MinStake : TokenAmount;
  Subnets : gmap SubnetID Subnet;
  CheckPeriod : ChainEpoch;
  Checkpoints : gmap Z Checkpoint;
  CheckMsgsRegistry : gmap cid.Cid (list CrossMsgMeta);
  Nonce : Z;
  BottomUpNonce : Z;
  BottomUpMsgsMeta : gmap Z CrossMsgMeta;
  AppliedBottomUpNonce : Z;
  AppliedTopDownNonce : Z
}.

Record ConstructorParams := {
  cp_NetworkName : string;
  cp_CheckpointPeriod : Z
}.

Record SubnetIDParam := {
  sp_ID : string
}.

Record CheckpointParams := {
  chp_Checkpoint : bytes
}.

(** [func ConstructSCAState(store adt.Store, params *ConstructorParams)];
    the four empty maps and arrays are the ones stored in the blockstore. *)
Definition ConstructSCAState (params : ConstructorParams) : result SCAState :=
  let nn : SubnetID := cp_NetworkName params in
  let period := u64_to_i64 (cp_CheckpointPeriod params) in
  let period := if period <? MinCheckpointPeriod then DefaultCheckpointPeriod else period in
  Ok {| NetworkName := nn;
        TotalSubnets := 0;
        MinStake := MinSubnetStake;
        Subnets := ∅;
        CheckPeriod := period;
        Checkpoints := ∅;
        CheckMsgsRegistry := ∅;
        Nonce := 0;
        BottomUpNonce := 0;
        BottomUpMsgsMeta := ∅;
        AppliedBottomUpNonce := MaxNonce;
        AppliedTopDownNonce := 0 |}.

(** [func (st *SCAState) GetSubnet(s adt.Store, id address.SubnetID)];
    [found] is [Some]. *)
Definition GetSubnet (st : SCAState) (id : SubnetID) : option Subnet :=
  Subnets st !! id.

Definition set_Subnets (st : SCAState) (m : gmap SubnetID Subnet) : SCAState :=
  {| NetworkName := NetworkName st;
     TotalSubnets := TotalSubnets st;
     MinStake := MinStake st;
     Subnets := m;
     CheckPeriod := CheckPeriod st;
     Checkpoints := Checkpoints st;
     CheckMsgsRegistry := CheckMsgsRegistry st;
     Nonce := Nonce st;
     BottomUpNonce := BottomUpNonce st;
     BottomUpMsgsMeta := BottomUpMsgsMeta st;
     AppliedBottomUpNonce := AppliedBottomUpNonce st;
     AppliedTopDownNonce := AppliedTopDownNonce st |}.

Definition set_Checkpoints (st : SCAState) (m : gmap Z Checkpoint) : SCAState :=
  {| NetworkName := NetworkName st;
     TotalSubnets := TotalSubnets st;
     MinStake := MinStake st;
     Subnets := Subnets st;
     CheckPeriod := CheckPeriod st;
     Checkpoints := m;
     CheckMsgsRegistry := CheckMsgsRegistry st;
     Nonce := Nonce st;
     BottomUpNonce := BottomUpNonce st;
     BottomUpMsgsMeta := BottomUpMsgsMeta st;
     AppliedBottomUpNonce := AppliedBottomUpNonce st;
     AppliedTopDownNonce := AppliedTopDownNonce st |}.

Definition set_TotalSubnets (st : SCAState) (n : Z) : SCAState :=
  {| NetworkName := NetworkName st;
     TotalSubnets := n;
     MinStake := MinStake st;
     Subnets := Subnets st;
     CheckPeriod := CheckPeriod st;
     Checkpoints := Checkpoints st;
     CheckMsgsRegistry := CheckMsgsRegistry st;
     Nonce := Nonce st;
     BottomUpNonce := BottomUpNonce st;
     BottomUpMsgsMeta := BottomUpMsgsMeta st;
     AppliedBottomUpNonce := AppliedBottomUpNonce st;
     AppliedTopDownNonce := AppliedTopDownNonce st |}.

(** [func (st *SCAState) flushSubnet(rt runtime.Runtime, sh *Subnet)] *)
Definition flushSubnet (st : SCAState) (sh : Subnet) : SCAState :=
  set_Subnets st (<[ID sh := sh]> (Subnets st)).

(** [uint64(epoch)], the key of [abi.UIntKey]. *)
Definition epoch_key (epoch : Z) : Z := epoch mod two64.

(** [func (st *SCAState) GetCheckpoint(s adt.Store, epoch abi.ChainEpoch)] *)
Definition GetCheckpoint (st : SCAState) (epoch : ChainEpoch) : option Checkpoint :=
  Checkpoints st !! epoch_key epoch.

(** [func (st *SCAState) flushCheckpoint(rt runtime.Runtime, ch *schema.Checkpoint)] *)
Definition flushCheckpoint (st : SCAState) (ch : Checkpoint) : SCAState :=
  set_Checkpoints st (<[epoch_key (Epoch (Data ch)) := ch]> (Checkpoints st)).

(** The host's completion of a call: an aborted call leaves the actor
    state as it was, a completed one installs the new state. *)
Definition invoke {A} (m : SCAState -> Exec (A * SCAState)) (st : SCAState)
  : ExitCode * SCAState :=
  match m st with
  | Done (_, st') => (ExitOk, st')
  | Abort code => (code, st)
  end.

(** The functions and constants of the packages [schema] and
    [hierarchical], and the two cross-message helpers of the SCA state,
    that the actor calls and that are defined in files that are missing.
    They are parameters of the development: nothing is assumed of them. *)
Class Collaborators := {
  (** [schema.EmptyCheckpoint] *)
  EmptyCheckpoint : Checkpoint;
  (** [schema.NoPreviousCheck] *)
  NoPreviousCheck : cid.Cid;
  (** [hierarchical.NewSubnetID(parent, addr)] *)
  NewSubnetID : SubnetID -> Address -> SubnetID;
  (** [func (id SubnetID) Actor() (address.Address, error)] *)
  Actor : SubnetID -> result Address;
  (** [func (c *Checkpoint) UnmarshalBinary(b []byte) error], on a fresh
      checkpoint *)
  UnmarshalBinary : bytes -> result Checkpoint;
  (** [func (c *Checkpoint) CrossMsgs() []CrossMsgMeta] *)
  CrossMsgs : Checkpoint -> list CrossMsgMeta;
  (** [func (c *Checkpoint) AddChild(ch *Checkpoint) error]; the result is
      the receiver after the call *)
  AddChild : Checkpoint -> Checkpoint -> result Checkpoint;
  (** [func (st *SCAState) storeDownTopMsgMeta(rt, mm)] *)
  storeDownTopMsgMeta : Runtime -> SCAState -> CrossMsgMeta -> Exec SCAState;
  (** [func (st *SCAState) aggChildMsgMeta(rt, windowCh, aux)]; the result
      is the state and the window checkpoint after the call *)
  aggChildMsgMeta :
    Runtime -> SCAState -> Checkpoint -> gmap string (list CrossMsgMeta)
    -> Exec (SCAState * Checkpoint)
}.

Section Actor.
Context `{LinkSystem} `{Collaborators}.

(** Modelled from the spec: [IsEmpty], a method of [Checkpoint] whose
    definition is missing.  Section 4.4 step 6 tests whether the
    checkpoint "is the canonical empty checkpoint", and section 4.1 makes
    two checkpoints equal iff their CIDs are equal. *)
Definition IsEmpty (c : Checkpoint) : result bool :=
  Equals c EmptyCheckpoint.

(** Modelled from the spec: [PreviousCheck], a method of [Checkpoint]
    whose definition is missing.  Section 4.1: [previous_check() -> CID],
    the [prev_checkpoint] of the data. *)
Definition PreviousCheck (c : Checkpoint) : cid.Cid :=
  PrevCheckpoint (Data c).

(** Modelled from the spec: [types.WindowEpoch], whose definition is
    missing.  Section 4.4: "the window epoch is (e / p) * p", with Go's
    integer division. *)
Definition WindowEpoch (epoch period : ChainEpoch) : ChainEpoch :=
  Z.quot epoch period * period.

(** Modelled from the spec: the two-argument [schema.NewRawCheckpoint] the
    SCA calls, whose definition is missing (the schema file has the
    four-argument one).  Section 4.1: "empty children, no cross-msgs,
    prev_checkpoint = EmptyCheckpointCID". *)
Definition NewRawCheckpoint2 (source : SubnetID) (epoch : ChainEpoch) : Checkpoint :=
  NewRawCheckpoint source epoch NoPreviousCheck None.

(** [func (st *SCAState) CurrWindowCheckpoint(store, epoch)] and
    [currWindowCheckpoint(rt)] *)
Definition CurrWindowCheckpoint (st : SCAState) (epoch : ChainEpoch) : Checkpoint :=
  let chEpoch := WindowEpoch epoch (CheckPeriod st) in
  match GetCheckpoint st chEpoch with
  | Some ch => ch
  | None => NewRawCheckpoint2 (NetworkName st) chEpoch
  end.

Definition currWindowCheckpoint (rt : Runtime) (st : SCAState) : Checkpoint :=
  CurrWindowCheckpoint st (CurrEpoch rt).

(** [func (st *SCAState) registerSubnet(rt, shid, stake)] *)
Definition registerSubnet (st : SCAState) (shid : SubnetID) (stake : TokenAmount)
  : SCAState :=
  let status := Active in
  let sh := {| ID := shid;
               ParentID := NetworkName st;
               Stake := stake;
               TopDownMsgs := ∅;
               Nonce_ := 0;
               CircSupply := 0;
               Status_ := status;
               PrevCheckpoint_ := EmptyCheckpoint |} in
  let st := set_TotalSubnets st (u64_succ (TotalSubnets st)) in
  flushSubnet st sh.

(** [func (a SubnetCoordActor) Register(rt, _) *SubnetIDParam] *)
Definition Register (rt : Runtime) (st : SCAState) : Exec (SubnetIDParam * SCAState) :=
  ValidateImmediateCallerType rt SubnetActorCodeID;;
  let SubnetActorAddr := Caller rt in
  let shid := NewSubnetID (NetworkName st) SubnetActorAddr in
  match GetSubnet st shid with
  | Some _ => Abort ErrIllegalArgument
  | None =>
      let value := ValueReceived rt in
      if value <=? MinStake st then Abort ErrIllegalArgument
      else
        let st := registerSubnet st shid value in
        Done ({| sp_ID := shid |}, st)
  end.

(** The loop of [applyCheckMsgs]: metas for this subnet are stored at
    once, the others are grouped by destination in [aux]. *)
Fixpoint applyCheckMsgs_loop (rt : Runtime) (st : SCAState)
    (aux : gmap string (list CrossMsgMeta)) (mms : list CrossMsgMeta)
  : Exec (SCAState * gmap string (list CrossMsgMeta)) :=
  match mms with
  | [] => Done (st, aux)
  | mm :: rest =>
      if String.eqb (To mm) (NetworkName st) then
        st ← storeDownTopMsgMeta rt st mm;
        applyCheckMsgs_loop rt st aux rest
      else
        let aux :=
          match aux !! To mm with
          | None => <[To mm := [mm]]> aux
          | Some l => <[To mm := l ++ [mm]]> aux
          end in
        applyCheckMsgs_loop rt st aux rest
  end.

(** [func (st *SCAState) applyCheckMsgs(rt, windowCh, childCh)] *)
Definition applyCheckMsgs (rt : Runtime) (st : SCAState) (windowCh childCh : Checkpoint)
  : Exec (SCAState * Checkpoint) :=
  '(st, aux) ← applyCheckMsgs_loop rt st ∅ (CrossMsgs childCh);
  aggChildMsgMeta rt st windowCh aux.

Definition set_PrevCheckpoint (sh : Subnet) (c : Checkpoint) : Subnet :=
  {| ID := ID sh;
     ParentID := ParentID sh;
     Stake := Stake sh;
     TopDownMsgs := TopDownMsgs sh;
     Nonce_ := Nonce_ sh;
     CircSupply := CircSupply sh;
     Status_ := Status_ sh;
     PrevCheckpoint_ := c |}.

(** The statements both branches of [CommitChildCheckpoint] end with:
    apply the cross-messages, append the child, flush the window
    checkpoint, record the commit as the child's previous checkpoint. *)
Definition commitChild (rt : Runtime) (st : SCAState) (sh : Subnet)
    (ch commit : Checkpoint) : Exec SCAState :=
  '(st, ch) ← applyCheckMsgs rt st ch commit;
  ch ← RequireNoErr (AddChild ch commit) ErrIllegalState;
  let st := flushCheckpoint st ch in
  let sh := set_PrevCheckpoint sh commit in
  Done (flushSubnet st sh).

(** [func (a SubnetCoordActor) CommitChildCheckpoint(rt, params) *abi.EmptyValue] *)
Definition CommitChildCheckpoint (rt : Runtime) (params : CheckpointParams)
    (st : SCAState) : Exec (unit * SCAState) :=
  ValidateImmediateCallerType rt SubnetActorCodeID;;
  commit ← RequireNoErr (UnmarshalBinary (chp_Checkpoint params)) ErrIllegalArgument;
  let subnetActorAddr := Caller rt in
  source ← RequireNoErr (Actor (Source (Data commit))) ErrIllegalArgument;
  if negb (String.eqb source subnetActorAddr) then Abort ErrIllegalArgument
  else
    let shid := NewSubnetID (NetworkName st) subnetActorAddr in
    match GetSubnet st shid with
    | None => Abort ErrIllegalArgument
    | Some sh =>
        if negb (bool_decide (Status_ sh = Active)) then Abort ErrIllegalState
        else
          let ch := currWindowCheckpoint rt st in
          let prevCom := PrevCheckpoint_ sh in
          let empty := match IsEmpty prevCom with Ok b => b | Err _ => false end in
          if empty then
            st ← commitChild rt st sh ch commit;
            Done (tt, st)
          else if Epoch (Data prevCom) >? Epoch (Data commit) then
            Abort ErrIllegalArgument
          else
            prevCid ← RequireNoErr (Cid prevCom) ErrIllegalState;
            if negb (String.eqb prevCid (PreviousCheck commit)) then
              Abort ErrIllegalArgument
            else
              st ← commitChild rt st sh ch commit;
              Done (tt, st)
    end.

(** What [CommitChildCheckpoint] computes once the caller, the decoding,
    the source and the registry entry have been checked. *)
Definition chainingChecks (rt : Runtime) (st : SCAState) (sh : Subnet)
    (commit : Checkpoint) : Exec (unit * SCAState) :=
  let ch := currWindowCheckpoint rt st in
  let prevCom := PrevCheckpoint_ sh in
  let empty := match IsEmpty prevCom with Ok b => b | Err _ => false end in
  if empty then
    st ← commitChild rt st sh ch commit;
    Done (tt, st)
  else if Epoch (Data prevCom) >? Epoch (Data commit) then
    Abort ErrIllegalArgument
  else
    prevCid ← RequireNoErr (Cid prevCom) ErrIllegalState;
    if negb (String.eqb prevCid (PreviousCheck commit)) then
      Abort ErrIllegalArgument
    else
      st ← commitChild rt st sh ch commit;
      Done (tt, st).

(** The commit proper: the effects applied once the checks have passed. *)
Definition accepted (rt : Runtime) (st : SCAState) (sh : Subnet)
    (commit : Checkpoint) : Exec (unit * SCAState) :=
  st ← commitChild rt st sh (currWindowCheckpoint rt st) commit;
  Done (tt, st).

(** [func (a SubnetCoordActor) Kill(rt, _) *abi.EmptyValue]; the value
    returned next to the state is the transfer sent to the subnet actor. *)
Definition Kill (rt : Runtime) (st : SCAState) : Exec (SendMsg * SCAState) :=
  ValidateImmediateCallerType rt SubnetActorCodeID;;
  let SubnetActorAddr := Caller rt in
  let shid := NewSubnetID (NetworkName st) SubnetActorAddr in
  match GetSubnet st shid with
  | None => Abort ErrIllegalArgument
  | Some sh =>
      if CurrentBalance rt <? Stake sh then Abort ErrIllegalState
      else if CircSupply sh >? 0 then Abort ErrForbidden
      else
        let st := set_Subnets st (delete shid (Subnets st)) in
        let code := SendResult rt SubnetActorAddr (Stake sh) in
        if negb (IsSuccess code) then Abort ErrIllegalState
        else Done ({| send_To := SubnetActorAddr; send_Value := Stake sh |}, st)
  end.

Definition set_CircSupply (sh : Subnet) (v : TokenAmount) : Subnet :=
  {| ID := ID sh;
     ParentID := ParentID sh;
     Stake := Stake sh;
     TopDownMsgs := TopDownMsgs sh;
     Nonce_ := Nonce_ sh;
     CircSupply := v;
     Status_ := Status_ sh;
     PrevCheckpoint_ := PrevCheckpoint_ sh |}.

(** Modelled from the spec: [freezeFunds], a method of [Subnet] whose
    definition is missing.  Section 4.3 (Fund): "circ_supply += value; value is held by the
    SC". *)
Definition freezeFunds (sh : Subnet) (source : Address) (value : TokenAmount) : Subnet :=
  set_CircSupply sh (CircSupply sh + value).

(** Modelled from the spec: [addFundMsg], a method of [Subnet] whose
    definition is missing.  Section 4.3 (Fund): "Emit a top-down cross-message with the
    funded amount addressed to the caller in the child; advance that
    subnet's nonce"; section 4.2 ([add_top_down]): "assign nonce =
    subnet.nonce, store msg at index nonce in subnet.top_down_msgs,
    increment subnet.nonce.  Fails if nonce == MAX_NONCE". *)
Definition addFundMsg (rt : Runtime) (sh : Subnet) (value : TokenAmount) : Exec Subnet :=
  if Nonce_ sh =? MaxNonce then Abort ErrIllegalState
  else
    let msg := {| msg_To := Caller rt;
                  msg_Subnet := ID sh;
                  msg_Value := value;
                  msg_Nonce := Nonce_ sh |} in
    Done {| ID := ID sh;
            ParentID := ParentID sh;
            Stake := Stake sh;
            TopDownMsgs := <[Nonce_ sh := msg]> (TopDownMsgs sh);
            Nonce_ := Nonce_ sh + 1;
            CircSupply := CircSupply sh;
            Status_ := Status_ sh;
            PrevCheckpoint_ := PrevCheckpoint_ sh |}.

(** [func (a SubnetCoordActor) Fund(rt, params) *abi.EmptyValue] *)
Definition Fund (rt : Runtime) (params : SubnetIDParam) (st : SCAState)
  : Exec (unit * SCAState) :=
  ValidateImmediateCallerType rt AccountActorCodeID;;
  let value := ValueReceived rt in
  if value <=? 0 then Abort ErrIllegalArgument
  else
    match GetSubnet st (sp_ID params) with
    | None => Abort ErrIllegalArgument
    | Some sh =>
        let sh := freezeFunds sh (Caller rt) value in
        sh ← addFundMsg rt sh value;
        Done (tt, flushSubnet st sh)
    end.

End Actor.

End SCA.

(** ** Block messages (package [types], [chain/types/blockmsg.go]) *)

Module Types.

(** A Go slice: [None] is the nil slice. *)
Definition slice (A : Type) : Type := option (list A).

Section BlockMsg.
(** [BlockHeader] is declared elsewhere in the package. *)
Context {BlockHeader : Type}.

Record BlockMsg := {
  Header : option BlockHeader;
  BlsMessages : slice cid.Cid;
  SecpkMessages : slice cid.Cid;
  CrossMessages : slice cid.Cid
}.

Record OldBlockMsg := {
  old_Header : option BlockHeader;
  old_BlsMessages : slice cid.Cid;
  old_SecpkMessages : slice cid.Cid
}.

(** The generated CBOR decoders of the two formats.  [UnmarshalCBOR] is a
    method on a pointer: it is given the receiver and returns the receiver
    as the call leaves it, next to the error ([None] is a nil error). *)
Class Unmarshalers := {
  BlockMsg_UnmarshalCBOR : BlockMsg -> bytes -> BlockMsg * option error;
  OldBlockMsg_UnmarshalCBOR : OldBlockMsg -> bytes -> OldBlockMsg * option error
}.

(** [var bm BlockMsg], [var obm OldBlockMsg] *)
Definition zeroBlockMsg : BlockMsg :=
  {| Header := None; BlsMessages := None; SecpkMessages := None; CrossMessages := None |}.
Definition zeroOldBlockMsg : OldBlockMsg :=
  {| old_Header := None; old_BlsMessages := None; old_SecpkMessages := None |}.

Context `{Unmarshalers}.


End BlockMsg.
Arguments BlockMsg : clear implicits.
Arguments OldBlockMsg : clear implicits.
Arguments Unmarshalers : clear implicits.

End Types.

(** ** The generated decoders of block messages *)

Module CborGen.
Import Types.

(** [cbg.MajArray] *)
Definition MajArray : Z := 4.

Section Generated.
Context {BlockHeader : Type}.

(** What the two decoders below leave open: the reader of a CBOR head,
    [cbg.CborReadHeaderBuf], which gives the major type, the argument and
    the rest of the input or an error, and the code that fills the fields
    of the receiver once the head has been accepted, which returns the
    receiver as it leaves it next to its error.  Nothing is assumed of
    them. *)
Class Parts := {
  CborReadHeaderBuf : bytes -> result (Z * Z * bytes);
  BlockMsg_fields : BlockMsg BlockHeader -> bytes -> BlockMsg BlockHeader * option error;
  OldBlockMsg_fields :
    OldBlockMsg BlockHeader -> bytes -> OldBlockMsg BlockHeader * option error
}.

Context `{Parts}.

(** Modelled from the spec: the [UnmarshalCBOR] methods of [BlockMsg] and
    [OldBlockMsg] are generated code ([chain/types/cbor_gen.go]) that is
    missing, and the specification says nothing of them beyond the two
    formats.  What is fixed here is the prologue that cbor-gen emits for
    every struct it encodes as a tuple: the receiver is reset to its zero
    value, one CBOR head is read, and the input is refused unless the head
    is that of an array with as many elements as the struct has fields,
    4 for [BlockMsg] and 3 for [OldBlockMsg]; no field is assigned before
    these checks have passed. *)
Definition UnmarshalCBOR_BlockMsg (t : BlockMsg BlockHeader) (b : bytes)
  : BlockMsg BlockHeader * option error :=
  let t := zeroBlockMsg in
  match CborReadHeaderBuf b with
  | Err err => (t, Some err)
  | Ok (maj, extra, rest) =>
      if negb (maj =? MajArray) then (t, Some "cbor input should be of type array"%string)
      else if negb (extra =? 4) then (t, Some "cbor input had wrong number of fields"%string)
      else BlockMsg_fields t rest
  end.

Definition UnmarshalCBOR_OldBlockMsg (t : OldBlockMsg BlockHeader) (b : bytes)
  : OldBlockMsg BlockHeader * option error :=
  let t := zeroOldBlockMsg in
  match CborReadHeaderBuf b with
  | Err err => (t, Some err)
  | Ok (maj, extra, rest) =>
      if negb (maj =? MajArray) then (t, Some "cbor input should be of type array"%string)
      else if negb (extra =? 3) then (t, Some "cbor input had wrong number of fields"%string)
      else OldBlockMsg_fields t rest
  end.

#[export] Instance generated : Unmarshalers BlockHeader :=
  {| BlockMsg_UnmarshalCBOR := UnmarshalCBOR_BlockMsg;
     OldBlockMsg_UnmarshalCBOR := UnmarshalCBOR_OldBlockMsg |}.

End Generated.
Arguments Parts : clear implicits.

End CborGen.

(** ** DAG-CBOR encoding of checkpoints

    [MarshalCBOR] and [UnmarshalCBOR] go through go-ipld-prime: [bindnode]
    presents the Go value as a node that follows the schema declared in
    [initCheckpointSchema], and [dagcbor] writes and reads nodes in
    DAG-CBOR (the CBOR of RFC 8949, definite lengths, links as tag 42).
    The library is not part of the repository: this module models its
    data model, its wire format and the binding of the schema.  A nil Go
    slice and an empty one are the same list here. *)

Module DagCbor.
Import Schema.

(** The IPLD data model, restricted to the kinds DAG-CBOR carries for the
    checkpoint schema (no floats). *)
#[local] Unset Elimination Schemes.
Inductive Node : Type :=
| NNull
| NBool (b : bool)
| NInt (z : Z)
| NString (s : string)
| NBytes (b : bytes)
| NList (l : list Node)
| NMap (kvs : list (string * Node))
| NLink (c : cid.Cid).
#[local] Set Elimination Schemes.

(** *** Bytes and integers *)

Definition Z_of_byte (b : Byte.byte) : Z := Z.of_N (Byte.to_N b).

Definition byte_of_Z (z : Z) : Byte.byte :=
  match Byte.of_N (Z.to_N (z mod 256)) with
  | Some b => b
  | None => Byte.x00
  end.

(** The [k] low-order bytes of [n], most significant first. *)
Fixpoint be_bytes (k : nat) (n : Z) : bytes :=
  match k with
  | O => []
  | S k' => byte_of_Z (n / 256 ^ Z.of_nat k') :: be_bytes k' (n mod 256 ^ Z.of_nat k')
  end.

Definition be_value (bs : bytes) : Z :=
  fold_left (fun acc b => acc * 256 + Z_of_byte b) bs 0.

Definition string_bytes (s : string) : bytes := list_byte_of_string s.
Definition bytes_string (b : bytes) : string := string_of_list_byte b.

(** *** Encoder *)

(** The head of a data item: major type in the three high bits, then the
    argument in the shortest of the five forms. *)
Definition encode_head (major : Z) (n : Z) : bytes :=
  if n <? 24 then [byte_of_Z (major * 32 + n)]
  else if n <? 2 ^ 8 then byte_of_Z (major * 32 + 24) :: be_bytes 1 n
  else if n <? 2 ^ 16 then byte_of_Z (major * 32 + 25) :: be_bytes 2 n
  else if n <? 2 ^ 32 then byte_of_Z (major * 32 + 26) :: be_bytes 4 n
  else byte_of_Z (major * 32 + 27) :: be_bytes 8 n.

Definition encode_bytes (b : bytes) : bytes :=
  encode_head 2 (Z.of_nat (length b)) ++ b.

Definition encode_string (s : string) : bytes :=
  encode_head 3 (Z.of_nat (length (string_bytes s))) ++ string_bytes s.

(** A link is tag 42 around a byte string: the identity multibase prefix
    0x00 followed by the binary CID. *)
Definition encode_link (c : cid.Cid) : bytes :=
  encode_head 6 42 ++ encode_bytes (Byte.x00 :: string_bytes c).

Fixpoint encode (n : Node) : bytes :=
  match n with
  | NNull => encode_head 7 22
  | NBool b => encode_head 7 (if b then 21 else 20)
  | NInt z => if 0 <=? z then encode_head 0 z else encode_head 1 (-1 - z)
  | NString s => encode_string s
  | NBytes b => encode_bytes b
  | NList l =>
      encode_head 4 (Z.of_nat (length l)) ++ concat (map encode l)
  | NMap kvs =>
      encode_head 5 (Z.of_nat (length kvs))
      ++ concat (map (fun kv => encode_string (fst kv) ++ encode (snd kv)) kvs)
  | NLink c => encode_link c
  end.

(** [cid.Cid.Defined] *)
Definition Defined (c : cid.Cid) : bool := negb (String.eqb c cid.Undef).

(** The encoder refuses a link whose CID is undefined. *)
Fixpoint links_defined (n : Node) : bool :=
  match n with
  | NList l => forallb links_defined l
  | NMap kvs => forallb (fun kv => links_defined (snd kv)) kvs
  | NLink c => Defined c
  | _ => true
  end.

(** [dagcbor.Encode(node, w)] *)
Definition Encode (n : Node) : result bytes :=
  if links_defined n then Ok (encode n)
  else Err "encoding undefined CIDs are not supported by this codec".

(** *** Decoder *)

(** The syntax of binary CIDs is go-cid's; [cid_valid] tells whether
    [cid.Cast] accepts the bytes of a CID. *)
Class CidSyntax := {
  cid_valid : cid.Cid -> bool
}.

Definition split_at (n : Z) (bs : bytes) : option (bytes * bytes) :=
  if Z.of_nat (length bs) <? n then None
  else Some (take (Z.to_nat n) bs, drop (Z.to_nat n) bs).

Definition decode_head (bs : bytes) : option (Z * Z * bytes) :=
  match bs with
  | [] => None
  | b :: rest =>
      let v := Z_of_byte b in
      let major := v / 32 in
      let info := v mod 32 in
      let wide (k : Z) :=
        match split_at k rest with
        | Some (arg, rest') => Some (major, be_value arg, rest')
        | None => None
        end in
      if info <? 24 then Some (major, info, rest)
      else if info =? 24 then wide 1
      else if info =? 25 then wide 2
      else if info =? 26 then wide 4
      else if info =? 27 then wide 8
      else None
  end.

Section Decoder.
Context `{CidSyntax}.

(** [cid.Cast] *)
Definition Cast (b : bytes) : option cid.Cid :=
  let c := bytes_string b in
  if cid_valid c then Some c else None.

Definition decode_text (bs : bytes) : option (string * bytes) :=
  match decode_head bs with
  | Some (3, n, rest) =>
      match split_at n rest with
      | Some (s, rest') => Some (bytes_string s, rest')
      | None => None
      end
  | _ => None
  end.

(** The items of a list and the entries of a map, for a given decoder of
    one item. *)
Fixpoint decode_items (dec : bytes -> option (Node * bytes)) (n : nat) (bs : bytes)
  : option (list Node * bytes) :=
  match n with
  | O => Some ([], bs)
  | S n' =>
      match dec bs with
      | Some (x, bs') =>
          match decode_items dec n' bs' with
          | Some (xs, bs'') => Some (x :: xs, bs'')
          | None => None
          end
      | None => None
      end
  end.

Fixpoint decode_entries (dec : bytes -> option (Node * bytes)) (n : nat) (bs : bytes)
  : option (list (string * Node) * bytes) :=
  match n with
  | O => Some ([], bs)
  | S n' =>
      match decode_text bs with
      | Some (k, bs1) =>
          match dec bs1 with
          | Some (x, bs') =>
              match decode_entries dec n' bs' with
              | Some (xs, bs'') => Some ((k, x) :: xs, bs'')
              | None => None
              end
          | None => None
          end
      | None => None
      end
  end.

Definition decode_link (rest : bytes) : option (Node * bytes) :=
  match decode_head rest with
  | Some (2, n, rest1) =>
      match split_at n rest1 with
      | Some (Byte.x00 :: b, rest') =>
          match Cast b with
          | Some c => Some (NLink c, rest')
          | None => None
          end
      | _ => None
      end
  | _ => None
  end.

(** One data item, given its head and a decoder for the items nested
    in it. *)
Definition decode_item (dec : bytes -> option (Node * bytes))
    (major arg : Z) (rest : bytes) : option (Node * bytes) :=
  match major with
  | 0 => if arg <? 2 ^ 63 then Some (NInt arg, rest) else None
  | 1 => if arg <? 2 ^ 63 then Some (NInt (-1 - arg), rest) else None
  | 2 =>
      match split_at arg rest with
      | Some (b, rest') => Some (NBytes b, rest')
      | None => None
      end
  | 3 =>
      match split_at arg rest with
      | Some (s, rest') => Some (NString (bytes_string s), rest')
      | None => None
      end
  | 4 =>
      match decode_items dec (Z.to_nat arg) rest with
      | Some (xs, rest') => Some (NList xs, rest')
      | None => None
      end
  | 5 =>
      match decode_entries dec (Z.to_nat arg) rest with
      | Some (xs, rest') => Some (NMap xs, rest')
      | None => None
      end
  | 6 => if arg =? 42 then decode_link rest else None
  | 7 =>
      if arg =? 20 then Some (NBool false, rest)
      else if arg =? 21 then Some (NBool true, rest)
      else if arg =? 22 then Some (NNull, rest)
      else None
  | _ => None
  end.

Fixpoint decode (fuel : nat) (bs : bytes) : option (Node * bytes) :=
  match fuel with
  | O => None
  | S fuel =>
      match decode_head bs with
      | None => None
      | Some (major, arg, rest) => decode_item (decode fuel) major arg rest
      end
  end.

(** [dagcbor.Decode(na, r)]: one data item is read from the input; every
    item takes at least one byte, so the length of the input bounds the
    nesting. *)
Definition Decode (bs : bytes) : result Node :=
  match decode (S (length bs)) bs with
  | Some (n, _) => Ok n
  | None => Err "malformed DAG-CBOR"
  end.

End Decoder.

(** *** The schema binding (bindnode) *)

(** [bindnode.Wrap(c, CheckpointSchema).Representation()]: structs have
    the map representation, with the fields in schema order; an absent
    optional field is left out. *)
Definition reprChildCheck (cc : ChildCheck) : Node :=
  NMap [("Source"%string, NString (cc_Source cc));
        ("Check"%string, NLink (cc_Check cc))].

Definition reprMsgTreeList (m : MsgTreeList) : Node := NMap [].

Definition reprCheckData (d : CheckData) : Node :=
  NMap ([("Source"%string, NString (Source d));
         ("TipSet"%string, NBytes (TipSet d));
         ("Epoch"%string, NInt (Epoch d));
         ("PrevCheckpoint"%string, NLink (PrevCheckpoint d));
         ("Childs"%string, NList (map reprChildCheck (Childs d)))]
        ++ match XShardMsg d with
           | Some m => [("XShardMsg"%string, reprMsgTreeList m)]
           | None => []
           end).

Definition Representation (c : Checkpoint) : Node :=
  NMap [("Data"%string, reprCheckData (Data c));
        ("Signature"%string, NBytes (Signature c))].

(** The builder of a struct type, fed with a map: every key must name a
    field and come once; a field is looked up by name. *)
Fixpoint field (name : string) (kvs : list (string * Node)) : option Node :=
  match kvs with
  | [] => None
  | (k, v) :: rest => if String.eqb k name then Some v else field name rest
  end.

Fixpoint keys_ok (fields : list string) (seen : list string)
    (kvs : list (string * Node)) : bool :=
  match kvs with
  | [] => true
  | (k, _) :: rest =>
      existsb (String.eqb k) fields && negb (existsb (String.eqb k) seen)
      && keys_ok fields (k :: seen) rest
  end.

Definition required (name : string) (kvs : list (string * Node)) : result Node :=
  match field name kvs with
  | Some v => Ok v
  | None => Err "missing required field"
  end.

Definition asString (n : Node) : result string :=
  match n with NString s => Ok s | _ => Err "wrong kind: string expected" end.
Definition asBytes (n : Node) : result bytes :=
  match n with NBytes b => Ok b | _ => Err "wrong kind: bytes expected" end.
Definition asInt (n : Node) : result Z :=
  match n with NInt z => Ok z | _ => Err "wrong kind: int expected" end.
Definition asLink (n : Node) : result cid.Cid :=
  match n with NLink c => Ok c | _ => Err "wrong kind: link expected" end.
Definition asList (n : Node) : result (list Node) :=
  match n with NList l => Ok l | _ => Err "wrong kind: list expected" end.
Definition asMap (fields : list string) (n : Node) : result (list (string * Node)) :=
  match n with
  | NMap kvs => if keys_ok fields [] kvs then Ok kvs else Err "invalid key"
  | _ => Err "wrong kind: map expected"
  end.

Fixpoint mapM {A B} (f : A -> result B) (l : list A) : result (list B) :=
  match l with
  | [] => Ok []
  | x :: rest =>
      match f x with
      | Ok y => match mapM f rest with Ok ys => Ok (y :: ys) | Err e => Err e end
      | Err e => Err e
      end
  end.

Definition optional {A} (name : string) (kvs : list (string * Node))
    (build : Node -> result A) : result (option A) :=
  match field name kvs with
  | None => Ok None
  | Some m => match build m with Ok a => Ok (Some a) | Err e => Err e end
  end.

Definition buildChildCheck (n : Node) : result ChildCheck :=
  kvs ← asMap ["Source"; "Check"]%string n;
  src ← required "Source" kvs ≫= asString;
  chk ← required "Check" kvs ≫= asLink;
  Ok {| cc_Source := src; cc_Check := chk |}.

Definition buildMsgTreeList (n : Node) : result MsgTreeList :=
  asMap [] n;; Ok tt.

Definition buildCheckData (n : Node) : result CheckData :=
  kvs ← asMap ["Source"; "TipSet"; "Epoch"; "PrevCheckpoint"; "Childs"; "XShardMsg"]%string n;
  src ← required "Source" kvs ≫= asString;
  ts ← required "TipSet" kvs ≫= asBytes;
  ep ← required "Epoch" kvs ≫= asInt;
  prev ← required "PrevCheckpoint" kvs ≫= asLink;
  items ← required "Childs" kvs ≫= asList;
  childs ← mapM buildChildCheck items;
  xs ← optional "XShardMsg" kvs buildMsgTreeList;
  Ok {| Source := src; TipSet := ts; Epoch := ep; PrevCheckpoint := prev;
        Childs := childs; XShardMsg := xs |}.

(** [bindnode.Unwrap(nb.Build())] for the prototype of [Checkpoint] *)
Definition buildCheckpoint (n : Node) : result Checkpoint :=
  kvs ← asMap ["Data"; "Signature"]%string n;
  d ← required "Data" kvs ≫= buildCheckData;
  sig ← required "Signature" kvs ≫= asBytes;
  Ok {| Data := d; Signature := sig |}.

Section Marshal.
Context `{CidSyntax}.

(** [func (c *Checkpoint) MarshalCBOR() ([]byte, error)] *)
Definition MarshalCBOR (c : Checkpoint) : result bytes :=
  let nodeRepr := Representation c in
  match Encode nodeRepr with
  | Err e => Err e
  | Ok buf => Ok buf
  end.

(** [func (c *Checkpoint) UnmarshalCBOR(b []byte) error]; the value is
    the checkpoint assigned to the receiver. *)
Definition UnmarshalCBOR (b : bytes) : result Checkpoint :=
  match Decode b with
  | Err e => Err e
  | Ok n => buildCheckpoint n
  end.

End Marshal.







End DagCbor.

(** ** Windows of epochs (package [types]) *)

(** [types.CheckpointEpoch(epoch, period)], the epoch of the signing
    window of an epoch, is defined in a file that is missing: it is a
    parameter of what follows, and nothing is assumed of it. *)
Class Windows := {
  CheckpointEpoch : ChainEpoch -> ChainEpoch -> ChainEpoch
}.

(** The value an [int64] operation yields for the exact result [z]. *)
Definition i64_wrap (z : Z) : Z := (z + 2 ^ 63) mod two64 - 2 ^ 63.

(** ** Subnet actor state: checkpoints, tallies and miners *)

Module SubnetStore.
Import Schema Subnet.

Definition set_Checkpoints (st : SubnetState) (m : gmap Z Checkpoint) : SubnetState :=
  {| Name := Name st;
     ParentID := ParentID st;
     Consensus := Consensus st;
     MinMinerStake := MinMinerStake st;
     Miners := Miners st;
     TotalStake := TotalStake st;
     Stake := Stake st;
     Status_ := Status_ st;
     Genesis := Genesis st;
     CheckPeriod := CheckPeriod st;
     Checkpoints := m;
     WindowChecks := WindowChecks st |}.

Definition set_WindowChecks (st : SubnetState) (m : gmap cid.Cid CheckVotes) : SubnetState :=
  {| Name := Name st;
     ParentID := ParentID st;
     Consensus := Consensus st;
     MinMinerStake := MinMinerStake st;
     Miners := Miners st;
     TotalStake := TotalStake st;
     Stake := Stake st;
     Status_ := Status_ st;
     Genesis := Genesis st;
     CheckPeriod := CheckPeriod st;
     Checkpoints := Checkpoints st;
     WindowChecks := m |}.

(** [func (st *SubnetState) emptyWindowChecks(store adt.Store) error] *)
Definition emptyWindowChecks (st : SubnetState) : SubnetState :=
  set_WindowChecks st ∅.

(** [func (st *SubnetState) GetCheckpoint(s adt.Store, epoch abi.ChainEpoch)];
    the key is [abi.UIntKey(uint64(epoch))]. *)
Definition GetCheckpoint (st : SubnetState) (epoch : ChainEpoch) : option Checkpoint :=
  Checkpoints st !! SCA.epoch_key epoch.

(** [func (st *SubnetState) flushCheckpoint(rt runtime.Runtime, ch *schema.Checkpoint)] *)
Definition flushCheckpoint (st : SubnetState) (ch : Checkpoint) : SubnetState :=
  set_Checkpoints st (<[SCA.epoch_key (Epoch (Data ch)) := ch]> (Checkpoints st)).

(** [func (st *SubnetState) GetWindowChecks(s adt.Store, checkCid cid.Cid)];
    the key is [abi.CidKey(checkCid)], the string of the CID. *)
Definition GetWindowChecks (st : SubnetState) (checkCid : cid.Cid) : option CheckVotes :=
  WindowChecks st !! checkCid.

(** [func (st *SubnetState) flushWindowChecks(rt, checkCid cid.Cid, w *CheckVotes)] *)
Definition flushWindowChecks (st : SubnetState) (checkCid : cid.Cid) (w : CheckVotes)
  : SubnetState :=
  set_WindowChecks st (<[checkCid := w]> (WindowChecks st)).

(** [func (st *SubnetState) IsMiner(addr address.Address) bool] *)
Definition IsMiner (st : SubnetState) (addr : Address) : bool :=
  hasMiner addr (Miners st).

Section WithWindows.
Context `{LinkSystem} `{SCA.Collaborators} `{Windows}.

(** [func (st *SubnetState) epochCheckpoint(rt runtime.Runtime)] *)
Definition epochCheckpoint (rt : Runtime) (st : SubnetState) : option Checkpoint :=
  let chEpoch := CheckpointEpoch (CurrEpoch rt) (CheckPeriod st) in
  GetCheckpoint st chEpoch.

(** [func (st *SubnetState) prevCheckCid(rt runtime.Runtime) (cid.Cid, error)] *)
Definition prevCheckCid (rt : Runtime) (st : SubnetState) : result cid.Cid :=
  let chEpoch := CheckpointEpoch (CurrEpoch rt) (CheckPeriod st) in
  let ep := i64_wrap (chEpoch - CheckPeriod st) in
  if ep <? 0 then Ok SCA.NoPreviousCheck
  else
    match GetCheckpoint st ep with
    | None => Ok SCA.NoPreviousCheck
    | Some ch => Cid ch
    end.

End WithWindows.

End SubnetStore.

(** ** Subnet coordinator actor: stake, release and signing window *)

Module SCAStake.
Import Schema SCA.

(** [type FundParams struct { Value abi.TokenAmount }] *)
Record FundParams := {
  fp_Value : TokenAmount
}.

(** Two methods of the SCA state and of a registry entry that the actor
    calls and that are defined in a file that is missing, and two
    addresses of the [builtin] package.  They are parameters: nothing is
    assumed of them. *)
Class StakeCollaborators := {
  (** [func (sh *Subnet) addStake(rt, st *SCAState, value)]; the result is
      the state after the call *)
  addStake : Runtime -> SCAState -> Subnet -> TokenAmount -> Exec SCAState;
  (** [func (st *SCAState) releaseMsg(rt, value)] *)
  releaseMsg : Runtime -> SCAState -> TokenAmount -> Exec SCAState;
  (** [builtin.BurntFundsActorAddr] *)
  BurntFundsActorAddr : Address;
  (** [builtin.SystemActorAddr] *)
  SystemActorAddr : Address
}.

Section Stake.
Context `{LinkSystem} `{Collaborators} `{StakeCollaborators} `{Windows}.

(** [rt.ValidateImmediateCallerIs(addr)]: the host aborts the call with
    [SysErrForbidden] when the caller is another address. *)
Definition ValidateImmediateCallerIs (rt : Runtime) (addr : Address) : Exec unit :=
  if bool_decide (Caller rt = addr) then Done tt else Abort SysErrForbidden.

(** [func (a SubnetCoordActor) Constructor(rt, params *ConstructorParams) *abi.EmptyValue];
    the result is the state handed to [rt.StateCreate]. *)
Definition Constructor (rt : Runtime) (params : ConstructorParams) : Exec SCAState :=
  ValidateImmediateCallerIs rt SystemActorAddr;;
  st ← RequireNoErr (ConstructSCAState params) ErrIllegalState;
  Done st.

(** [func (st *SCAState) getSubnetFromActorAddr(s adt.Store, addr address.Address)] *)
Definition getSubnetFromActorAddr (st : SCAState) (addr : Address) : option Subnet :=
  let shid := NewSubnetID (NetworkName st) addr in
  GetSubnet st shid.

(** [func (a SubnetCoordActor) AddStake(rt, _) *abi.EmptyValue] *)
Definition AddStake (rt : Runtime) (st : SCAState) : Exec (unit * SCAState) :=
  ValidateImmediateCallerType rt SubnetActorCodeID;;
  let SubnetActorAddr := Caller rt in
  match getSubnetFromActorAddr st SubnetActorAddr with
  | None => Abort ErrIllegalArgument
  | Some sh =>
      let value := ValueReceived rt in
      if value <=? 0 then Abort ErrIllegalArgument
      else
        st ← addStake rt st sh value;
        Done (tt, st)
  end.

(** [func (a SubnetCoordActor) ReleaseStake(rt, params *FundParams) *abi.EmptyValue];
    the value returned next to the state is the transfer sent to the
    subnet actor. *)
Definition ReleaseStake (rt : Runtime) (params : FundParams) (st : SCAState)
  : Exec (SendMsg * SCAState) :=
  ValidateImmediateCallerType rt SubnetActorCodeID;;
  let SubnetActorAddr := Caller rt in
  if fp_Value params <=? 0 then Abort ErrIllegalArgument
  else
    match getSubnetFromActorAddr st SubnetActorAddr with
    | None => Abort ErrIllegalArgument
    | Some sh =>
        if Stake sh <? fp_Value params then Abort ErrIllegalState
        else if CurrentBalance rt <? fp_Value params then Abort ErrIllegalState
        else
          st ← addStake rt st sh (- fp_Value params);
          let code := SendResult rt SubnetActorAddr (fp_Value params) in
          if negb (IsSuccess code) then Abort ErrIllegalState
          else Done ({| send_To := SubnetActorAddr; send_Value := fp_Value params |}, st)
    end.

(** [func (a SubnetCoordActor) Release(rt, _) *abi.EmptyValue]; the value
    returned next to the state is the transfer sent to the burnt-funds
    actor. *)
Definition Release (rt : Runtime) (st : SCAState) : Exec (SendMsg * SCAState) :=
  ValidateImmediateCallerType rt AccountActorCodeID;;
  let value := ValueReceived rt in
  if value <=? 0 then Abort ErrIllegalArgument
  else
    let code := SendResult rt BurntFundsActorAddr (ValueReceived rt) in
    if negb (IsSuccess code) then Abort ErrIllegalState
    else
      st ← releaseMsg rt st value;
      Done ({| send_To := BurntFundsActorAddr; send_Value := ValueReceived rt |}, st).

(** [func RawCheckpoint(st *SCAState, store adt.Store, epoch abi.ChainEpoch)] *)
Definition RawCheckpoint (st : SCAState) (epoch : ChainEpoch) : result Checkpoint :=
  if epoch <? 0 then Err "epoch can't be negative"
  else
    let chEpoch := CheckpointEpoch epoch (CheckPeriod st) in
    match GetCheckpoint st chEpoch with
    | Some ch => Ok ch
    | None => Ok (NewRawCheckpoint2 (NetworkName st) chEpoch)
    end.

(** What the loop of [applyCheckMsgs] does with the metas addressed to
    this network: they are stored one after the other. *)
Fixpoint storeAll (rt : Runtime) (st : SCAState) (mms : list CrossMsgMeta)
  : Exec SCAState :=
  match mms with
  | [] => Done st
  | mm :: rest =>
      st ← storeDownTopMsgMeta rt st mm;
      storeAll rt st rest
  end.

End Stake.

(** The metas of a list that are addressed to [dest], in order. *)
Definition metas_to (dest : string) (mms : list CrossMsgMeta) : list CrossMsgMeta :=
  List.filter (fun mm => String.eqb (To mm) dest) mms.

(** What [aux] holds for a destination that had [o] and receives the
    metas [l] after it. *)
Definition extend_group (o : option (list CrossMsgMeta)) (l : list CrossMsgMeta)
  : option (list CrossMsgMeta) :=
  match o, l with
  | None, [] => None
  | None, _ => Some l
  | Some l0, _ => Some (l0 ++ l)
  end.

(** Every registry entry is stored under its own ID and names this
    network as its parent. *)
Definition registry_wf (st : SCAState) : Prop :=
  forall (k : SubnetID) (sh : Subnet),
    Subnets st !! k = Some sh -> ID sh = k /\ SCA.ParentID sh = NetworkName st.

End SCAStake.

(** The check recorded by the first entry of a source, if any. *)
Definition first_check (src : string) (l : list Schema.ChildCheck) : option cid.Cid :=
  Schema.cc_Check <$> List.find (fun x => String.eqb (Schema.cc_Source x) src) l.

(** ** Concrete inputs used by the examples below *)

Module Examples.
Import Schema.

Definition child_a1 : ChildCheck := {| cc_Source := "/root/a"; cc_Check := "cid1" |}.
Definition child_a2 : ChildCheck := {| cc_Source := "/root/a"; cc_Check := "cid2" |}.

(** A window checkpoint of [/root] that already records [cid1] for the
    child [/root/a]. *)
Definition window_with_a1 : Checkpoint :=
  set_Childs (NewRawCheckpoint "/root" 10 "prev" None) [child_a1].

(** A subnet actor state with [n] miners, and a tally with [n] voters. *)
Definition subnet_with_miners (n : nat) : Subnet.SubnetState :=
  {| Subnet.Name := "a";
     Subnet.ParentID := "/root";
     Subnet.Consensus := Subnet.PoW;
     Subnet.MinMinerStake := 10 ^ 18;
     Subnet.Miners := repeat "t0100"%string n;
     Subnet.TotalStake := 0;
     Subnet.Stake := ∅;
     Subnet.Status_ := Subnet.Active;
     Subnet.Genesis := [];
     Subnet.CheckPeriod := 10;
     Subnet.Checkpoints := ∅;
     Subnet.WindowChecks := ∅ |}.

Definition votes (n : nat) : Subnet.CheckVotes :=
  {| Subnet.cv_Miners := repeat "t0100"%string n |}.

End Examples.

(** ** A concrete host, for running the actor on examples *)

Module Demo.
Import Schema SCA DagCbor.

(** Binary CIDs of version 1 start with the byte 0x01. *)
#[export] Instance cidSyntax : CidSyntax :=
  {| cid_valid := fun c =>
       match c with
       | String a _ => Ascii.eqb a (Ascii.ascii_of_byte Byte.x01)
       | EmptyString => false
       end |}.

(** A link system with the identity multihash: the CID is the version,
    the DAG-CBOR codec and the encoded node itself. *)
#[export] Instance linkSystem : LinkSystem :=
  {| ComputeLink := fun lp c =>
       match Encode (Representation c) with
       | Ok b => Ok (bytes_string (byte_of_Z (Version lp) :: byte_of_Z (Codec lp)
                                   :: Byte.x00 :: b))
       | Err e => Err e
       end |}.

(** The last element of a path, [None] for a path that ends with [/] or
    is empty. *)
Fixpoint last_segment (acc : string) (s : string) : string :=
  match s with
  | EmptyString => acc
  | String a rest =>
      if Ascii.eqb a (Ascii.ascii_of_byte Byte.x2f) then last_segment EmptyString rest
      else last_segment (acc +:+ String a EmptyString) rest
  end.

Definition noPreviousCheck : cid.Cid :=
  bytes_string [Byte.x01; Byte.x71; Byte.x00; Byte.x00].

#[export] Instance collaborators : Collaborators :=
  {| EmptyCheckpoint := NewRawCheckpoint EmptyString 0 noPreviousCheck None;
     NoPreviousCheck := noPreviousCheck;
     NewSubnetID := fun parent addr => parent +:+ "/" +:+ addr;
     Actor := fun id =>
       match last_segment EmptyString id with
       | EmptyString => Err "no actor in subnet id"
       | a => Ok a
       end;
     UnmarshalBinary := UnmarshalCBOR;
     CrossMsgs := fun _ => [];
     AddChild := fun ch commit =>
       match Cid commit with
       | Ok k => Ok (AddChildChecks ch [{| cc_Source := Source (Data commit);
                                          cc_Check := k |}])
       | Err e => Err e
       end;
     storeDownTopMsgMeta := fun _ st mm =>
       Done {| NetworkName := NetworkName st;
               TotalSubnets := TotalSubnets st;
               MinStake := MinStake st;
               Subnets := Subnets st;
               CheckPeriod := CheckPeriod st;
               Checkpoints := Checkpoints st;
               CheckMsgsRegistry := CheckMsgsRegistry st;
               Nonce := Nonce st;
               BottomUpNonce := u64_succ (BottomUpNonce st);
               BottomUpMsgsMeta := <[BottomUpNonce st := mm]> (BottomUpMsgsMeta st);
               AppliedBottomUpNonce := AppliedBottomUpNonce st;
               AppliedTopDownNonce := AppliedTopDownNonce st |};
     aggChildMsgMeta := fun _ st ch aux => Done (st, ch) |}.

(** The state of the SCA of [/root] with period 10. *)
Definition st0 : SCAState :=
  match ConstructSCAState {| cp_NetworkName := "/root"; cp_CheckpointPeriod := 10 |} with
  | Ok st => st
  | Err _ =>
      {| NetworkName := EmptyString; TotalSubnets := 0; MinStake := 0; Subnets := ∅;
         CheckPeriod := 0; Checkpoints := ∅; CheckMsgsRegistry := ∅; Nonce := 0;
         BottomUpNonce := 0; BottomUpMsgsMeta := ∅; AppliedBottomUpNonce := 0;
         AppliedTopDownNonce := 0 |}
  end.

(** A call at epoch 25 with 2 FIL attached, to a coordinator that holds
    [balance]; transfers succeed. *)
Definition call (caller : Address) (code : ActorCode) (value balance : TokenAmount)
  : Runtime :=
  {| Caller := caller;
     CallerCode := code;
     ValueReceived := value;
     CurrentBalance := balance;
     CurrEpoch := 25;
     SendResult := fun _ _ => ExitOk |}.

(** A registry entry of [/root/t0100]. *)
Definition entry (stake supply : TokenAmount) (status : Status) (prev : Checkpoint)
  : Subnet :=
  {| ID := "/root/t0100";
     ParentID := "/root";
     Stake := stake;
     TopDownMsgs := ∅;
     Nonce_ := 0;
     CircSupply := supply;
     Status_ := status;
     PrevCheckpoint_ := prev |}.

Definition with_entry (sh : Subnet) : SCAState := flushSubnet st0 sh.

(** Two checkpoints of [/root/t0100]: the first at epoch 10, the second
    at epoch 20 and chained to the first. *)
Definition check1 : Checkpoint :=
  NewRawCheckpoint "/root/t0100" 10 noPreviousCheck None.

Definition cid_of (c : Checkpoint) : cid.Cid :=
  match Cid c with Ok k => k | Err _ => cid.Undef end.

Definition check2 : Checkpoint :=
  NewRawCheckpoint "/root/t0100" 20 (cid_of check1) None.

(** A checkpoint at epoch 20 whose previous checkpoint is not [check1]. *)
Definition check2_unchained : Checkpoint :=
  NewRawCheckpoint "/root/t0100" 20 noPreviousCheck None.

(** A checkpoint at epoch 5, chained to [check1]. *)
Definition check_past : Checkpoint :=
  NewRawCheckpoint "/root/t0100" 5 (cid_of check1) None.

Definition params_of (c : Checkpoint) : CheckpointParams :=
  {| chp_Checkpoint := match MarshalCBOR c with Ok b => b | Err _ => [] end |}.

(** A checkpoint at the epoch of [check1], chained to it. *)
Definition check_same_epoch : Checkpoint :=
  NewRawCheckpoint "/root/t0100" 10 (cid_of check1) None.

(** The subnet actor [t0100] registers with 2 FIL, then commits. *)
Definition registered : SCAState :=
  snd (invoke (Register (call "t0100" SubnetActorCodeID (2 * 10 ^ 18) 0)) st0).

Definition commit (c : Checkpoint) (st : SCAState) : ExitCode * SCAState :=
  invoke (CommitChildCheckpoint (call "t0100" SubnetActorCodeID 0 (2 * 10 ^ 18))
                                (params_of c)) st.

(** The parts of the generated decoders for a toy wire format of block
    messages: heads are read as in CBOR, the header is one byte and the
    lists are nil. *)
#[export] Instance parts : CborGen.Parts Z :=
  {| CborGen.CborReadHeaderBuf := fun b =>
       match decode_head b with
       | Some r => Ok r
       | None => Err "unexpected EOF"%string
       end;
     CborGen.BlockMsg_fields := fun _ rest =>
       match rest with
       | h :: _ =>
           ({| Types.Header := Some (Z_of_byte h);
               Types.BlsMessages := None;
               Types.SecpkMessages := None;
               Types.CrossMessages := None |}, None)
       | [] => (Types.zeroBlockMsg, Some "unexpected EOF"%string)
       end;
     CborGen.OldBlockMsg_fields := fun _ rest =>
       match rest with
       | h :: _ =>
           ({| Types.old_Header := Some (Z_of_byte h);
               Types.old_BlsMessages := None;
               Types.old_SecpkMessages := None |}, None)
       | [] => (Types.zeroOldBlockMsg, Some "unexpected EOF"%string)
       end |}.

#[export] Instance unmarshalers : Types.Unmarshalers Z := CborGen.generated.

(** The signing window of an epoch is the window before the current one;
    [addStake] adds the amount to the stake of the entry and stores it
    back; [releaseMsg] counts one more message. *)
#[export] Instance windows : Windows :=
  {| CheckpointEpoch := fun epoch period => (Z.quot epoch period - 1) * period |}.

Definition set_Stake (sh : Subnet) (v : TokenAmount) : Subnet :=
  {| ID := ID sh;
     ParentID := SCA.ParentID sh;
     Stake := v;
     TopDownMsgs := TopDownMsgs sh;
     Nonce_ := Nonce_ sh;
     CircSupply := CircSupply sh;
     Status_ := Status_ sh;
     PrevCheckpoint_ := PrevCheckpoint_ sh |}.

#[export] Instance stakeCollaborators : SCAStake.StakeCollaborators :=
  {| SCAStake.addStake := fun _ st sh value =>
       Done (flushSubnet st (set_Stake sh (Stake sh + value)));
     SCAStake.releaseMsg := fun _ st value =>
       Done {| NetworkName := NetworkName st;
               TotalSubnets := TotalSubnets st;
               MinStake := MinStake st;
               Subnets := Subnets st;
               CheckPeriod := CheckPeriod st;
               Checkpoints := Checkpoints st;
               CheckMsgsRegistry := CheckMsgsRegistry st;
               Nonce := u64_succ (Nonce st);
               BottomUpNonce := BottomUpNonce st;
               BottomUpMsgsMeta := BottomUpMsgsMeta st;
               AppliedBottomUpNonce := AppliedBottomUpNonce st;
               AppliedTopDownNonce := AppliedTopDownNonce st |};
     SCAStake.BurntFundsActorAddr := "t099";
     SCAStake.SystemActorAddr := "t00" |}.

(** A call like [call], refused every transfer by the host. *)
Definition call_refused (caller : Address) (code : ActorCode) (value balance : TokenAmount)
  : Runtime :=
  {| Caller := caller;
     CallerCode := code;
     ValueReceived := value;
     CurrentBalance := balance;
     CurrEpoch := 25;
     SendResult := fun _ _ => ErrIllegalState |}.

(** Metas of a child checkpoint: two for [/root], one for [/root/b] and
    one for [/root/c] in between. *)
Definition meta (to : string) (nonce : Z) : CrossMsgMeta :=
  {| From := "/root/t0100"; To := to; MsgsCid := noPreviousCheck;
     mm_Nonce := nonce; mm_Value := 1 |}.

Definition metas : list CrossMsgMeta :=
  [meta "/root" 0; meta "/root/b" 1; meta "/root/c" 2; meta "/root" 3; meta "/root/b" 4].

(** A subnet actor state with the miners [t0100] and [t0101]. *)
Definition two_miners : Subnet.SubnetState :=
  {| Subnet.Name := "a";
     Subnet.ParentID := "/root";
     Subnet.Consensus := Subnet.PoW;
     Subnet.MinMinerStake := 10 ^ 18;
     Subnet.Miners := ["t0100"%string; "t0101"%string];
     Subnet.TotalStake := 0;
     Subnet.Stake := ∅;
     Subnet.Status_ := Subnet.Active;
     Subnet.Genesis := [];
     Subnet.CheckPeriod := 10;
     Subnet.Checkpoints := ∅;
     Subnet.WindowChecks := ∅ |}.

End Demo.

(** * Properties *)

(** ** Checkpoint identity *)

Section SchemaProps.
Import Schema.
Context `{LinkSystem}.

Lemma Cidof_Data (c1 c2 : Checkpoint) : Data c1 = Data c2 -> Cid c1 = Cid c2.
Proof. intros HD. unfold Cid. now rewrite HD. Qed.

Lemma Equals_true_iff (c1 c2 : Checkpoint) :
  Equals c1 c2 = Ok true <-> exists k, Cid c1 = Ok k /\ Cid c2 = Ok k.
Proof.
  unfold Equals. split.
  - destruct (Cid c1) as [k1|e1]; [|discriminate].
    destruct (Cid c2) as [k2|e2]; [|discriminate].
    intros [= Hb]. apply bool_decide_eq_true in Hb. subst. eauto.
  - intros (k & -> & ->). now rewrite bool_decide_eq_true_2.
Qed.

(** C2.  The CID of a checkpoint is a function of its [Data] alone: two
    checkpoints with equal [Data] have the same [Cid] result whatever
    their signatures, replacing the signature leaves the result unchanged,
    and [Equals] answers true exactly when both CIDs are computed and are
    the same CID (it answers with the comparison of the two CIDs whenever
    both are computed). *)
Theorem cid_ignores_signature :
  (forall c1 c2 : Checkpoint, Data c1 = Data c2 -> Cid c1 = Cid c2) /\
  (forall (c : Checkpoint) (sig : bytes), Cid (set_Signature c sig) = Cid c) /\
  (forall c1 c2 : Checkpoint,
      Equals c1 c2 = Ok true <-> exists k, Cid c1 = Ok k /\ Cid c2 = Ok k) /\
  (forall (c1 c2 : Checkpoint) (k1 k2 : cid.Cid),
      Cid c1 = Ok k1 -> Cid c2 = Ok k2 ->
      Equals c1 c2 = Ok (bool_decide (k1 = k2))).
Proof.
  split; [|split; [|split]].
  - apply Cidof_Data.
  - intros c sig. now apply Cidof_Data.
  - apply Equals_true_iff.
  - intros c1 c2 k1 k2 H1 H2. unfold Equals. now rewrite H1, H2.
Qed.

End SchemaProps.

(** ** Adding child checks *)

Section AddChildProps.
Import Schema.

(** [hasChild] returns -1 when no entry has the source, and otherwise the
    index of the first entry that has it. *)
Lemma hasChild_from_spec (l : list ChildCheck) (ch : ChildCheck) (i : Z) :
  0 <= i ->
  (hasChild_from i l ch = -1 /\ Forall (other_source ch) l) \/
  (exists (n : nat) (old : ChildCheck),
      hasChild_from i l ch = i + Z.of_nat n /\
      l !! n = Some old /\ cc_Source old = cc_Source ch /\
      Forall (other_source ch) (take n l)).
Proof.
  revert i. induction l as [|x l IH]; intros i Hi; simpl.
  - left. split; [reflexivity | constructor].
  - destruct (String.eqb_spec (cc_Source x) (cc_Source ch)) as [He|He].
    + right. exists 0%nat, x. simpl. repeat split; auto. lia.
    + destruct (IH (i + 1)) as [(H1 & H2)|(n & old & H1 & H2 & H3 & H4)]; [lia| |].
      * left. split; auto.
      * right. exists (S n), old. simpl. repeat split; auto. lia.
Qed.

Lemma Childs_set_Childs (c : Checkpoint) (l : list ChildCheck) :
  Childs (Data (set_Childs c l)) = l.
Proof. reflexivity. Qed.

Lemma addChildCheck_absent (c : Checkpoint) (ch : ChildCheck) :
  hasChild c ch = -1 ->
  Childs (Data (addChildCheck c ch)) = Childs (Data c) ++ [ch].
Proof. intros Hn. unfold addChildCheck. rewrite Hn. reflexivity. Qed.

Lemma addChildCheck_present (c : Checkpoint) (ch : ChildCheck) (n : nat) :
  hasChild c ch = Z.of_nat n ->
  Childs (Data (addChildCheck c ch)) = <[n := ch]> (Childs (Data c)) ++ [ch].
Proof.
  intros Hn. unfold addChildCheck. rewrite Hn.
  replace (0 <=? Z.of_nat n) with true by (symmetry; apply Z.leb_le; lia).
  rewrite Nat2Z.id. reflexivity.
Qed.

Lemma addChildCheck_length (c : Checkpoint) (ch : ChildCheck) :
  length (Childs (Data (addChildCheck c ch))) = S (length (Childs (Data c))).
Proof.
  unfold addChildCheck. destruct (0 <=? hasChild c ch); simpl;
    rewrite length_app; simpl; rewrite ?length_insert; lia.
Qed.

Lemma AddChildChecks_length (childs : list ChildCheck) (c : Checkpoint) :
  length (Childs (Data (AddChildChecks c childs)))
  = (length (Childs (Data c)) + length childs)%nat.
Proof.
  unfold AddChildChecks. revert c. induction childs as [|ch childs IH]; intros c; simpl.
  - lia.
  - rewrite IH, addChildCheck_length. lia.
Qed.

Lemma hasChild_cases (c : Checkpoint) (ch : ChildCheck) :
  (hasChild c ch = -1 /\ Forall (other_source ch) (Childs (Data c))) \/
  (exists (n : nat) (old : ChildCheck),
      hasChild c ch = Z.of_nat n /\
      Childs (Data c) !! n = Some old /\ cc_Source old = cc_Source ch /\
      Forall (other_source ch) (take n (Childs (Data c)))).
Proof.
  unfold hasChild.
  destruct (hasChild_from_spec (Childs (Data c)) ch 0) as [H|(n & old & H)]; [lia| |].
  - now left.
  - right. exists n, old. now rewrite Z.add_0_l in H.
Qed.

Lemma hasChild_none (c : Checkpoint) (ch : ChildCheck) :
  Forall (other_source ch) (Childs (Data c)) -> hasChild c ch = -1.
Proof.
  intros Hall.
  destruct (hasChild_cases c ch) as [(Hn & _)|(n & old & _ & Hl & Hs & _)]; [exact Hn|].
  exfalso. rewrite Forall_forall in Hall. apply (Hall old); [|exact Hs].
  now apply list_elem_of_lookup_2 in Hl.
Qed.

Lemma hasChild_first (c : Checkpoint) (ch : ChildCheck) (n : nat) (old : ChildCheck) :
  Childs (Data c) !! n = Some old -> cc_Source old = cc_Source ch ->
  Forall (other_source ch) (take n (Childs (Data c))) ->
  hasChild c ch = Z.of_nat n.
Proof.
  intros Hl Hs Hall.
  destruct (hasChild_cases c ch) as [(_ & Hall')|(m & old' & Hm & Hl' & Hs' & Hall')].
  - exfalso. rewrite Forall_forall in Hall'. apply (Hall' old); [|exact Hs].
    now apply list_elem_of_lookup_2 in Hl.
  - rewrite Hm. f_equal.
    destruct (Nat.lt_total m n) as [Hlt|[Heq|Hgt]]; [|exact Heq|]; exfalso.
    + rewrite Forall_forall in Hall. apply (Hall old'); [|exact Hs'].
      apply list_elem_of_lookup_2 with m. rewrite lookup_take_lt by lia. exact Hl'.
    + rewrite Forall_forall in Hall'. apply (Hall' old); [|exact Hs].
      apply list_elem_of_lookup_2 with n. rewrite lookup_take_lt by lia. exact Hl.
Qed.

End AddChildProps.

Section AddChildTheorems.
Import Schema.

(** C4 (as amended).  For each child check added: when no entry of
    [Data.Childs] has its [Source], a new entry holding the check is
    appended after the old entries; when an entry has its [Source], the
    first such entry takes the new check in place of the one it held,
    since a [ChildCheck] holds a single [Check] and no list of checks,
    and the other old entries are as they were.  Adding a list of
    children is adding them one after the other. *)
Theorem AddChildChecks_single_check (c : Checkpoint) (ch : ChildCheck) :
  (Forall (other_source ch) (Childs (Data c)) ->
     Childs (Data (AddChildChecks c [ch])) = Childs (Data c) ++ [ch]) /\
  (forall (n : nat) (old : ChildCheck),
      Childs (Data c) !! n = Some old -> cc_Source old = cc_Source ch ->
      Forall (other_source ch) (take n (Childs (Data c))) ->
      Childs (Data (AddChildChecks c [ch])) !! n = Some ch /\
      forall i : nat,
        (i < length (Childs (Data c)))%nat -> i <> n ->
        Childs (Data (AddChildChecks c [ch])) !! i = Childs (Data c) !! i) /\
  (forall childs : list ChildCheck,
      AddChildChecks c (childs ++ [ch]) = AddChildChecks (AddChildChecks c childs) [ch]).
Proof.
  change (AddChildChecks c [ch]) with (addChildCheck c ch).
  split; [|split].
  - intros Hall. apply addChildCheck_absent. now apply hasChild_none.
  - intros n old Hl Hs Hall.
    rewrite (addChildCheck_present c ch n (hasChild_first c ch n old Hl Hs Hall)).
    pose proof (lookup_lt_Some _ _ _ Hl) as Hlt. split.
    + rewrite lookup_app_l by (rewrite length_insert; exact Hlt).
      now apply list_lookup_insert_eq.
    + intros i Hi Hne.
      rewrite lookup_app_l by (rewrite length_insert; exact Hi).
      apply list_lookup_insert_ne. congruence.
  - intros childs. unfold AddChildChecks. apply fold_left_app.
Qed.

(** C4, the claim as stated fails: the window checkpoint already records
    [cid1] for [/root/a]; adding [cid2] for the same source does not
    extend the checks kept for that source to [cid1; cid2]: [cid1] is
    overwritten and [cid2] is recorded in two entries. *)
Lemma AddChildChecks_does_not_extend_entry :
  0 <= hasChild Examples.window_with_a1 Examples.child_a2 /\
  Childs (Data (AddChildChecks Examples.window_with_a1 [Examples.child_a2]))
  = [Examples.child_a2; Examples.child_a2] /\
  checks_of "/root/a"
    (Childs (Data (AddChildChecks Examples.window_with_a1 [Examples.child_a2])))
  <> checks_of "/root/a" (Childs (Data Examples.window_with_a1)) ++ ["cid2"%string].
Proof.
  split; [|split].
  - vm_compute. discriminate.
  - reflexivity.
  - vm_compute. discriminate.
Qed.

End AddChildTheorems.

(** ** The majority test of the subnet actor *)

Section MajorityProps.
Import Subnet.

(** The threshold is the binary32 rounding of the decimal constant 0.66. *)
Lemma SignatureThreshold_is_066 :
  SignatureThreshold = float32_div (float32_of_int 66) (float32_of_int 100).
Proof. reflexivity. Qed.

Lemma majorityVote_majority (st : SubnetState) (wch : CheckVotes) :
  majorityVote st wch = majority (len (cv_Miners wch)) (len (Miners st)).
Proof. reflexivity. Qed.

Lemma digits2_pos_size (p : positive) : digits2_pos p = Pos.size p.
Proof. induction p; simpl; congruence. Qed.

Lemma Zdigits2_bounds (z d : Z) :
  2 ^ (d - 1) <= z < 2 ^ d -> 0 < d -> Zdigits2 z = d.
Proof.
  intros [Hlo Hhi] Hd.
  assert (0 < z) by (pose proof (Z.pow_pos_nonneg 2 (d - 1)); lia).
  destruct z as [|p|p]; try lia. simpl. rewrite digits2_pos_size.
  set (s := Z.pos (Pos.size p)).
  assert (Hgt : Z.pos p < 2 ^ s).
  { unfold s. change 2 with (Z.pos 2). rewrite <- Pos2Z.inj_pow.
    apply Pos2Z.pos_lt_pos, Pos.size_gt. }
  assert (Hle : 2 ^ s <= 2 * Z.pos p).
  { unfold s. change 2 with (Z.pos 2) at 1. rewrite <- Pos2Z.inj_pow.
    change (2 * Z.pos p) with (Z.pos p~0). apply Pos2Z.pos_le_pos, Pos.size_le. }
  assert (Hs : 0 < s) by (unfold s; lia).
  assert (H1 : 2 ^ (d - 1) < 2 ^ s) by lia.
  apply Z.pow_lt_mono_r_iff in H1; [|lia|lia].
  assert (H2 : 2 ^ (s - 1) < 2 ^ d).
  { assert (Hp : 2 ^ s = 2 * 2 ^ (s - 1)).
    { rewrite <- Z.pow_succ_r by lia. f_equal. lia. }
    lia. }
  apply Z.pow_lt_mono_r_iff in H2; [|lia|lia]. lia.
Qed.

Lemma fexp32 (x : Z) : -125 <= x -> fexp prec32 emax32 x = x - 24.
Proof. intros Hx. unfold fexp, emin, prec32, emax32. lia. Qed.

Lemma shr_fexp_24 (q e : Z) (l : location) :
  Zdigits2 q = 24 -> -149 <= e ->
  shr_fexp prec32 emax32 q e l = (shr_record_of_loc q l, e).
Proof.
  intros Hd He. unfold shr_fexp. rewrite Hd, fexp32 by lia.
  replace (24 + e - 24 - e) with 0 by lia. reflexivity.
Qed.

Lemma shr_fexp_25 (q e : Z) (l : location) :
  Zdigits2 q = 25 -> -150 <= e ->
  shr_fexp prec32 emax32 q e l = (shr_1 (shr_record_of_loc q l), e + 1).
Proof.
  intros Hd He. unfold shr_fexp. rewrite Hd, fexp32 by lia.
  replace (25 + e - 24 - e) with 1 by lia. reflexivity.
Qed.

Lemma loc_of_shr_record_of_loc (m : Z) (l : location) :
  loc_of_shr_record (shr_record_of_loc m l) = l.
Proof. destruct l as [|[]]; reflexivity. Qed.

Lemma shr_m_of_loc (m : Z) (l : location) : shr_m (shr_record_of_loc m l) = m.
Proof. destruct l as [|[]]; reflexivity. Qed.

Lemma round_nearest_even_cases (m : Z) (l : location) :
  round_nearest_even m l = m \/ round_nearest_even m l = m + 1.
Proof.
  destruct l as [|[]]; simpl; auto. destruct (Z.even m); auto.
Qed.

(** The last step of [binary_round_aux] on a mantissa that rounding has
    left with 24 bits, or carried to 2^24. *)
Lemma round_finish (r e : Z) :
  2 ^ 23 <= r <= 2 ^ 24 -> -149 <= e <= 100 ->
  (let '(mrs, e') := shr_fexp prec32 emax32 r e loc_Exact in
   match shr_m mrs with
   | Z0 => S754_zero false
   | Zpos m => if e' <=? emax32 - prec32 then S754_finite false m e'
               else S754_infinity false
   | Zneg _ => S754_nan
   end)
  = if r <? 2 ^ 24 then S754_finite false (Z.to_pos r) e
    else S754_finite false (2 ^ 23) (e + 1).
Proof.
  intros Hr He. destruct (Z.ltb_spec r (2 ^ 24)) as [Hlt|Hge].
  - rewrite shr_fexp_24 by (try apply Zdigits2_bounds; lia).
    simpl shr_m. destruct r as [|p|p]; try lia.
    replace (e <=? emax32 - prec32) with true
      by (symmetry; apply Z.leb_le; unfold emax32, prec32; lia).
    reflexivity.
  - assert (r = 2 ^ 24) as -> by lia.
    rewrite shr_fexp_25 by (try apply Zdigits2_bounds; lia).
    simpl shr_m.
    replace (e + 1 <=? emax32 - prec32) with true
      by (symmetry; apply Z.leb_le; unfold emax32, prec32; lia).
    reflexivity.
Qed.

Lemma round_aux_24 (q e : Z) (l : location) :
  2 ^ 23 <= q < 2 ^ 24 -> -149 <= e <= 100 ->
  binary_round_aux prec32 emax32 false q e l
  = if round_nearest_even q l <? 2 ^ 24
    then S754_finite false (Z.to_pos (round_nearest_even q l)) e
    else S754_finite false (2 ^ 23) (e + 1).
Proof.
  intros Hq He. unfold binary_round_aux.
  rewrite shr_fexp_24 by (try apply Zdigits2_bounds; lia).
  rewrite shr_m_of_loc, loc_of_shr_record_of_loc.
  apply round_finish; [|lia].
  destruct (round_nearest_even_cases q l) as [-> | ->]; lia.
Qed.

Lemma shr_1_pos (q : Z) (r s : bool) :
  0 < q ->
  shr_1 {| shr_m := q; shr_r := r; shr_s := s |}
  = {| shr_m := q / 2; shr_r := Z.odd q; shr_s := r || s |}.
Proof.
  intros Hq. destruct q as [|p|p]; try lia.
  destruct p as [p|p|]; simpl shr_1.
  - replace (Z.pos p~1 / 2) with (Z.pos p); [reflexivity|].
    rewrite Pos2Z.inj_xI. apply Z.div_unique with (r := 1); lia.
  - replace (Z.pos p~0 / 2) with (Z.pos p); [reflexivity|].
    rewrite Pos2Z.inj_xO. apply Z.div_unique with (r := 0); lia.
  - reflexivity.
Qed.

Lemma round_aux_25 (q e : Z) (l : location) :
  2 ^ 24 <= q < 2 ^ 25 -> -150 <= e <= 99 ->
  binary_round_aux prec32 emax32 false q e l
  = if round_nearest_even (q / 2) (loc_shift q l) <? 2 ^ 24
    then S754_finite false (Z.to_pos (round_nearest_even (q / 2) (loc_shift q l))) (e + 1)
    else S754_finite false (2 ^ 23) (e + 2).
Proof.
  intros Hq He. unfold binary_round_aux.
  rewrite shr_fexp_25 by (try apply Zdigits2_bounds; lia).
  assert (Hrec : shr_1 (shr_record_of_loc q l)
                 = {| shr_m := q / 2; shr_r := Z.odd q;
                      shr_s := match l with loc_Exact => false | _ => true end |}).
  { destruct l as [|[]]; simpl shr_record_of_loc; rewrite shr_1_pos by lia; reflexivity. }
  rewrite Hrec. simpl shr_m. fold (loc_shift q l).
  assert (Hh : 2 ^ 23 <= q / 2 < 2 ^ 24).
  { split; [apply Z.div_le_lower_bound; lia | apply Z.div_lt_upper_bound; lia]. }
  replace (e + 2) with (e + 1 + 1) by lia.
  apply round_finish; [|lia].
  destruct (round_nearest_even_cases (q / 2) (loc_shift q l)) as [-> | ->]; lia.
Qed.

Lemma Zdigits2_spec (p : positive) :
  2 ^ (Z.pos (digits2_pos p) - 1) <= Z.pos p < 2 ^ Z.pos (digits2_pos p).
Proof.
  rewrite digits2_pos_size. set (s := Z.pos (Pos.size p)).
  assert (Hgt : Z.pos p < 2 ^ s).
  { unfold s. change 2 with (Z.pos 2). rewrite <- Pos2Z.inj_pow.
    apply Pos2Z.pos_lt_pos, Pos.size_gt. }
  assert (Hle : 2 ^ s <= 2 * Z.pos p).
  { unfold s. change 2 with (Z.pos 2) at 1. rewrite <- Pos2Z.inj_pow.
    change (2 * Z.pos p) with (Z.pos p~0). apply Pos2Z.pos_le_pos, Pos.size_le. }
  assert (Hp : 2 ^ s = 2 * 2 ^ (s - 1)).
  { rewrite <- Z.pow_succ_r by (unfold s; lia). f_equal. lia. }
  lia.
Qed.

Lemma iter_xO (d p : positive) : Z.pos (Pos.iter xO p d) = Z.pos p * 2 ^ Z.pos d.
Proof.
  induction d as [|d IH] using Pos.peano_ind.
  - simpl. lia.
  - rewrite Pos.iter_succ, Pos2Z.inj_xO, IH, Pos2Z.inj_succ, Z.pow_succ_r by lia. lia.
Qed.

Lemma shl_align_spec (mx : positive) (ex ex' : Z) :
  ex' <= ex ->
  snd (shl_align mx ex ex') = ex' /\
  Z.pos (fst (shl_align mx ex ex')) = Z.pos mx * 2 ^ (ex - ex').
Proof.
  intros Hle. unfold shl_align. destruct (ex' - ex) as [|d|d] eqn:Hd; simpl.
  - assert (ex' = ex) as -> by lia. rewrite Z.sub_diag. simpl. lia.
  - lia.
  - split; [reflexivity|]. rewrite iter_xO. do 2 f_equal. lia.
Qed.

(** [float32(v)] for [0 < v < 2^24] is exact: the mantissa is [v] shifted
    to 24 bits. *)
Lemma float32_of_int_pos (v : Z) :
  0 < v < 2 ^ 24 ->
  exists k : Z,
    0 <= k <= 23 /\ 2 ^ 23 <= v * 2 ^ k < 2 ^ 24 /\
    float32_of_int v = S754_finite false (Z.to_pos (v * 2 ^ k)) (- k).
Proof.
  intros Hv. destruct v as [|p|p]; try lia.
  pose proof (Zdigits2_spec p) as Hd.
  set (d := Z.pos (digits2_pos p)) in *.
  assert (Hd0 : 0 < d) by (unfold d; lia).
  assert (Hd24 : d <= 24).
  { assert (H1 : 2 ^ (d - 1) < 2 ^ 24) by lia.
    apply Z.pow_lt_mono_r_iff in H1; lia. }
  exists (24 - d).
  assert (Hpow : 2 ^ 23 <= Z.pos p * 2 ^ (24 - d) < 2 ^ 24).
  { assert (H24 : 2 ^ 24 = 2 ^ d * 2 ^ (24 - d)).
    { rewrite <- Z.pow_add_r by lia. f_equal. lia. }
    assert (H23 : 2 ^ 23 = 2 ^ (d - 1) * 2 ^ (24 - d)).
    { rewrite <- Z.pow_add_r by lia. f_equal. lia. }
    assert (Hk : 0 < 2 ^ (24 - d)) by (apply Z.pow_pos_nonneg; lia).
    rewrite H24, H23. split.
    - apply Z.mul_le_mono_nonneg_r; lia.
    - apply Z.mul_lt_mono_pos_r; lia. }
  split; [lia|]. split; [exact Hpow|].
  unfold float32_of_int, binary_normalize, binary_round.
  fold d. rewrite fexp32 by lia.
  destruct (shl_align_spec p 0 (d + 0 - 24)) as [He Hm]; [lia|].
  destruct (shl_align p 0 (d + 0 - 24)) as [mz ez]. simpl in He, Hm. subst ez.
  replace (0 - (d + 0 - 24)) with (24 - d) in Hm by lia.
  rewrite round_aux_24 by (rewrite ?Hm; lia).
  simpl round_nearest_even. rewrite Hm.
  replace (Z.pos p * 2 ^ (24 - d) <? 2 ^ 24) with true by (symmetry; apply Z.ltb_lt; lia).
  f_equal. lia.
Qed.

Lemma new_location_spec (m r : Z) :
  0 < m -> 0 <= r ->
  new_location m r = if r =? 0 then loc_Exact else loc_Inexact (2 * r ?= m).
Proof.
  intros Hm Hr. unfold new_location, new_location_even, new_location_odd.
  destruct (Z.even m) eqn:Hev; [reflexivity|].
  destruct (r =? 0); [reflexivity|]. f_equal.
  assert (Hodd : Z.odd m = true) by (rewrite <- Z.negb_even, Hev; reflexivity).
  apply Z.odd_spec in Hodd. destruct Hodd as [j Hj].
  destruct (Z.compare_spec (2 * r + 1) m); destruct (Z.compare_spec (2 * r) m);
    try reflexivity; lia.
Qed.

(** The quotient of two binary32 numbers with full mantissas, before
    rounding. *)
Lemma float32_div_finite (m1 m2 : positive) (e1 e2 : Z) :
  2 ^ 23 <= Z.pos m1 < 2 ^ 24 -> 2 ^ 23 <= Z.pos m2 < 2 ^ 24 ->
  -23 <= e1 <= 0 -> -23 <= e2 <= 0 ->
  float32_div (S754_finite false m1 e1) (S754_finite false m2 e2)
  = binary_round_aux prec32 emax32 false
      (Z.pos m1 * 2 ^ 24 / Z.pos m2) (e1 - e2 - 24)
      (new_location (Z.pos m2) ((Z.pos m1 * 2 ^ 24) mod Z.pos m2)).
Proof.
  intros H1 H2 He1 He2. unfold float32_div, SFdiv, SFdiv_core_binary.
  rewrite (Zdigits2_bounds (Z.pos m1) 24), (Zdigits2_bounds (Z.pos m2) 24) by lia.
  rewrite fexp32 by lia.
  replace (Z.min (24 + e1 - (24 + e2) - 24) (e1 - e2)) with (e1 - e2 - 24) by lia.
  replace (e1 - e2 - (e1 - e2 - 24)) with 24 by lia.
  rewrite Z.shiftl_mul_pow2 by lia.
  unfold Z.div, Z.modulo.
  destruct (Z.div_eucl (Z.pos m1 * 2 ^ 24) (Z.pos m2)) as [q r]. reflexivity.
Qed.

Lemma ge_threshold (mr : positive) (er : Z) :
  float32_ge (S754_finite false mr er) SignatureThreshold = true
  <-> -24 < er \/ (er = -24 /\ 11072963 <= Z.pos mr).
Proof.
  unfold float32_ge, SFleb, SignatureThreshold, SFcompare.
  destruct (Z.compare_spec (-24) er) as [He|He|He].
  - change (Pos.compare_cont Eq 11072963 mr) with (11072963 ?= Z.pos mr).
    destruct (Z.compare_spec 11072963 (Z.pos mr)) as [Hm|Hm|Hm]; split; intros H;
      try discriminate; try reflexivity; try lia.
  - split; intros H; [lia | reflexivity].
  - split; intros H; [discriminate | lia].
Qed.

Lemma round_even_ge (q c : Z) (l : location) :
  Z.even (c - 1) = true ->
  (c <= round_nearest_even q l
   <-> c <= q \/ (q = c - 1 /\ l = loc_Inexact Gt)).
Proof.
  intros Hc. destruct l as [|[]]; simpl.
  - split; [lia | intros [H|[_ H]]; [lia | discriminate]].
  - destruct (Z.even q) eqn:Hq.
    + split; [lia | intros [H|[_ H]]; [lia | discriminate]].
    + split; [|intros [H|[_ H]]; [lia | discriminate]].
      intros H. left. destruct (Z.eq_dec q (c - 1)) as [->|Hne]; [congruence | lia].
  - split; [lia | intros [H|[_ H]]; [lia | discriminate]].
  - split; [intros H; destruct (Z.eq_dec q (c - 1)); [right; auto | left; lia]
           | intros [H|[H _]]; lia].
Qed.

Lemma loc_shift_Gt (q : Z) (l : location) :
  loc_shift q l = loc_Inexact Gt <-> Z.odd q = true /\ l <> loc_Exact.
Proof.
  unfold loc_shift. destruct (Z.odd q); destruct l as [|[]]; simpl; split;
    first [ discriminate
          | intros [Ho Hl]; first [discriminate Ho | exfalso; apply Hl; reflexivity]
          | intros _; split; [reflexivity | discriminate]
          | intros _; reflexivity ].
Qed.

Lemma div_ge_threshold (m1 m2 : positive) (e1 e2 : Z) :
  2 ^ 23 <= Z.pos m1 < 2 ^ 24 -> 2 ^ 23 <= Z.pos m2 < 2 ^ 24 ->
  -23 <= e1 <= 0 -> -23 <= e2 <= 0 ->
  float32_ge (float32_div (S754_finite false m1 e1) (S754_finite false m2 e2))
             SignatureThreshold = true
  <-> (1 <= e1 - e2 \/
       (e1 = e2 /\ 22145925 * Z.pos m2 < 2 ^ 25 * Z.pos m1) \/
       (e1 - e2 = -1 /\ 22145925 * Z.pos m2 < 2 ^ 24 * Z.pos m1)).
Proof.
  intros H1 H2 He1 He2. rewrite float32_div_finite by assumption.
  set (N := Z.pos m1 * 2 ^ 24). set (q := N / Z.pos m2). set (r := N mod Z.pos m2).
  assert (HN : N = Z.pos m2 * q + r) by (apply Z.div_mod; lia).
  assert (Hr : 0 <= r < Z.pos m2) by (apply Z.mod_pos_bound; lia).
  assert (Hq : 2 ^ 23 <= q < 2 ^ 25).
  { split.
    - apply Z.div_le_lower_bound; [lia|]. unfold N. nia.
    - apply Z.div_lt_upper_bound; [lia|]. unfold N. nia. }
  rewrite new_location_spec by lia.
  set (l := if r =? 0 then loc_Exact else loc_Inexact (2 * r ?= Z.pos m2)).
  assert (HlGt : l = loc_Inexact Gt <-> Z.pos m2 < 2 * r).
  { unfold l. destruct (Z.eqb_spec r 0) as [->|Hr0].
    - split; [discriminate | lia].
    - destruct (Z.compare_spec (2 * r) (Z.pos m2)) as [Hc|Hc|Hc]; split; intros Hx;
        try discriminate; try reflexivity; try lia. }
  assert (HlEx : l <> loc_Exact <-> r <> 0).
  { unfold l. destruct (Z.eqb_spec r 0) as [Hr0|Hr0]; split; intros Hx;
      try congruence; try discriminate. }
  clearbody l. unfold N in HN. clearbody q r. clear N.
  change (2 ^ 23) with 8388608 in *. change (2 ^ 24) with 16777216 in *.
  change (2 ^ 25) with 33554432 in *.
  destruct (Z.lt_ge_cases q 16777216) as [Hq24|Hq24].
  - rewrite round_aux_24 by (change (2 ^ 23) with 8388608; change (2 ^ 24) with 16777216; lia).
    change (2 ^ 23) with 8388608. change (2 ^ 24) with 16777216.
    pose proof (round_even_ge q 11072963 l eq_refl) as Hrnd.
    destruct (round_nearest_even_cases q l) as [Hc|Hc];
      destruct (Z.ltb_spec (round_nearest_even q l) 16777216) as [Hlt|Hge];
      rewrite ge_threshold; rewrite ?Z2Pos.id by lia;
      rewrite ?Hrnd, ?HlGt.
    all: nia.
  - rewrite round_aux_25 by (change (2 ^ 24) with 16777216; change (2 ^ 25) with 33554432; lia).
    change (2 ^ 23) with 8388608. change (2 ^ 24) with 16777216.
    pose proof (round_even_ge (q / 2) 11072963 (loc_shift q l) eq_refl) as Hrnd.
    rewrite loc_shift_Gt, HlEx in Hrnd.
    assert (Hodd : Z.odd q = true <-> q = 2 * (q / 2) + 1).
    { rewrite Z.odd_spec. split; [intros [j Hj] | intros Hx; exists (q / 2); exact Hx].
      pose proof (Z.div_mod q 2 ltac:(lia)). pose proof (Z.mod_pos_bound q 2 ltac:(lia)).
      lia. }
    rewrite Hodd in Hrnd.
    assert (Hh : 2 * (q / 2) <= q <= 2 * (q / 2) + 1).
    { pose proof (Z.div_mod q 2 ltac:(lia)). pose proof (Z.mod_pos_bound q 2 ltac:(lia)).
      lia. }
    set (h := q / 2) in *. clearbody h.
    destruct (round_nearest_even_cases h (loc_shift q l)) as [Hc|Hc];
      destruct (Z.ltb_spec (round_nearest_even h (loc_shift q l)) 16777216) as [Hlt|Hge];
      rewrite ge_threshold; rewrite ?Z2Pos.id by lia;
      rewrite ?Hrnd.
    all: nia.
Qed.

(** The majority test on two lengths below 2^24, in exact arithmetic:
    the quotient passes iff it lies above the midpoint between the
    threshold and the binary32 number just below it. *)
Lemma majority_exact (v m : Z) :
  0 <= v < 2 ^ 24 -> 0 <= m < 2 ^ 24 ->
  (majority v m = true <-> 22145925 * m < 2 ^ 25 * v).
Proof.
  intros Hv Hm. unfold majority.
  destruct (Z.eq_dec v 0) as [->|Hv0]; destruct (Z.eq_dec m 0) as [->|Hm0].
  - split; [discriminate | lia].
  - destruct (float32_of_int_pos m) as (k & _ & _ & ->); [lia|].
    split; [discriminate | lia].
  - destruct (float32_of_int_pos v) as (k & _ & _ & ->); [lia|].
    split; [lia | reflexivity].
  - destruct (float32_of_int_pos v) as (k1 & Hk1 & Hb1 & ->); [lia|].
    destruct (float32_of_int_pos m) as (k2 & Hk2 & Hb2 & ->); [lia|].
    rewrite div_ge_threshold by (rewrite ?Z2Pos.id; lia).
    rewrite !Z2Pos.id by lia.
    change (2 ^ 23) with 8388608 in *. change (2 ^ 24) with 16777216 in *.
    change (2 ^ 25) with 33554432.
    assert (HA : 0 < 2 ^ k1) by (apply Z.pow_pos_nonneg; lia).
    assert (HB : 0 < 2 ^ k2) by (apply Z.pow_pos_nonneg; lia).
    assert (Hcases : k1 + 1 <= k2 \/ k1 = k2 \/ k2 = k1 - 1 \/ k2 + 2 <= k1) by lia.
    destruct Hcases as [Hc|[Hc|[Hc|Hc]]].
    + assert (HAB : 2 * 2 ^ k1 <= 2 ^ k2).
      { rewrite <- Z.pow_succ_r by lia. apply Z.pow_le_mono_r; lia. }
      set (A := 2 ^ k1) in *. set (B := 2 ^ k2) in *. clearbody A B.
      split; [intros _; nia | intros _; left; lia].
    + subst k2. set (A := 2 ^ k1) in *. clearbody A.
      split; [intros [H|[[_ H]|[H _]]]; try lia; nia
             | intros H; right; left; split; [lia | nia]].
    + assert (HAB : 2 ^ k1 = 2 * 2 ^ k2).
      { rewrite <- Z.pow_succ_r by lia. f_equal. lia. }
      set (A := 2 ^ k1) in *. set (B := 2 ^ k2) in *. clearbody A B. subst A.
      split; [intros [H|[[H _]|[_ H]]]; try lia; nia
             | intros H; right; right; split; [lia | nia]].
    + assert (HAB : 4 * 2 ^ k2 <= 2 ^ k1).
      { change 4 with (2 ^ 2). rewrite <- Z.pow_add_r by lia.
        apply Z.pow_le_mono_r; lia. }
      set (A := 2 ^ k1) in *. set (B := 2 ^ k2) in *. clearbody A B.
      split; [intros [H|[[H _]|[H _]]]; lia | intros H; exfalso; nia].
Qed.

Lemma majority_066 (v m : Z) :
  0 <= v < 2 ^ 24 -> 0 < m <= 2796202 ->
  (majority v m = true <-> 66 * m <= 100 * v).
Proof.
  intros Hv Hm. rewrite majority_exact by lia. change (2 ^ 25) with 33554432. lia.
Qed.

(** C8 (as amended).  The majority test is
    [float32(voters) / float32(miners) >= float32(0.66)].  With fewer than
    2^24 miners and voters it holds exactly when voters / miners lies
    above 22145925 / 2^25, the midpoint between the threshold and the
    binary32 number just below it; for 1 to 2796202 miners that is exactly
    when [voters / miners >= 66 / 100].  The threshold is 0.66, not
    two-thirds.  With 3 miners the test holds from the second vote on. *)
Theorem majorityVote_threshold_066 (st : SubnetState) (wch : CheckVotes) :
  len (Miners st) < 2 ^ 24 -> len (cv_Miners wch) < 2 ^ 24 ->
  (majorityVote st wch = true
   <-> 22145925 * len (Miners st) < 2 ^ 25 * len (cv_Miners wch)) /\
  (0 < len (Miners st) <= 2796202 ->
     (majorityVote st wch = true <-> 66 * len (Miners st) <= 100 * len (cv_Miners wch))) /\
  (len (Miners st) = 3 ->
     (majorityVote st wch = true <-> 2 <= len (cv_Miners wch))).
Proof.
  intros Hm Hv. rewrite majorityVote_majority.
  assert (Hm0 : 0 <= len (Miners st)) by (unfold len; lia).
  assert (Hv0 : 0 <= len (cv_Miners wch)) by (unfold len; lia).
  split; [|split].
  - apply majority_exact; lia.
  - intros Hb. apply majority_066; lia.
  - intros H3. rewrite majority_066 by lia. lia.
Qed.

Lemma majorityVote_threshold_066_witness :
  len (Miners (Examples.subnet_with_miners 3)) < 2 ^ 24 /\
  len (cv_Miners (Examples.votes 2)) < 2 ^ 24 /\
  (majorityVote (Examples.subnet_with_miners 3) (Examples.votes 2) = true
   <-> 66 * 3 <= 100 * 2).
Proof.
  split; [reflexivity|]. split; [reflexivity|].
  apply (proj1 (proj2 (majorityVote_threshold_066
                         (Examples.subnet_with_miners 3) (Examples.votes 2)
                         eq_refl eq_refl))).
  unfold len. simpl. lia.
Defined.

(** C8, the claim as stated fails: with 50 miners, 33 votes pass the test
    although 33 is less than two-thirds of 50. *)
Lemma majorityVote_below_two_thirds :
  majorityVote (Examples.subnet_with_miners 50) (Examples.votes 33) = true /\
  ~ (2 * len (Miners (Examples.subnet_with_miners 50))
     <= 3 * len (cv_Miners (Examples.votes 33))).
Proof.
  split.
  - vm_compute. reflexivity.
  - vm_compute. intros H. apply H. reflexivity.
Qed.

End MajorityProps.

(** ** Construction of the SCA state *)

Section ConstructProps.
Import SCA.

Lemma MaxNonce_value : MaxNonce = 2 ^ 64 - 1.
Proof. reflexivity. Qed.

(** C10.  [ConstructSCAState] returns a state whose [AppliedBottomUpNonce]
    is [MaxNonce = 2^64 - 1], so that its successor modulo 2^64 is 0,
    while [TotalSubnets], [Nonce], [BottomUpNonce] and
    [AppliedTopDownNonce] start at 0. *)
Theorem ConstructSCAState_nonces (params : ConstructorParams) :
  exists st : SCAState,
    ConstructSCAState params = Ok st /\
    AppliedBottomUpNonce st = MaxNonce /\
    MaxNonce = 2 ^ 64 - 1 /\
    u64_succ (AppliedBottomUpNonce st) = 0 /\
    TotalSubnets st = 0 /\
    Nonce st = 0 /\
    BottomUpNonce st = 0 /\
    AppliedTopDownNonce st = 0.
Proof.
  eexists. split; [reflexivity|]. simpl. repeat split.
Qed.

End ConstructProps.

(** ** The SCA actor *)

Section ActorProps.
Import Schema SCA.
Context `{LinkSystem} `{Collaborators}.

Lemma validate_caller_ok (rt : Runtime) (code : ActorCode) :
  CallerCode rt = code -> ValidateImmediateCallerType rt code = Done tt.
Proof. intros Hc. unfold ValidateImmediateCallerType. now rewrite bool_decide_eq_true_2. Qed.

Lemma validate_caller_ko (rt : Runtime) (code : ActorCode) :
  CallerCode rt <> code -> ValidateImmediateCallerType rt code = Abort SysErrForbidden.
Proof. intros Hc. unfold ValidateImmediateCallerType. now rewrite bool_decide_eq_false_2. Qed.

Lemma invoke_abort {A} (m : SCAState -> Exec (A * SCAState)) (st : SCAState) (code : ExitCode) :
  m st = Abort code -> invoke m st = (code, st).
Proof. intros Hm. unfold invoke. now rewrite Hm. Qed.

Lemma invoke_done {A} (m : SCAState -> Exec (A * SCAState)) (st st' : SCAState) (a : A) :
  m st = Done (a, st') -> invoke m st = (ExitOk, st').
Proof. intros Hm. unfold invoke. now rewrite Hm. Qed.

Lemma registerSubnet_lookup (st : SCAState) (shid : SubnetID) (stake : TokenAmount) :
  Subnets (registerSubnet st shid stake) !! shid
  = Some {| ID := shid;
            ParentID := NetworkName st;
            Stake := stake;
            TopDownMsgs := ∅;
            Nonce_ := 0;
            CircSupply := 0;
            Status_ := Active;
            PrevCheckpoint_ := EmptyCheckpoint |}.
Proof. unfold registerSubnet, flushSubnet. simpl. apply lookup_insert_eq. Qed.

Lemma registerSubnet_lookup_ne (st : SCAState) (shid id : SubnetID) (stake : TokenAmount) :
  id <> shid -> Subnets (registerSubnet st shid stake) !! id = Subnets st !! id.
Proof. intros Hne. unfold registerSubnet, flushSubnet. simpl. now apply lookup_insert_ne. Qed.

(** C7.  Called by a subnet actor, [Register] aborts with
    [ErrIllegalArgument], leaving the state as it was, when the subnet ID
    made of the network name and the caller's address is already in the
    registry, and when the value received is at most [MinStake] (exactly
    [MinStake] included).  Otherwise it returns that subnet ID and stores
    under it an entry with status [Active], circulating supply 0, no
    top-down message and the empty checkpoint as previous checkpoint,
    whose stake is the value received; the other entries are untouched. *)
Theorem Register_spec (rt : Runtime) (st : SCAState) :
  CallerCode rt = SubnetActorCodeID ->
  (is_Some (Subnets st !! NewSubnetID (NetworkName st) (Caller rt)) ->
     Register rt st = Abort ErrIllegalArgument /\
     invoke (Register rt) st = (ErrIllegalArgument, st)) /\
  (ValueReceived rt <= MinStake st ->
     Register rt st = Abort ErrIllegalArgument /\
     invoke (Register rt) st = (ErrIllegalArgument, st)) /\
  (Subnets st !! NewSubnetID (NetworkName st) (Caller rt) = None ->
   MinStake st < ValueReceived rt ->
     exists st' : SCAState,
       Register rt st
       = Done ({| sp_ID := NewSubnetID (NetworkName st) (Caller rt) |}, st') /\
       Subnets st' !! NewSubnetID (NetworkName st) (Caller rt)
       = Some {| ID := NewSubnetID (NetworkName st) (Caller rt);
                 ParentID := NetworkName st;
                 Stake := ValueReceived rt;
                 TopDownMsgs := ∅;
                 Nonce_ := 0;
                 CircSupply := 0;
                 Status_ := Active;
                 PrevCheckpoint_ := EmptyCheckpoint |} /\
       (forall id : SubnetID,
           id <> NewSubnetID (NetworkName st) (Caller rt) ->
           Subnets st' !! id = Subnets st !! id) /\
       TotalSubnets st' = u64_succ (TotalSubnets st)).
Proof.
  intros Hc. set (shid := NewSubnetID (NetworkName st) (Caller rt)).
  assert (Hreg : is_Some (Subnets st !! shid) -> Register rt st = Abort ErrIllegalArgument).
  { intros [sh Hsh]. unfold Register. rewrite (validate_caller_ok _ _ Hc). simpl.
    unfold GetSubnet. fold shid. now rewrite Hsh. }
  assert (Hval : ValueReceived rt <= MinStake st -> Register rt st = Abort ErrIllegalArgument).
  { intros Hle. unfold Register. rewrite (validate_caller_ok _ _ Hc). simpl.
    unfold GetSubnet. fold shid. destruct (Subnets st !! shid); [reflexivity|].
    apply Z.leb_le in Hle. now rewrite Hle. }
  split; [|split].
  - intros Hs. split; [auto | apply invoke_abort; auto].
  - intros Hle. split; [auto | apply invoke_abort; auto].
  - intros Hnone Hlt. exists (registerSubnet st shid (ValueReceived rt)).
    split; [|split; [|split]].
    + unfold Register. rewrite (validate_caller_ok _ _ Hc). simpl.
      unfold GetSubnet. fold shid. rewrite Hnone.
      apply Z.leb_gt in Hlt. now rewrite Hlt.
    + apply registerSubnet_lookup.
    + intros id Hne. now apply registerSubnet_lookup_ne.
    + reflexivity.
Qed.


End ActorProps.

Section FundProps.
Import Schema SCA.



End FundProps.

Section CommitProps.
Import Schema SCA.
Context `{LinkSystem} `{Collaborators}.

Lemma CommitChildCheckpoint_active (rt : Runtime) (params : CheckpointParams)
    (st : SCAState) (commit : Checkpoint) (sh : Subnet) :
  CallerCode rt = SubnetActorCodeID ->
  UnmarshalBinary (chp_Checkpoint params) = Ok commit ->
  Actor (Source (Data commit)) = Ok (Caller rt) ->
  Subnets st !! NewSubnetID (NetworkName st) (Caller rt) = Some sh ->
  Status_ sh = Active ->
  CommitChildCheckpoint rt params st = chainingChecks rt st sh commit.
Proof.
  intros Hc Hu Ha Hsh Hact. unfold CommitChildCheckpoint.
  rewrite (validate_caller_ok _ _ Hc). simpl. rewrite Hu. simpl. rewrite Ha. simpl.
  rewrite String.eqb_refl. simpl. unfold GetSubnet. rewrite Hsh.
  rewrite bool_decide_eq_true_2 by exact Hact. reflexivity.
Qed.

(** C1.  For a call by a subnet actor whose subnet is registered and
    [Active], with a checkpoint that decodes and names the caller as its
    source: when the stored previous checkpoint is not the empty one, the
    call completes only if the epoch of the commit is at least the epoch
    of the previous checkpoint (equal epochs pass) and the
    [PrevCheckpoint] of the commit is the CID of the previous checkpoint;
    a lower epoch, and a CID of the previous checkpoint that differs from
    the commit's [PrevCheckpoint], each abort with [ErrIllegalArgument]
    and leave the state as it was; when both conditions hold the commit is
    applied.  When the stored previous checkpoint is the empty one, the
    two checks are skipped: the commit is applied whatever its epoch and
    [PrevCheckpoint]. *)
Theorem CommitChildCheckpoint_chaining (rt : Runtime) (params : CheckpointParams)
    (st : SCAState) (commit : Checkpoint) (sh : Subnet) :
  CallerCode rt = SubnetActorCodeID ->
  UnmarshalBinary (chp_Checkpoint params) = Ok commit ->
  Actor (Source (Data commit)) = Ok (Caller rt) ->
  Subnets st !! NewSubnetID (NetworkName st) (Caller rt) = Some sh ->
  Status_ sh = Active ->
  (IsEmpty (PrevCheckpoint_ sh) <> Ok true ->
     (forall st' : SCAState,
         CommitChildCheckpoint rt params st = Done (tt, st') ->
         Epoch (Data (PrevCheckpoint_ sh)) <= Epoch (Data commit) /\
         Cid (PrevCheckpoint_ sh) = Ok (PrevCheckpoint (Data commit))) /\
     (Epoch (Data commit) < Epoch (Data (PrevCheckpoint_ sh)) ->
         CommitChildCheckpoint rt params st = Abort ErrIllegalArgument /\
         invoke (CommitChildCheckpoint rt params) st = (ErrIllegalArgument, st)) /\
     (forall k : cid.Cid,
         Cid (PrevCheckpoint_ sh) = Ok k -> k <> PrevCheckpoint (Data commit) ->
         CommitChildCheckpoint rt params st = Abort ErrIllegalArgument /\
         invoke (CommitChildCheckpoint rt params) st = (ErrIllegalArgument, st)) /\
     (Epoch (Data (PrevCheckpoint_ sh)) <= Epoch (Data commit) ->
      Cid (PrevCheckpoint_ sh) = Ok (PrevCheckpoint (Data commit)) ->
         CommitChildCheckpoint rt params st = accepted rt st sh commit)) /\
  (IsEmpty (PrevCheckpoint_ sh) = Ok true ->
     CommitChildCheckpoint rt params st = accepted rt st sh commit).
Proof.
  intros Hc Hu Ha Hsh Hact.
  rewrite (CommitChildCheckpoint_active rt params st commit sh Hc Hu Ha Hsh Hact).
  unfold chainingChecks. split.
  - intros Hne.
    assert (Hempty : match IsEmpty (PrevCheckpoint_ sh) with
                     | Ok b => b | Err _ => false end = false).
    { destruct (IsEmpty (PrevCheckpoint_ sh)) as [[|]|e]; congruence. }
    rewrite Hempty.
    assert (Hlow : Epoch (Data commit) < Epoch (Data (PrevCheckpoint_ sh)) ->
              (if Epoch (Data (PrevCheckpoint_ sh)) >? Epoch (Data commit)
               then Abort ErrIllegalArgument
               else prevCid ← RequireNoErr (Cid (PrevCheckpoint_ sh)) ErrIllegalState;
                    if negb (String.eqb prevCid (PreviousCheck commit))
                    then Abort ErrIllegalArgument
                    else st0 ← commitChild rt st sh (currWindowCheckpoint rt st) commit;
                         Done (tt, st0))
              = (Abort ErrIllegalArgument : Exec (unit * SCAState))).
    { intros Hlt. replace (Epoch (Data (PrevCheckpoint_ sh)) >? Epoch (Data commit)) with true;
        [reflexivity|]. symmetry. apply Z.gtb_lt. lia. }
    split; [|split; [|split]].
    + intros st'.
      destruct (Epoch (Data (PrevCheckpoint_ sh)) >? Epoch (Data commit)) eqn:Hgt;
        [discriminate|].
      assert (Hle : Epoch (Data (PrevCheckpoint_ sh)) <= Epoch (Data commit)).
      { destruct (Z.gtb_spec (Epoch (Data (PrevCheckpoint_ sh))) (Epoch (Data commit)));
          [discriminate | lia]. }
      destruct (Cid (PrevCheckpoint_ sh)) as [k|e]; simpl; [|discriminate].
      destruct (String.eqb_spec k (PreviousCheck commit)) as [Hk|Hk]; simpl;
        [|discriminate].
      intros _. split; [exact Hle | now rewrite Hk].
    + intros Hlt. split; [now apply Hlow|].
      apply invoke_abort.
      rewrite (CommitChildCheckpoint_active rt params st commit sh Hc Hu Ha Hsh Hact).
      unfold chainingChecks. rewrite Hempty. now apply Hlow.
    + intros k Hk Hneq.
      assert (Hr : (if Epoch (Data (PrevCheckpoint_ sh)) >? Epoch (Data commit)
               then Abort ErrIllegalArgument
               else prevCid ← RequireNoErr (Cid (PrevCheckpoint_ sh)) ErrIllegalState;
                    if negb (String.eqb prevCid (PreviousCheck commit))
                    then Abort ErrIllegalArgument
                    else st0 ← commitChild rt st sh (currWindowCheckpoint rt st) commit;
                         Done (tt, st0))
              = (Abort ErrIllegalArgument : Exec (unit * SCAState))).
      { destruct (Epoch (Data (PrevCheckpoint_ sh)) >? Epoch (Data commit)); [reflexivity|].
        rewrite Hk. simpl.
        destruct (String.eqb_spec k (PreviousCheck commit)) as [Heq|_]; [|reflexivity].
        exfalso. apply Hneq. exact Heq. }
      split; [exact Hr|].
      apply invoke_abort.
      rewrite (CommitChildCheckpoint_active rt params st commit sh Hc Hu Ha Hsh Hact).
      unfold chainingChecks. rewrite Hempty. exact Hr.
    + intros Hle Hk.
      replace (Epoch (Data (PrevCheckpoint_ sh)) >? Epoch (Data commit)) with false.
      2:{ symmetry. destruct (Z.gtb_spec (Epoch (Data (PrevCheckpoint_ sh)))
                                        (Epoch (Data commit))); [lia | reflexivity]. }
      rewrite Hk. simpl. unfold PreviousCheck. rewrite String.eqb_refl. reflexivity.
  - intros He. rewrite He. reflexivity.
Qed.

End CommitProps.

(** ** The DAG-CBOR round trip *)

Section CodecProps.
Import Schema DagCbor.

Lemma Z_of_byte_range (b : Byte.byte) : 0 <= Z_of_byte b < 256.
Proof.
  unfold Z_of_byte. pose proof (Byte.to_N_bounded b) as Hb.
  split; [apply N2Z.is_nonneg|]. apply N.lt_succ_r in Hb.
  change 256 with (Z.of_N 256). apply N2Z.inj_lt. exact Hb.
Qed.










Context `{CidSyntax}.

















End CodecProps.

Section RoundTrip.
Import Schema DagCbor.
Context `{CidSyntax} `{LinkSystem}.


End RoundTrip.

(** ** Decoding block messages *)

Section BlockMsgProps.
Import Types.

Section AnyDecoders.
Context {BlockHeader : Type} `{Unmarshalers BlockHeader}.


End AnyDecoders.

Section GeneratedDecoders.
Import CborGen.
Context {BlockHeader : Type} `{Parts BlockHeader}.



End GeneratedDecoders.

End BlockMsgProps.

(** ** The theorems on concrete calls *)

Section Witnesses.
Import Schema SCA DagCbor Demo.

Lemma cid_ignores_signature_witness :
  Data check1 = Data (set_Signature check1 [Byte.xff]) /\
  Cid check1 = Cid (set_Signature check1 [Byte.xff]).
Proof.
  split; [reflexivity|].
  apply (proj1 cid_ignores_signature check1 (set_Signature check1 [Byte.xff])).
  reflexivity.
Defined.

Lemma AddChildChecks_single_check_witness :
  Childs (Data Examples.window_with_a1) !! 0%nat = Some Examples.child_a1 /\
  cc_Source Examples.child_a1 = cc_Source Examples.child_a2 /\
  Childs (Data (AddChildChecks Examples.window_with_a1 [Examples.child_a2])) !! 0%nat
  = Some Examples.child_a2.
Proof.
  split; [reflexivity|]. split; [reflexivity|].
  apply (proj1 (proj1 (proj2 (AddChildChecks_single_check
                                Examples.window_with_a1 Examples.child_a2))
                      0%nat Examples.child_a1 eq_refl eq_refl
                      (List.Forall_nil _))).
Defined.



Lemma Register_spec_witness :
  CallerCode (call "t0100" SubnetActorCodeID (10 ^ 18) 0) = SubnetActorCodeID /\
  ValueReceived (call "t0100" SubnetActorCodeID (10 ^ 18) 0) <= MinStake st0 /\
  Register (call "t0100" SubnetActorCodeID (10 ^ 18) 0) st0 = Abort ErrIllegalArgument.
Proof.
  split; [reflexivity|]. split; [vm_compute; discriminate|].
  apply (Register_spec (call "t0100" SubnetActorCodeID (10 ^ 18) 0) st0).
  - reflexivity.
  - vm_compute. discriminate.
Defined.





Lemma CommitChildCheckpoint_chaining_witness :
  CallerCode (call "t0100" SubnetActorCodeID 0 100) = SubnetActorCodeID /\
  UnmarshalBinary (chp_Checkpoint (params_of check2_unchained)) = Ok check2_unchained /\
  Actor (Source (Data check2_unchained)) = Ok "t0100"%string /\
  Status_ (entry 5 0 Active check1) = Active /\
  IsEmpty (PrevCheckpoint_ (entry 5 0 Active check1)) <> Ok true /\
  invoke (CommitChildCheckpoint (call "t0100" SubnetActorCodeID 0 100)
                                (params_of check2_unchained))
         (with_entry (entry 5 0 Active check1))
  = (ErrIllegalArgument, with_entry (entry 5 0 Active check1)).
Proof.
  assert (Hu : UnmarshalBinary (chp_Checkpoint (params_of check2_unchained))
               = Ok check2_unchained) by (vm_compute; reflexivity).
  assert (He : IsEmpty (PrevCheckpoint_ (entry 5 0 Active check1)) <> Ok true)
    by (vm_compute; discriminate).
  split; [reflexivity|]. split; [exact Hu|]. split; [reflexivity|].
  split; [reflexivity|]. split; [exact He|].
  destruct (CommitChildCheckpoint_chaining
              (call "t0100" SubnetActorCodeID 0 100) (params_of check2_unchained)
              (with_entry (entry 5 0 Active check1)) check2_unchained
              (entry 5 0 Active check1)) as [Hchain _].
  - reflexivity.
  - exact Hu.
  - reflexivity.
  - reflexivity.
  - reflexivity.
  - destruct (Hchain He) as (_ & _ & Hcid & _).
    apply (Hcid (cid_of check1)).
    + vm_compute. reflexivity.
    + vm_compute. discriminate.
Defined.


(** The chaining scenario: the first commit of a fresh subnet passes
    without checks; a second one that is not chained to it, or that lies in
    the past, is refused; one chained to it passes, also at the same
    epoch. *)
Example chaining_scenario :
  fst (commit check1 registered) = ExitOk /\
  fst (commit check2_unchained (snd (commit check1 registered))) = ErrIllegalArgument /\
  fst (commit check_past (snd (commit check1 registered))) = ErrIllegalArgument /\
  fst (commit check2 (snd (commit check1 registered))) = ExitOk /\
  fst (commit check_same_epoch (snd (commit check1 registered))) = ExitOk /\
  PrevCheckpoint_ <$> (Subnets (snd (commit check2 (snd (commit check1 registered))))
                         !! ("/root/t0100" : SubnetID))
  = Some check2.
Proof. vm_compute. repeat split. Qed.

(** Register with twice the minimum stake, then kill: the stake comes
    back and the entry is gone. *)
Example register_kill_scenario :
  Kill (call "t0100" SubnetActorCodeID 0 (2 * 10 ^ 18)) registered
  = Done ({| send_To := "t0100"; send_Value := 2 * 10 ^ 18 |},
          set_Subnets registered ∅).
Proof. vm_compute. reflexivity. Qed.

(** The encoder on small nodes (RFC 8949, appendix A). *)
Example encode_small :
  encode (NInt 500) = [Byte.x19; Byte.x01; Byte.xf4] /\
  encode (NInt (-500)) = [Byte.x39; Byte.x01; Byte.xf3] /\
  encode (NMap [("a"%string, NInt 1)]) = [Byte.xa1; Byte.x61; Byte.x61; Byte.x01] /\
  encode (NList [NBool true; NNull]) = [Byte.x82; Byte.xf5; Byte.xf6].
Proof. repeat split. Qed.

End Witnesses.

(** ** The children of a checkpoint *)

Section ChildLookupProps.
Import Schema.

Lemma other_source_eqb (ch x : ChildCheck) :
  other_source ch x <-> String.eqb (cc_Source x) (cc_Source ch) = false.
Proof. unfold other_source. now rewrite String.eqb_neq. Qed.

Lemma find_none_other (ch : ChildCheck) (l : list ChildCheck) :
  Forall (other_source ch) l ->
  List.find (fun x => String.eqb (cc_Source x) (cc_Source ch)) l = None.
Proof.
  induction 1 as [|x l Hx _ IH]; simpl; [reflexivity|].
  apply other_source_eqb in Hx. now rewrite Hx.
Qed.

Lemma find_insert_same (p : ChildCheck -> bool) (l : list ChildCheck) (n : nat)
    (old new : ChildCheck) :
  l !! n = Some old -> p old = p new ->
  (p new = true -> List.find p (take n l) = None) ->
  List.find p (<[n := new]> l) = if p new then Some new else List.find p l.
Proof.
  revert n. induction l as [|x l IH]; intros n Hl Hp Hpre; [discriminate|].
  destruct n as [|n]; simpl in *.
  - injection Hl as ->. rewrite Hp. now destruct (p new).
  - destruct (p x) eqn:Hx.
    + destruct (p new); [|reflexivity]. specialize (Hpre eq_refl). discriminate.
    + apply IH; auto.
Qed.

(** X1.  [hasChild] returns an index of [Data.Childs] or -1.  It returns
    -1 exactly when no entry has the source of the child, and it returns
    [n] exactly when entry [n] has that source and no entry before it
    has: the index is the one of the first match. *)
Theorem hasChild_first_match (c : Checkpoint) (child : ChildCheck) :
  -1 <= hasChild c child < Z.of_nat (length (Childs (Data c))) /\
  (hasChild c child = -1 <-> Forall (other_source child) (Childs (Data c))) /\
  (forall n : nat,
      hasChild c child = Z.of_nat n <->
      (exists old : ChildCheck,
          Childs (Data c) !! n = Some old /\ cc_Source old = cc_Source child) /\
      Forall (other_source child) (take n (Childs (Data c)))).
Proof.
  destruct (hasChild_cases c child) as [(Hn & Hall)|(n & old & Hn & Hl & Hs & Hall)].
  - split; [|split].
    + rewrite Hn. lia.
    + tauto.
    + intros n. split; [lia|]. intros [(old & Hl & Hs) _]. exfalso.
      rewrite Forall_forall in Hall. apply (Hall old); [|exact Hs].
      now apply list_elem_of_lookup_2 in Hl.
  - split; [|split].
    + rewrite Hn. apply lookup_lt_Some in Hl. lia.
    + split; [lia|]. intros Hall'. exfalso.
      rewrite Forall_forall in Hall'. apply (Hall' old); [|exact Hs].
      now apply list_elem_of_lookup_2 in Hl.
    + intros m. rewrite Hn. split.
      * intros Hm. apply Nat2Z.inj in Hm. subst m. eauto.
      * intros [(old' & Hl' & Hs') Hall']. f_equal.
        destruct (Nat.lt_total n m) as [Hlt|[Heq|Hgt]]; [|exact Heq|]; exfalso.
        -- rewrite Forall_forall in Hall'. apply (Hall' old); [|exact Hs].
           apply list_elem_of_lookup_2 with n. rewrite lookup_take_lt by lia. exact Hl.
        -- rewrite Forall_forall in Hall. apply (Hall old'); [|exact Hs'].
           apply list_elem_of_lookup_2 with m. rewrite lookup_take_lt by lia. exact Hl'.
Qed.

Lemma map_source_insert (l : list ChildCheck) (n : nat) (old new : ChildCheck) :
  l !! n = Some old -> cc_Source old = cc_Source new ->
  map cc_Source (<[n := new]> l) = map cc_Source l.
Proof.
  revert n. induction l as [|x l IH]; intros [|n] Hl Hs; simpl in *; try discriminate.
  - injection Hl as ->. now rewrite Hs.
  - f_equal. now apply IH.
Qed.

Lemma addChildCheck_fields (c : Checkpoint) (ch : ChildCheck) :
  Source (Data (addChildCheck c ch)) = Source (Data c) /\
  TipSet (Data (addChildCheck c ch)) = TipSet (Data c) /\
  Epoch (Data (addChildCheck c ch)) = Epoch (Data c) /\
  PrevCheckpoint (Data (addChildCheck c ch)) = PrevCheckpoint (Data c) /\
  XShardMsg (Data (addChildCheck c ch)) = XShardMsg (Data c) /\
  Signature (addChildCheck c ch) = Signature c.
Proof. unfold addChildCheck. destruct (0 <=? hasChild c ch); simpl; tauto. Qed.

Lemma addChildCheck_sources (c : Checkpoint) (ch : ChildCheck) :
  map cc_Source (Childs (Data (addChildCheck c ch)))
  = map cc_Source (Childs (Data c)) ++ [cc_Source ch].
Proof.
  destruct (hasChild_cases c ch) as [(Hn & _)|(n & old & Hn & Hl & Hs & _)].
  - rewrite (addChildCheck_absent _ _ Hn), map_app. reflexivity.
  - rewrite (addChildCheck_present _ _ _ Hn), map_app.
    now rewrite (map_source_insert _ _ _ _ Hl Hs).
Qed.

(** X2.  [AddChildChecks] never changes the source recorded at a
    position of [Data.Childs], and never touches another field: the
    sources of the children after the call are the sources before it
    followed by the sources of the children added, in order, and the
    source, tipset, epoch, previous checkpoint, cross-messages and
    signature of the checkpoint are the ones it had. *)
Theorem AddChildChecks_keeps_sources (childs : list ChildCheck) (c : Checkpoint) :
  map cc_Source (Childs (Data (AddChildChecks c childs)))
  = map cc_Source (Childs (Data c)) ++ map cc_Source childs /\
  Source (Data (AddChildChecks c childs)) = Source (Data c) /\
  TipSet (Data (AddChildChecks c childs)) = TipSet (Data c) /\
  Epoch (Data (AddChildChecks c childs)) = Epoch (Data c) /\
  PrevCheckpoint (Data (AddChildChecks c childs)) = PrevCheckpoint (Data c) /\
  XShardMsg (Data (AddChildChecks c childs)) = XShardMsg (Data c) /\
  Signature (AddChildChecks c childs) = Signature c.
Proof.
  unfold AddChildChecks. revert c.
  induction childs as [|ch childs IH]; intros c; simpl.
  - rewrite app_nil_r. tauto.
  - destruct (IH (addChildCheck c ch)) as (H1 & H2 & H3 & H4 & H5 & H6 & H7).
    destruct (addChildCheck_fields c ch) as (F2 & F3 & F4 & F5 & F6 & F7).
    rewrite H1, H2, H3, H4, H5, H6, H7, addChildCheck_sources, <- app_assoc.
    simpl. tauto.
Qed.

Lemma first_check_addChildCheck (src : string) (c : Checkpoint) (ch : ChildCheck) :
  first_check src (Childs (Data (addChildCheck c ch)))
  = if String.eqb (cc_Source ch) src then Some (cc_Check ch)
    else first_check src (Childs (Data c)).
Proof.
  unfold first_check.
  set (p := fun x : ChildCheck => String.eqb (cc_Source x) src).
  assert (Hfa : forall l : list ChildCheck,
             List.find p (l ++ [ch])
             = match List.find p l with Some x => Some x | None =>
                 if p ch then Some ch else None end).
  { intros l. induction l as [|x l IH]; simpl; [reflexivity|].
    destruct (p x); [reflexivity | exact IH]. }
  change (String.eqb (cc_Source ch) src) with (p ch).
  destruct (hasChild_cases c ch) as [(Hn & Hall)|(n & old & Hn & Hl & Hs & Hall)].
  - rewrite (addChildCheck_absent _ _ Hn), Hfa.
    destruct (p ch) eqn:Hp.
    + apply String.eqb_eq in Hp. subst src.
      fold (other_source ch) in *. unfold p. now rewrite (find_none_other _ _ Hall).
    + now destruct (List.find p (Childs (Data c))).
  - rewrite (addChildCheck_present _ _ _ Hn), Hfa.
    rewrite (find_insert_same p _ n old ch Hl).
    + destruct (p ch) eqn:Hp; [reflexivity|].
      now destruct (List.find p (Childs (Data c))).
    + unfold p. now rewrite Hs.
    + intros Hp. apply String.eqb_eq in Hp. subst src. unfold p.
      apply find_none_other. exact Hall.
Qed.

(** X3.  After [AddChildChecks], the first entry of a source holds the
    check of the last child added for that source; a source for which no
    child was added keeps the first entry it had.  So a reader that takes
    the first entry of a source always sees the most recent check. *)
Theorem AddChildChecks_first_is_latest (src : string) (childs : list ChildCheck)
    (c : Checkpoint) :
  first_check src (Childs (Data (AddChildChecks c childs)))
  = match first_check src (rev childs) with
    | Some k => Some k
    | None => first_check src (Childs (Data c))
    end.
Proof.
  induction childs as [|ch childs IH] using rev_ind.
  - reflexivity.
  - unfold AddChildChecks in *. rewrite fold_left_app. cbn [fold_left].
    rewrite first_check_addChildCheck, rev_app_distr. cbn [rev app].
    unfold first_check at 2. cbn [List.find].
    destruct (String.eqb (cc_Source ch) src); [reflexivity|].
    exact IH.
Qed.

End ChildLookupProps.

(** ** Miners, tallies and checkpoints of the subnet actor *)

Section SubnetStoreProps.
Import Schema Subnet SubnetStore.

(** X4.  [IsMiner] holds exactly for the addresses that occur in the list
    of miners of the state, wherever they occur and however often. *)
Theorem IsMiner_iff_listed (st : SubnetState) (addr : Address) :
  IsMiner st addr = true <-> In addr (Miners st).
Proof.
  unfold IsMiner. induction (Miners st) as [|a l IH]; simpl.
  - split; [discriminate | tauto].
  - destruct (String.eqb_spec a addr) as [->|Hne].
    + split; auto.
    + rewrite IH. split; [auto | intros [Heq|Hin]; [contradiction | exact Hin]].
Qed.

(** X5.  With no miner in the state the division of [majorityVote] is by
    zero: an empty tally gives NaN and fails the test, and any tally with
    at least one voter gives an infinity and passes it. *)
Theorem majorityVote_without_miners (st : SubnetState) (wch : CheckVotes) :
  Miners st = [] -> len (cv_Miners wch) < 2 ^ 24 ->
  (majorityVote st wch = true <-> cv_Miners wch <> []).
Proof.
  intros Hm Hv. rewrite majorityVote_majority, Hm.
  assert (Hv0 : 0 <= len (cv_Miners wch)) by (unfold len; lia).
  change (len []) with 0.
  rewrite majority_exact by lia.
  destruct (cv_Miners wch) as [|a l]; unfold len; simpl length.
  - split; [lia | congruence].
  - split; [congruence | lia].
Qed.

(** X6.  Below 2^24 miners and voters the test is monotone: a tally that
    passes still passes with more voters, and with fewer miners. *)
Theorem majorityVote_monotone (st st' : SubnetState) (wch wch' : CheckVotes) :
  len (Miners st) < 2 ^ 24 -> len (cv_Miners wch') < 2 ^ 24 ->
  len (cv_Miners wch) <= len (cv_Miners wch') ->
  len (Miners st') <= len (Miners st) ->
  majorityVote st wch = true -> majorityVote st' wch' = true.
Proof.
  intros Hm Hv Hle Hge.
  assert (0 <= len (cv_Miners wch)) by (unfold len; lia).
  assert (0 <= len (Miners st')) by (unfold len; lia).
  rewrite !majorityVote_majority, !majority_exact by lia.
  change (2 ^ 25) with 33554432. lia.
Qed.

Lemma epoch_key_inj (e1 e2 : ChainEpoch) :
  - 2 ^ 63 <= e1 < 2 ^ 63 -> - 2 ^ 63 <= e2 < 2 ^ 63 ->
  SCA.epoch_key e1 = SCA.epoch_key e2 -> e1 = e2.
Proof.
  unfold SCA.epoch_key, two64. intros H1 H2 He.
  change (2 ^ 63) with 9223372036854775808 in *.
  change (2 ^ 64) with 18446744073709551616 in *.
  pose proof (Z.div_mod e1 18446744073709551616 ltac:(lia)) as D1.
  pose proof (Z.div_mod e2 18446744073709551616 ltac:(lia)) as D2.
  pose proof (Z.mod_pos_bound e1 18446744073709551616 ltac:(lia)).
  pose proof (Z.mod_pos_bound e2 18446744073709551616 ltac:(lia)).
  rewrite He in D1. nia.
Qed.

Section WithWindows.
Context `{LinkSystem} `{SCA.Collaborators} `{Windows}.

(** X7.  [prevCheckCid] looks one period behind the signing window of the
    current epoch.  In the first period (a negative epoch) it answers
    [NoPreviousCheck] whatever the state holds, and so it does when no
    checkpoint is stored for that epoch; after a checkpoint of that epoch
    has been flushed it answers the CID of that checkpoint. *)
Theorem prevCheckCid_spec (rt : Runtime) (st : SubnetState) :
  let ep := i64_wrap (CheckpointEpoch (CurrEpoch rt) (CheckPeriod st) - CheckPeriod st) in
  (ep < 0 -> prevCheckCid rt st = Ok SCA.NoPreviousCheck) /\
  (0 <= ep -> GetCheckpoint st ep = None -> prevCheckCid rt st = Ok SCA.NoPreviousCheck) /\
  (0 <= ep -> forall ch : Checkpoint,
      Epoch (Data ch) = ep -> prevCheckCid rt (flushCheckpoint st ch) = Cid ch).
Proof.
  intros ep. split; [|split].
  - intros Hneg. unfold prevCheckCid. fold ep.
    apply Z.ltb_lt in Hneg. now rewrite Hneg.
  - intros Hpos Hnone. unfold prevCheckCid. fold ep.
    apply Z.ltb_ge in Hpos. now rewrite Hpos, Hnone.
  - intros Hpos ch Hch. unfold prevCheckCid.
    change (CheckPeriod (flushCheckpoint st ch)) with (CheckPeriod st). fold ep.
    apply Z.ltb_ge in Hpos. rewrite Hpos.
    unfold GetCheckpoint, flushCheckpoint. simpl. rewrite Hch.
    now rewrite lookup_insert_eq.
Qed.

End WithWindows.

(** X8.  The checkpoints of the subnet actor are kept by epoch: a flushed
    checkpoint is the one found at its epoch, and the checkpoints of the
    other epochs of the [int64] range are untouched, a negative epoch
    being stored under its two's complement.  The tallies are kept by
    CID: a flushed tally is the one found for its CID, the others are
    untouched, and [emptyWindowChecks] forgets every tally and no
    checkpoint. *)
Theorem subnet_store_lookup (st : SubnetState) (ch : Checkpoint) (c : cid.Cid)
    (w : CheckVotes) :
  GetCheckpoint (flushCheckpoint st ch) (Epoch (Data ch)) = Some ch /\
  (forall e : ChainEpoch,
      - 2 ^ 63 <= e < 2 ^ 63 -> - 2 ^ 63 <= Epoch (Data ch) < 2 ^ 63 ->
      e <> Epoch (Data ch) ->
      GetCheckpoint (flushCheckpoint st ch) e = GetCheckpoint st e) /\
  GetWindowChecks (flushWindowChecks st c w) c = Some w /\
  (forall c' : cid.Cid,
      c' <> c -> GetWindowChecks (flushWindowChecks st c w) c' = GetWindowChecks st c') /\
  (forall c' : cid.Cid, GetWindowChecks (emptyWindowChecks st) c' = None) /\
  (forall e : ChainEpoch, GetCheckpoint (emptyWindowChecks st) e = GetCheckpoint st e) /\
  (forall e : ChainEpoch,
      GetCheckpoint (flushWindowChecks st c w) e = GetCheckpoint st e) /\
  (forall c' : cid.Cid,
      GetWindowChecks (flushCheckpoint st ch) c' = GetWindowChecks st c').
Proof.
  unfold GetCheckpoint, flushCheckpoint, GetWindowChecks, flushWindowChecks,
    emptyWindowChecks. simpl.
  repeat split; try reflexivity.
  - apply lookup_insert_eq.
  - intros e He Hc Hne. apply lookup_insert_ne. intros Hk. apply Hne.
    symmetry. now apply epoch_key_inj.
  - apply lookup_insert_eq.
  - intros c' Hne. apply lookup_insert_ne. congruence.
Qed.

End SubnetStoreProps.

(** ** The registry of the coordinator *)

Section RegistryProps.
Import Schema SCA SCAStake.
Context `{LinkSystem} `{Collaborators}.

(** X9.  [ConstructSCAState] never yields a checkpoint period below
    [MinCheckpointPeriod]: a period from 10 up to 2^63 - 1 is kept, a
    smaller one is replaced by [DefaultCheckpointPeriod], and so is one
    from 2^63 on, which the conversion to [abi.ChainEpoch] makes
    negative.  The registry starts empty and the minimum stake is
    10^18. *)
Theorem ConstructSCAState_period (params : ConstructorParams) :
  0 <= cp_CheckpointPeriod params < 2 ^ 64 ->
  exists st : SCAState,
    ConstructSCAState params = Ok st /\
    MinCheckpointPeriod <= CheckPeriod st /\
    (10 <= cp_CheckpointPeriod params < 2 ^ 63 ->
       CheckPeriod st = cp_CheckpointPeriod params) /\
    (cp_CheckpointPeriod params < 10 \/ 2 ^ 63 <= cp_CheckpointPeriod params ->
       CheckPeriod st = DefaultCheckpointPeriod) /\
    NetworkName st = cp_NetworkName params /\
    Subnets st = ∅ /\ Checkpoints st = ∅ /\ MinStake st = 10 ^ 18.
Proof.
  intros Hp. eexists. split; [reflexivity|]. simpl.
  unfold u64_to_i64, two64, MinCheckpointPeriod, DefaultCheckpointPeriod.
  change (2 ^ 63) with 9223372036854775808 in *.
  change (2 ^ 64) with 18446744073709551616 in *.
  destruct (Z.ltb_spec (cp_CheckpointPeriod params) 9223372036854775808) as [Hlt|Hge].
  - destruct (Z.ltb_spec (cp_CheckpointPeriod params) 10);
      repeat split; try reflexivity; lia.
  - destruct (Z.ltb_spec (cp_CheckpointPeriod params - 18446744073709551616) 10);
      repeat split; try reflexivity; lia.
Qed.

Lemma Register_done_iff (rt : Runtime) (st : SCAState) (p : SubnetIDParam)
    (st' : SCAState) :
  Register rt st = Done (p, st') <->
  CallerCode rt = SubnetActorCodeID /\
  GetSubnet st (NewSubnetID (NetworkName st) (Caller rt)) = None /\
  MinStake st < ValueReceived rt /\
  p = {| sp_ID := NewSubnetID (NetworkName st) (Caller rt) |} /\
  st' = registerSubnet st (NewSubnetID (NetworkName st) (Caller rt)) (ValueReceived rt).
Proof.
  unfold Register, ValidateImmediateCallerType.
  destruct (decide (CallerCode rt = SubnetActorCodeID)) as [Hc|Hc].
  - rewrite bool_decide_eq_true_2 by exact Hc. simpl.
    destruct (GetSubnet st (NewSubnetID (NetworkName st) (Caller rt))) as [sh|].
    + split; [discriminate | intros (_ & Hn & _); discriminate].
    + destruct (Z.leb_spec (ValueReceived rt) (MinStake st)) as [Hle|Hlt].
      * split; [discriminate | intros (_ & _ & Hv & _); lia].
      * split.
        -- intros Heq. injection Heq as <- <-. auto.
        -- intros (_ & _ & _ & -> & ->). reflexivity.
  - rewrite bool_decide_eq_false_2 by exact Hc. simpl.
    split; [discriminate | intros (Hc' & _); contradiction].
Qed.

(** X10.  [Register] completes only for a subnet actor whose subnet ID
    is not in the registry and with a value above [MinStake]; it then
    returns that ID, and the state differs from the old one by the new
    entry and by the counter of subnets only. *)
Theorem Register_only_if (rt : Runtime) (st : SCAState) (p : SubnetIDParam)
    (st' : SCAState) :
  Register rt st = Done (p, st') ->
  CallerCode rt = SubnetActorCodeID /\
  GetSubnet st (NewSubnetID (NetworkName st) (Caller rt)) = None /\
  MinStake st < ValueReceived rt /\
  sp_ID p = NewSubnetID (NetworkName st) (Caller rt) /\
  delete (sp_ID p) (Subnets st') = Subnets st /\
  set_Subnets (set_TotalSubnets st' (TotalSubnets st)) (Subnets st) = st.
Proof.
  intros Hr. apply Register_done_iff in Hr.
  destruct Hr as (Hc & Hn & Hv & -> & ->). repeat split; auto.
  - simpl. unfold registerSubnet, flushSubnet. simpl.
    now apply delete_insert_id.
  - destruct st. reflexivity.
Qed.

(** X11.  On a state that [ConstructSCAState] has just returned, a call
    of [Register] by a subnet actor completes exactly when more than
    10^18 is attached; the registry then holds that one subnet and the
    counter of subnets is 1. *)
Theorem Register_on_fresh_state (params : ConstructorParams) (st : SCAState)
    (rt : Runtime) :
  ConstructSCAState params = Ok st ->
  CallerCode rt = SubnetActorCodeID ->
  (ValueReceived rt <= 10 ^ 18 -> Register rt st = Abort ErrIllegalArgument) /\
  (10 ^ 18 < ValueReceived rt ->
     exists st' : SCAState,
       Register rt st
       = Done ({| sp_ID := NewSubnetID (cp_NetworkName params) (Caller rt) |}, st') /\
       (forall id : SubnetID,
           is_Some (GetSubnet st' id)
           <-> id = NewSubnetID (cp_NetworkName params) (Caller rt)) /\
       TotalSubnets st' = 1).
Proof.
  intros Hst Hc. injection Hst as <-. split.
  - intros Hle. unfold Register. rewrite (validate_caller_ok _ _ Hc). simpl.
    unfold GetSubnet. simpl. rewrite lookup_empty.
    unfold MinSubnetStake. apply Z.leb_le in Hle. now rewrite Hle.
  - intros Hlt. eexists. split; [|split].
    + apply Register_done_iff. repeat split; auto.
    + intros id. unfold GetSubnet, registerSubnet, flushSubnet. simpl.
      split.
      * intros [sh Hsh]. apply lookup_insert_Some in Hsh.
        destruct Hsh as [(Heq & _)|(_ & Hsh)]; [now symmetry|].
        rewrite lookup_empty in Hsh. discriminate.
      * intros ->. rewrite lookup_insert_eq. eauto.
    + reflexivity.
Qed.

Lemma Kill_done_iff (rt : Runtime) (st : SCAState) (m : SendMsg) (st' : SCAState) :
  Kill rt st = Done (m, st') <->
  CallerCode rt = SubnetActorCodeID /\
  exists sh : Subnet,
    GetSubnet st (NewSubnetID (NetworkName st) (Caller rt)) = Some sh /\
    Stake sh <= CurrentBalance rt /\
    CircSupply sh <= 0 /\
    IsSuccess (SendResult rt (Caller rt) (Stake sh)) = true /\
    m = {| send_To := Caller rt; send_Value := Stake sh |} /\
    st' = set_Subnets st (delete (NewSubnetID (NetworkName st) (Caller rt)) (Subnets st)).
Proof.
  unfold Kill, ValidateImmediateCallerType.
  destruct (decide (CallerCode rt = SubnetActorCodeID)) as [Hc|Hc].
  2:{ rewrite bool_decide_eq_false_2 by exact Hc. simpl.
      split; [discriminate | intros (Hc' & _); contradiction]. }
  rewrite bool_decide_eq_true_2 by exact Hc. simpl.
  destruct (GetSubnet st (NewSubnetID (NetworkName st) (Caller rt))) as [sh|].
  2:{ split; [discriminate | intros (_ & sh & Hn & _); discriminate]. }
  destruct (Z.ltb_spec (CurrentBalance rt) (Stake sh)) as [Hb|Hb].
  { split; [discriminate | intros (_ & sh' & Hs & Hb' & _)].
    injection Hs as <-. lia. }
  destruct (Z.gtb_spec (CircSupply sh) 0) as [Hs|Hs].
  { split; [discriminate | intros (_ & sh' & Hs' & _ & Hz & _)].
    injection Hs' as <-. lia. }
  destruct (IsSuccess (SendResult rt (Caller rt) (Stake sh))) eqn:Hsend; simpl.
  - split.
    + intros Heq. injection Heq as <- <-. split; [exact Hc|].
      exists sh. repeat split; auto.
    + intros (_ & sh' & Hs' & _ & _ & _ & -> & ->). injection Hs' as <-. reflexivity.
  - split; [discriminate | intros (_ & sh' & Hs' & _ & _ & Hsend' & _)].
    injection Hs' as <-. congruence.
Qed.

(** X12.  [Kill] completes only for a registered subnet actor whose
    subnet has no funds in circulation, when the balance of the
    coordinator covers the stake and the host accepts the transfer.  The
    transfer then goes to the caller and carries exactly the stake; the
    entry of the caller is removed, every other entry is untouched, and
    the counter of subnets is not decremented. *)
Theorem Kill_only_if (rt : Runtime) (st : SCAState) (m : SendMsg) (st' : SCAState) :
  Kill rt st = Done (m, st') ->
  CallerCode rt = SubnetActorCodeID /\
  (exists sh : Subnet,
      GetSubnet st (NewSubnetID (NetworkName st) (Caller rt)) = Some sh /\
      CircSupply sh <= 0 /\
      Stake sh <= CurrentBalance rt /\
      IsSuccess (SendResult rt (Caller rt) (Stake sh)) = true /\
      send_To m = Caller rt /\ send_Value m = Stake sh) /\
  GetSubnet st' (NewSubnetID (NetworkName st) (Caller rt)) = None /\
  (forall id : SubnetID,
      id <> NewSubnetID (NetworkName st) (Caller rt) ->
      GetSubnet st' id = GetSubnet st id) /\
  TotalSubnets st' = TotalSubnets st.
Proof.
  intros Hk. apply Kill_done_iff in Hk.
  destruct Hk as (Hc & sh & Hsh & Hb & Hs & Hsend & -> & ->).
  split; [exact Hc|]. split; [|split; [|split]].
  - exists sh. repeat split; auto.
  - unfold GetSubnet. simpl. apply lookup_delete_eq.
  - intros id Hne. unfold GetSubnet. simpl. apply lookup_delete_ne. congruence.
  - reflexivity.
Qed.

(** X13.  A subnet that has just been registered can be killed at once:
    when the balance covers the stake and the host accepts the transfer,
    [Kill] by the same subnet actor sends back exactly the value that
    [Register] received, and the state is the one before [Register]
    except for the counter of subnets, which stays incremented. *)
Theorem Register_then_Kill (rt rt' : Runtime) (st st1 : SCAState) (p : SubnetIDParam) :
  Register rt st = Done (p, st1) ->
  CallerCode rt' = SubnetActorCodeID ->
  Caller rt' = Caller rt ->
  ValueReceived rt <= CurrentBalance rt' ->
  IsSuccess (SendResult rt' (Caller rt) (ValueReceived rt)) = true ->
  Kill rt' st1
  = Done ({| send_To := Caller rt; send_Value := ValueReceived rt |},
          set_TotalSubnets st (u64_succ (TotalSubnets st))).
Proof.
  intros Hr Hc' Hcaller Hbal Hsend.
  apply Register_done_iff in Hr. destruct Hr as (Hc & Hn & Hv & -> & ->).
  apply Kill_done_iff. split; [exact Hc'|].
  rewrite Hcaller.
  change (NetworkName (registerSubnet st (NewSubnetID (NetworkName st) (Caller rt))
                                      (ValueReceived rt))) with (NetworkName st).
  eexists. split; [|split; [|split; [|split; [|split]]]].
  - unfold GetSubnet. apply registerSubnet_lookup.
  - exact Hbal.
  - simpl. lia.
  - exact Hsend.
  - reflexivity.
  - unfold registerSubnet, flushSubnet, set_Subnets, set_TotalSubnets. simpl.
    rewrite delete_insert_id by exact Hn. reflexivity.
Qed.

Lemma registry_wf_flush (st : SCAState) (sh : Subnet) :
  registry_wf st -> SCA.ParentID sh = NetworkName st -> registry_wf (flushSubnet st sh).
Proof.
  intros Hwf Hp k sh' Hl. unfold flushSubnet in Hl. simpl in Hl.
  apply lookup_insert_Some in Hl. destruct Hl as [(<- & <-)|(_ & Hl)].
  - auto.
  - apply (Hwf k sh' Hl).
Qed.

(** X14.  The registry keeps every entry under its own ID, with this
    network as parent: this holds of the state [ConstructSCAState]
    returns, and [Register] and [Kill] preserve it.  On such a registry
    the entry found under an ID carries that ID, so that flushing an
    update of it replaces the entry that was read and no other. *)
Theorem registry_wf_invariant (st : SCAState) :
  (forall params : ConstructorParams, ConstructSCAState params = Ok st -> registry_wf st) /\
  (registry_wf st ->
     (forall (rt : Runtime) (p : SubnetIDParam) (st' : SCAState),
         Register rt st = Done (p, st') -> registry_wf st') /\
     (forall (rt : Runtime) (m : SendMsg) (st' : SCAState),
         Kill rt st = Done (m, st') -> registry_wf st') /\
     (forall (id : SubnetID) (sh sh' : Subnet),
         GetSubnet st id = Some sh -> ID sh' = ID sh ->
         GetSubnet (flushSubnet st sh') id = Some sh' /\
         forall id' : SubnetID,
           id' <> id -> GetSubnet (flushSubnet st sh') id' = GetSubnet st id')).
Proof.
  split.
  - intros params Hst. injection Hst as <-. intros k sh Hl. simpl in Hl.
    rewrite lookup_empty in Hl. discriminate.
  - intros Hwf. split; [|split].
    + intros rt p st' Hr. apply Register_done_iff in Hr.
      destruct Hr as (_ & _ & _ & _ & ->).
      unfold registerSubnet.
      apply registry_wf_flush; [|reflexivity].
      intros k sh Hl. apply (Hwf k sh Hl).
    + intros rt m st' Hk. apply Kill_done_iff in Hk.
      destruct Hk as (_ & sh & _ & _ & _ & _ & _ & ->).
      intros k sh' Hl. simpl in Hl. apply lookup_delete_Some in Hl.
      destruct Hl as (_ & Hl). apply (Hwf k sh' Hl).
    + intros id sh sh' Hl Hsame. destruct (Hwf id sh Hl) as (Hid & _).
      unfold GetSubnet, flushSubnet. simpl. rewrite Hsame, Hid. split.
      * apply lookup_insert_eq.
      * intros id' Hne. apply lookup_insert_ne. congruence.
Qed.

End RegistryProps.

(** ** Guards of the actor methods *)

Section GuardProps.
Import Schema SCA SCAStake.
Context `{LinkSystem} `{Collaborators} `{StakeCollaborators} `{Windows}.

(** X15.  Every method of the actor checks the type of its caller before
    anything else: [Register], [AddStake], [ReleaseStake], [Kill] and
    [CommitChildCheckpoint] called by anything but a subnet actor, and
    [Fund] and [Release] called by anything but an account actor, abort
    with [SysErrForbidden] whatever the parameters and the state, which
    the host leaves as it was. *)
Theorem caller_type_checked_first (rt : Runtime) (st : SCAState)
    (chp : CheckpointParams) (sp : SubnetIDParam) (fp : FundParams) :
  (CallerCode rt <> SubnetActorCodeID ->
     Register rt st = Abort SysErrForbidden /\
     AddStake rt st = Abort SysErrForbidden /\
     ReleaseStake rt fp st = Abort SysErrForbidden /\
     Kill rt st = Abort SysErrForbidden /\
     CommitChildCheckpoint rt chp st = Abort SysErrForbidden /\
     invoke (CommitChildCheckpoint rt chp) st = (SysErrForbidden, st)) /\
  (CallerCode rt <> AccountActorCodeID ->
     Fund rt sp st = Abort SysErrForbidden /\
     Release rt st = Abort SysErrForbidden /\
     invoke (Release rt) st = (SysErrForbidden, st)).
Proof.
  split; intros Hc.
  - assert (Hcc : CommitChildCheckpoint rt chp st = Abort SysErrForbidden).
    { unfold CommitChildCheckpoint. now rewrite (validate_caller_ko _ _ Hc). }
    unfold Register, AddStake, ReleaseStake, Kill.
    rewrite (validate_caller_ko _ _ Hc). simpl.
    repeat split; auto. now apply invoke_abort.
  - assert (Hr : Release rt st = Abort SysErrForbidden).
    { unfold Release. now rewrite (validate_caller_ko _ _ Hc). }
    unfold Fund. rewrite (validate_caller_ko _ _ Hc). simpl.
    repeat split; auto. now apply invoke_abort.
Qed.

(** X16.  Called by a subnet actor, [CommitChildCheckpoint] aborts with
    [ErrIllegalArgument] when the parameters do not decode to a
    checkpoint, when no actor address can be read off the source of the
    checkpoint, when that address is not the caller, and when the subnet
    of the caller is not registered; it aborts with [ErrIllegalState]
    when the subnet is registered with a status other than [Active]. *)
Theorem CommitChildCheckpoint_rejects (rt : Runtime) (params : CheckpointParams)
    (st : SCAState) :
  CallerCode rt = SubnetActorCodeID ->
  (forall e : error,
      UnmarshalBinary (chp_Checkpoint params) = Err e ->
      CommitChildCheckpoint rt params st = Abort ErrIllegalArgument) /\
  (forall commit : Checkpoint,
      UnmarshalBinary (chp_Checkpoint params) = Ok commit ->
      (forall e : error,
          Actor (Source (Data commit)) = Err e ->
          CommitChildCheckpoint rt params st = Abort ErrIllegalArgument) /\
      (forall a : Address,
          Actor (Source (Data commit)) = Ok a -> a <> Caller rt ->
          CommitChildCheckpoint rt params st = Abort ErrIllegalArgument) /\
      (Actor (Source (Data commit)) = Ok (Caller rt) ->
       GetSubnet st (NewSubnetID (NetworkName st) (Caller rt)) = None ->
          CommitChildCheckpoint rt params st = Abort ErrIllegalArgument) /\
      (forall sh : Subnet,
          Actor (Source (Data commit)) = Ok (Caller rt) ->
          GetSubnet st (NewSubnetID (NetworkName st) (Caller rt)) = Some sh ->
          Status_ sh <> Active ->
          CommitChildCheckpoint rt params st = Abort ErrIllegalState /\
          invoke (CommitChildCheckpoint rt params) st = (ErrIllegalState, st))).
Proof.
  intros Hc. split.
  - intros e He. unfold CommitChildCheckpoint.
    rewrite (validate_caller_ok _ _ Hc). simpl. now rewrite He.
  - intros commit Hu. split; [|split; [|split]].
    + intros e He. unfold CommitChildCheckpoint.
      rewrite (validate_caller_ok _ _ Hc). simpl. rewrite Hu. simpl. now rewrite He.
    + intros a Ha Hne. unfold CommitChildCheckpoint.
      rewrite (validate_caller_ok _ _ Hc). simpl. rewrite Hu. simpl. rewrite Ha. simpl.
      apply String.eqb_neq in Hne. now rewrite Hne.
    + intros Ha Hn. unfold CommitChildCheckpoint.
      rewrite (validate_caller_ok _ _ Hc). simpl. rewrite Hu. simpl. rewrite Ha. simpl.
      rewrite String.eqb_refl. simpl. now rewrite Hn.
    + intros sh Ha Hsh Hst.
      assert (Hr : CommitChildCheckpoint rt params st = Abort ErrIllegalState).
      { unfold CommitChildCheckpoint.
        rewrite (validate_caller_ok _ _ Hc). simpl. rewrite Hu. simpl. rewrite Ha. simpl.
        rewrite String.eqb_refl. simpl. rewrite Hsh.
        now rewrite bool_decide_eq_false_2 by exact Hst. }
      split; [exact Hr | now apply invoke_abort].
Qed.

Lemma commitChild_done (rt : Runtime) (st : SCAState) (sh : Subnet)
    (ch commit : Checkpoint) (st' : SCAState) :
  commitChild rt st sh ch commit = Done st' ->
  exists (st1 : SCAState) (w1 w : Checkpoint),
    applyCheckMsgs rt st ch commit = Done (st1, w1) /\
    AddChild w1 commit = Ok w /\
    st' = flushSubnet (flushCheckpoint st1 w) (set_PrevCheckpoint sh commit).
Proof.
  unfold commitChild.
  destruct (applyCheckMsgs rt st ch commit) as [[st1 w1]|c] eqn:Ha; simpl;
    [|discriminate].
  destruct (AddChild w1 commit) as [w|e] eqn:Hw; simpl; [|discriminate].
  intros Heq. injection Heq as <-. exists st1, w1, w. auto.
Qed.

(** X17.  When the commit of a checkpoint is applied, the entry stored
    under the ID of the subnet is the entry that was read with the commit
    as its previous checkpoint, whatever the cross-message helpers did to
    the registry in between; the window checkpoint that [AddChild]
    returned is the one found at its epoch; the other entries and, within
    [int64], the checkpoints of the other epochs are as the helpers left
    them.  A failure of [AddChild] aborts with [ErrIllegalState]. *)
Theorem commit_records_previous (rt : Runtime) (st : SCAState) (sh : Subnet)
    (ch commit : Checkpoint) :
  (forall st' : SCAState,
      commitChild rt st sh ch commit = Done st' ->
      GetSubnet st' (ID sh) = Some (set_PrevCheckpoint sh commit) /\
      exists (st1 : SCAState) (w1 w : Checkpoint),
        applyCheckMsgs rt st ch commit = Done (st1, w1) /\
        AddChild w1 commit = Ok w /\
        GetCheckpoint st' (Epoch (Data w)) = Some w /\
        (forall id : SubnetID, id <> ID sh -> GetSubnet st' id = GetSubnet st1 id) /\
        (forall e : ChainEpoch,
            - 2 ^ 63 <= e < 2 ^ 63 -> - 2 ^ 63 <= Epoch (Data w) < 2 ^ 63 ->
            e <> Epoch (Data w) -> GetCheckpoint st' e = GetCheckpoint st1 e)) /\
  (forall (st1 : SCAState) (w1 : Checkpoint) (e : error),
      applyCheckMsgs rt st ch commit = Done (st1, w1) ->
      AddChild w1 commit = Err e ->
      commitChild rt st sh ch commit = Abort ErrIllegalState).
Proof.
  split.
  - intros st' Hd. apply commitChild_done in Hd.
    destruct Hd as (st1 & w1 & w & Ha & Hw & ->). split.
    + unfold GetSubnet, flushSubnet. simpl. apply lookup_insert_eq.
    + exists st1, w1, w. repeat split; auto.
      * unfold GetCheckpoint, flushSubnet, flushCheckpoint. simpl.
        apply lookup_insert_eq.
      * intros id Hne. unfold GetSubnet, flushSubnet. simpl.
        apply lookup_insert_ne. congruence.
      * intros e He Hw' Hne. unfold GetCheckpoint, flushSubnet, flushCheckpoint. simpl.
        apply lookup_insert_ne. intros Hk. apply Hne. symmetry.
        now apply epoch_key_inj.
  - intros st1 w1 e Ha He. unfold commitChild. rewrite Ha. simpl. now rewrite He.
Qed.

(** X18.  Two commits in a row chain: after the commit of a checkpoint
    that is not the empty one has been applied for a subnet, a later
    call of [CommitChildCheckpoint] by the same subnet actor completes
    only with a checkpoint whose [PrevCheckpoint] is the CID of the first
    one and whose epoch is not lower. *)
Theorem consecutive_commits_chain (rt rt2 : Runtime) (st st1 st2 : SCAState)
    (sh : Subnet) (first second : Checkpoint) (params : CheckpointParams) :
  accepted rt st sh first = Done (tt, st1) ->
  ID sh = NewSubnetID (NetworkName st1) (Caller rt2) ->
  Status_ sh = Active ->
  IsEmpty first <> Ok true ->
  CallerCode rt2 = SubnetActorCodeID ->
  UnmarshalBinary (chp_Checkpoint params) = Ok second ->
  Actor (Source (Data second)) = Ok (Caller rt2) ->
  CommitChildCheckpoint rt2 params st1 = Done (tt, st2) ->
  Cid first = Ok (PrevCheckpoint (Data second)) /\
  Epoch (Data first) <= Epoch (Data second).
Proof.
  intros Hacc Hid Hact Hne Hc Hu Ha Hcommit.
  unfold accepted in Hacc.
  destruct (commitChild rt st sh (currWindowCheckpoint rt st) first) as [st1'|c] eqn:Hcc;
    simpl in Hacc; [|discriminate].
  injection Hacc as ->.
  apply commitChild_done in Hcc. destruct Hcc as (s & w1 & w & _ & _ & Hst1).
  assert (Hl : Subnets st1 !! NewSubnetID (NetworkName st1) (Caller rt2)
               = Some (set_PrevCheckpoint sh first)).
  { rewrite <- Hid. rewrite Hst1 at 1. unfold flushSubnet. simpl.
    apply lookup_insert_eq. }
  rewrite (CommitChildCheckpoint_active rt2 params st1 second _ Hc Hu Ha Hl Hact)
    in Hcommit.
  unfold chainingChecks in Hcommit.
  change (PrevCheckpoint_ (set_PrevCheckpoint sh first)) with first in Hcommit.
  destruct (IsEmpty first) as [[|]|e]; [congruence| |].
  - destruct (Z.gtb_spec (Epoch (Data first)) (Epoch (Data second))) as [Hgt|Hle];
      [discriminate|].
    destruct (Cid first) as [k|e]; simpl in Hcommit; [|discriminate].
    destruct (String.eqb_spec k (PreviousCheck second)) as [Hk|Hk]; simpl in Hcommit;
      [|discriminate].
    split; [now rewrite Hk | lia].
  - destruct (Z.gtb_spec (Epoch (Data first)) (Epoch (Data second))) as [Hgt|Hle];
      [discriminate|].
    destruct (Cid first) as [k|e']; simpl in Hcommit; [|discriminate].
    destruct (String.eqb_spec k (PreviousCheck second)) as [Hk|Hk]; simpl in Hcommit;
      [|discriminate].
    split; [now rewrite Hk | lia].
Qed.

End GuardProps.

(** ** Checkpoints of the coordinator *)

Section WindowProps.
Import Schema SCA SCAStake.
Context `{LinkSystem} `{Collaborators} `{StakeCollaborators} `{Windows}.

(** X19.  The checkpoints of the coordinator are kept by epoch: a flushed
    checkpoint is the one found at its epoch, and is the one
    [CurrWindowCheckpoint] returns for every epoch of its window; within
    [int64] the checkpoints of the other epochs are untouched, and the
    registry is untouched. *)
Theorem flushCheckpoint_then_lookup (st : SCAState) (ch : Checkpoint) :
  GetCheckpoint (flushCheckpoint st ch) (Epoch (Data ch)) = Some ch /\
  (forall epoch : ChainEpoch,
      WindowEpoch epoch (CheckPeriod st) = Epoch (Data ch) ->
      CurrWindowCheckpoint (flushCheckpoint st ch) epoch = ch) /\
  (forall e : ChainEpoch,
      - 2 ^ 63 <= e < 2 ^ 63 -> - 2 ^ 63 <= Epoch (Data ch) < 2 ^ 63 ->
      e <> Epoch (Data ch) ->
      GetCheckpoint (flushCheckpoint st ch) e = GetCheckpoint st e) /\
  (forall id : SubnetID, GetSubnet (flushCheckpoint st ch) id = GetSubnet st id).
Proof.
  assert (Hget : GetCheckpoint (flushCheckpoint st ch) (Epoch (Data ch)) = Some ch).
  { unfold GetCheckpoint, flushCheckpoint. simpl. apply lookup_insert_eq. }
  split; [exact Hget|]. split; [|split].
  - intros epoch Hw. unfold CurrWindowCheckpoint.
    change (CheckPeriod (flushCheckpoint st ch)) with (CheckPeriod st).
    now rewrite Hw, Hget.
  - intros e He Hc Hne. unfold GetCheckpoint, flushCheckpoint. simpl.
    apply lookup_insert_ne. intros Hk. apply Hne. symmetry. now apply epoch_key_inj.
  - reflexivity.
Qed.

(** X20.  [RawCheckpoint] fails exactly for a negative epoch.  For any
    other epoch it returns the checkpoint stored for the signing window
    of that epoch when there is one, so the checkpoint that has been
    flushed for that window; the state is only read. *)
Theorem RawCheckpoint_spec (st : SCAState) (epoch : ChainEpoch) :
  (epoch < 0 <-> exists e : error, RawCheckpoint st epoch = Err e) /\
  (0 <= epoch ->
     (forall ch : Checkpoint,
         GetCheckpoint st (CheckpointEpoch epoch (CheckPeriod st)) = Some ch ->
         RawCheckpoint st epoch = Ok ch) /\
     (forall ch : Checkpoint,
         Epoch (Data ch) = CheckpointEpoch epoch (CheckPeriod st) ->
         RawCheckpoint (flushCheckpoint st ch) epoch = Ok ch)).
Proof.
  unfold RawCheckpoint. split.
  - destruct (Z.ltb_spec epoch 0) as [Hneg|Hpos].
    + split; [eauto | auto].
    + split; [lia|]. intros [e He].
      destruct (GetCheckpoint st (CheckpointEpoch epoch (CheckPeriod st))); discriminate.
  - intros Hpos. apply Z.ltb_ge in Hpos. rewrite Hpos. split.
    + intros ch Hch. now rewrite Hch.
    + intros ch Hch.
      change (CheckPeriod (flushCheckpoint st ch)) with (CheckPeriod st).
      rewrite <- Hch. unfold GetCheckpoint, flushCheckpoint. simpl.
      now rewrite lookup_insert_eq.
Qed.

End WindowProps.

(** ** Stake and release *)

Section StakeProps.
Import Schema SCA SCAStake.
Context `{LinkSystem} `{Collaborators} `{StakeCollaborators} `{Windows}.

(** X21.  [AddStake] looks the subnet of the caller up before it looks at
    the value: called by a subnet actor that is not registered it aborts
    with [ErrIllegalArgument] whatever the value; for a registered one it
    aborts with [ErrIllegalArgument] when the value received is not
    positive, and otherwise the outcome is the one of [addStake] on the
    entry found, with the value received. *)
Theorem AddStake_guards (rt : Runtime) (st : SCAState) :
  CallerCode rt = SubnetActorCodeID ->
  (getSubnetFromActorAddr st (Caller rt) = None ->
     AddStake rt st = Abort ErrIllegalArgument) /\
  (forall sh : Subnet,
      getSubnetFromActorAddr st (Caller rt) = Some sh ->
      (ValueReceived rt <= 0 -> AddStake rt st = Abort ErrIllegalArgument) /\
      (0 < ValueReceived rt ->
         AddStake rt st
         = match addStake rt st sh (ValueReceived rt) with
           | Done st' => Done (tt, st')
           | Abort c => Abort c
           end)).
Proof.
  intros Hc. unfold AddStake. rewrite (validate_caller_ok _ _ Hc). simpl. split.
  - intros Hn. now rewrite Hn.
  - intros sh Hsh. rewrite Hsh. split.
    + intros Hv. apply Z.leb_le in Hv. now rewrite Hv.
    + intros Hv. apply Z.leb_gt in Hv. now rewrite Hv.
Qed.

(** X22.  [ReleaseStake] never pays out more than the stake of the
    calling subnet, nor more than the balance of the coordinator: when it
    completes, the amount asked for is positive, at most the stake
    recorded for the subnet of the caller and at most the balance, the
    host has accepted the transfer, the transfer goes to the caller and
    carries exactly that amount, and the state is the one [addStake]
    returned for the negated amount. *)
Theorem ReleaseStake_only_if (rt : Runtime) (params : FundParams) (st : SCAState)
    (m : SendMsg) (st' : SCAState) :
  ReleaseStake rt params st = Done (m, st') ->
  CallerCode rt = SubnetActorCodeID /\
  0 < fp_Value params /\
  exists sh : Subnet,
    getSubnetFromActorAddr st (Caller rt) = Some sh /\
    fp_Value params <= Stake sh /\
    fp_Value params <= CurrentBalance rt /\
    addStake rt st sh (- fp_Value params) = Done st' /\
    IsSuccess (SendResult rt (Caller rt) (fp_Value params)) = true /\
    m = {| send_To := Caller rt; send_Value := fp_Value params |}.
Proof.
  unfold ReleaseStake, ValidateImmediateCallerType.
  destruct (decide (CallerCode rt = SubnetActorCodeID)) as [Hc|Hc].
  2:{ rewrite bool_decide_eq_false_2 by exact Hc. discriminate. }
  rewrite bool_decide_eq_true_2 by exact Hc. simpl.
  destruct (Z.leb_spec (fp_Value params) 0) as [Hv|Hv]; [discriminate|].
  destruct (getSubnetFromActorAddr st (Caller rt)) as [sh|] eqn:Hsh; [|discriminate].
  destruct (Z.ltb_spec (Stake sh) (fp_Value params)) as [Hs|Hs]; [discriminate|].
  destruct (Z.ltb_spec (CurrentBalance rt) (fp_Value params)) as [Hb|Hb]; [discriminate|].
  destruct (addStake rt st sh (- fp_Value params)) as [st1|c] eqn:Ha; simpl;
    [|discriminate].
  destruct (IsSuccess (SendResult rt (Caller rt) (fp_Value params))) eqn:Hsend; simpl;
    [|discriminate].
  intros Heq. injection Heq as <- <-.
  split; [exact Hc|]. split; [exact Hv|]. exists sh. repeat split; auto.
Qed.

(** X23.  The amount asked of [ReleaseStake] is checked before the
    registry is read: called by a subnet actor with an amount that is not
    positive it aborts with [ErrIllegalArgument] whether or not the
    subnet is registered.  With a positive amount it aborts with
    [ErrIllegalArgument] for an unregistered subnet, and with
    [ErrIllegalState] when the amount exceeds the stake of the subnet or
    the balance of the coordinator, or when [addStake] completes and the
    host refuses the transfer. *)
Theorem ReleaseStake_guards (rt : Runtime) (params : FundParams) (st : SCAState) :
  CallerCode rt = SubnetActorCodeID ->
  (fp_Value params <= 0 -> ReleaseStake rt params st = Abort ErrIllegalArgument) /\
  (0 < fp_Value params ->
     (getSubnetFromActorAddr st (Caller rt) = None ->
        ReleaseStake rt params st = Abort ErrIllegalArgument) /\
     (forall sh : Subnet,
         getSubnetFromActorAddr st (Caller rt) = Some sh ->
         (Stake sh < fp_Value params \/ CurrentBalance rt < fp_Value params ->
            ReleaseStake rt params st = Abort ErrIllegalState) /\
         (forall st' : SCAState,
             fp_Value params <= Stake sh -> fp_Value params <= CurrentBalance rt ->
             addStake rt st sh (- fp_Value params) = Done st' ->
             IsSuccess (SendResult rt (Caller rt) (fp_Value params)) = false ->
             ReleaseStake rt params st = Abort ErrIllegalState /\
             invoke (ReleaseStake rt params) st = (ErrIllegalState, st)))).
Proof.
  intros Hc. unfold invoke, ReleaseStake. rewrite (validate_caller_ok _ _ Hc). simpl.
  split.
  - intros Hv. apply Z.leb_le in Hv. now rewrite Hv.
  - intros Hv. apply Z.leb_gt in Hv. rewrite Hv. split.
    + intros Hn. now rewrite Hn.
    + intros sh Hsh. rewrite Hsh. split.
      * intros Hor.
        destruct (Z.ltb_spec (Stake sh) (fp_Value params)); [reflexivity|].
        destruct (Z.ltb_spec (CurrentBalance rt) (fp_Value params)); [reflexivity|].
        lia.
      * intros st' Hs Hb Ha Hsend.
        apply Z.ltb_ge in Hs. apply Z.ltb_ge in Hb. rewrite Hs, Hb, Ha. simpl.
        rewrite Hsend. simpl. auto.
Qed.

(** X24.  [Release] burns before it records: called by an account actor
    it aborts with [ErrIllegalArgument] when the value received is not
    positive, and with [ErrIllegalState] when the host refuses the
    transfer to the burnt-funds actor, in both cases without calling
    [releaseMsg]; when it completes, the transfer goes to the burnt-funds
    actor and carries exactly the value received, and the state is the
    one [releaseMsg] returned for that value. *)
Theorem Release_spec (rt : Runtime) (st : SCAState) :
  CallerCode rt = AccountActorCodeID ->
  (ValueReceived rt <= 0 -> Release rt st = Abort ErrIllegalArgument) /\
  (0 < ValueReceived rt ->
   IsSuccess (SendResult rt BurntFundsActorAddr (ValueReceived rt)) = false ->
     Release rt st = Abort ErrIllegalState) /\
  (forall (m : SendMsg) (st' : SCAState),
      Release rt st = Done (m, st') ->
      0 < ValueReceived rt /\
      IsSuccess (SendResult rt BurntFundsActorAddr (ValueReceived rt)) = true /\
      releaseMsg rt st (ValueReceived rt) = Done st' /\
      m = {| send_To := BurntFundsActorAddr; send_Value := ValueReceived rt |}).
Proof.
  intros Hc. unfold Release. rewrite (validate_caller_ok _ _ Hc). simpl.
  split; [|split].
  - intros Hv. apply Z.leb_le in Hv. now rewrite Hv.
  - intros Hv Hsend. apply Z.leb_gt in Hv. rewrite Hv, Hsend. reflexivity.
  - intros m st'. destruct (Z.leb_spec (ValueReceived rt) 0) as [Hv|Hv]; [discriminate|].
    destruct (IsSuccess (SendResult rt BurntFundsActorAddr (ValueReceived rt)))
      eqn:Hsend; simpl; [|discriminate].
    destruct (releaseMsg rt st (ValueReceived rt)) as [st1|c] eqn:Hr; simpl;
      [|discriminate].
    intros Heq. injection Heq as <- <-. auto.
Qed.

End StakeProps.

(** ** Routing of the cross-messages of a child checkpoint *)

Section RoutingProps.
Import Schema SCA SCAStake.
Context `{LinkSystem} `{Collaborators} `{StakeCollaborators} `{Windows}.

Lemma metas_to_cons (d : string) (mm : CrossMsgMeta) (rest : list CrossMsgMeta) :
  metas_to d (mm :: rest)
  = if String.eqb (To mm) d then mm :: metas_to d rest else metas_to d rest.
Proof. reflexivity. Qed.

Lemma applyCheckMsgs_loop_general (rt : Runtime) (mms : list CrossMsgMeta) :
  (forall (st0 : SCAState) (mm : CrossMsgMeta) (st1 : SCAState),
      storeDownTopMsgMeta rt st0 mm = Done st1 -> NetworkName st1 = NetworkName st0) ->
  forall (st : SCAState) (aux : gmap string (list CrossMsgMeta)),
    match applyCheckMsgs_loop rt st aux mms with
    | Done (st', aux') =>
        storeAll rt st (metas_to (NetworkName st) mms) = Done st' /\
        forall d : string,
          aux' !! d
          = extend_group (aux !! d)
              (if String.eqb d (NetworkName st) then [] else metas_to d mms)
    | Abort c => storeAll rt st (metas_to (NetworkName st) mms) = Abort c
    end.
Proof.
  intros Hnn. induction mms as [|mm rest IH]; intros st aux.
  - simpl. split; [reflexivity|]. intros d.
    destruct (String.eqb d (NetworkName st)); simpl;
      destruct (aux !! d); simpl; rewrite ?app_nil_r; reflexivity.
  - cbn [applyCheckMsgs_loop]. rewrite metas_to_cons.
    destruct (String.eqb_spec (To mm) (NetworkName st)) as [Hto|Hto].
    + cbn [storeAll].
      destruct (storeDownTopMsgMeta rt st mm) as [st1|c] eqn:Hs;
        unfold mbind, Exec_bind; cbn beta iota; [|reflexivity].
      pose proof (Hnn _ _ _ Hs) as Hn1.
      specialize (IH st1 aux). rewrite Hn1 in IH.
      destruct (applyCheckMsgs_loop rt st1 aux rest) as [[st' aux']|c]; [|exact IH].
      destruct IH as [IH1 IH2]. split; [exact IH1|].
      intros d. rewrite IH2.
      destruct (String.eqb_spec d (NetworkName st)) as [Hd|Hd]; [reflexivity|].
      rewrite metas_to_cons.
      destruct (String.eqb_spec (To mm) d) as [Hd'|Hd']; [congruence | reflexivity].
    + set (aux1 := match aux !! To mm with
                   | Some l => <[To mm := l ++ [mm]]> aux
                   | None => <[To mm := [mm]]> aux
                   end).
      specialize (IH st aux1).
      destruct (applyCheckMsgs_loop rt st aux1 rest) as [[st' aux']|c]; [|exact IH].
      destruct IH as [IH1 IH2]. split; [exact IH1|].
      intros d. rewrite IH2. rewrite metas_to_cons.
      destruct (String.eqb_spec (To mm) d) as [Hd|Hd].
      * subst d. apply String.eqb_neq in Hto. rewrite Hto.
        unfold aux1. destruct (aux !! To mm) as [l0|] eqn:Ha.
        -- rewrite lookup_insert_eq. simpl. now rewrite <- app_assoc.
        -- rewrite lookup_insert_eq. reflexivity.
      * assert (Haux : aux1 !! d = aux !! d).
        { unfold aux1. destruct (aux !! To mm); now rewrite lookup_insert_ne. }
        now rewrite Haux.
Qed.

(** X25.  The loop of [applyCheckMsgs] partitions the metas of a child
    checkpoint by destination, losing none and keeping their order: the
    metas addressed to this network are handed to [storeDownTopMsgMeta]
    one after the other, and the loop aborts exactly when one of these
    calls does; every other destination gets in [aux] exactly the metas
    addressed to it, a destination without metas gets no entry, and this
    network never gets one.  This holds as long as
    [storeDownTopMsgMeta] does not rename the network. *)
Theorem applyCheckMsgs_loop_partitions (rt : Runtime) (st : SCAState)
    (mms : list CrossMsgMeta) :
  (forall (st0 : SCAState) (mm : CrossMsgMeta) (st1 : SCAState),
      storeDownTopMsgMeta rt st0 mm = Done st1 -> NetworkName st1 = NetworkName st0) ->
  match applyCheckMsgs_loop rt st ∅ mms with
  | Done (st', aux) =>
      storeAll rt st (metas_to (NetworkName st) mms) = Done st' /\
      aux !! NetworkName st = None /\
      forall d : string,
        d <> NetworkName st ->
        aux !! d = match metas_to d mms with [] => None | l => Some l end
  | Abort c => storeAll rt st (metas_to (NetworkName st) mms) = Abort c
  end.
Proof.
  intros Hnn. pose proof (applyCheckMsgs_loop_general rt mms Hnn st ∅) as Hg.
  destruct (applyCheckMsgs_loop rt st ∅ mms) as [[st' aux]|c]; [|exact Hg].
  destruct Hg as [Hs Ha]. split; [exact Hs|]. split.
  - rewrite Ha, String.eqb_refl, lookup_empty. reflexivity.
  - intros d Hd. rewrite Ha, lookup_empty. apply String.eqb_neq in Hd. rewrite Hd.
    now destruct (metas_to d mms).
Qed.

End RoutingProps.

(** ** The encoding tells checkpoints apart *)

Section EncodingProps.
Import Schema DagCbor.
Context `{CidSyntax}.



End EncodingProps.

(** ** Children with fresh sources, and the constructor *)

Section FreshSourceProps.
Import Schema.

Lemma hasChild_absent (c : Checkpoint) (ch : ChildCheck) :
  ~ In (cc_Source ch) (map cc_Source (Childs (Data c))) -> hasChild c ch = -1.
Proof.
  intros Hnin.
  destruct (hasChild_cases c ch) as [(Hn & _)|(n & old & _ & Hl & Hs & _)];
    [exact Hn|].
  exfalso. apply Hnin. rewrite <- Hs. apply in_map.
  apply list_elem_of_In. now apply list_elem_of_lookup_2 in Hl.
Qed.

(** X27.  When the children added have pairwise distinct sources, none
    of which is recorded yet, [AddChildChecks] is a plain append: nothing
    is overwritten and the children come after the old ones in the order
    given.  On a checkpoint made by [NewRawCheckpoint], which has no
    child, the children are then exactly the ones added. *)
Theorem AddChildChecks_fresh_sources (childs : list ChildCheck) (c : Checkpoint) :
  List.NoDup (map cc_Source childs) ->
  (forall ch : ChildCheck,
      In ch childs -> ~ In (cc_Source ch) (map cc_Source (Childs (Data c)))) ->
  Childs (Data (AddChildChecks c childs)) = Childs (Data c) ++ childs /\
  (forall (source : SubnetID) (epoch : ChainEpoch) (prev : cid.Cid)
          (xmsgs : option MsgTreeList),
      Childs (Data (AddChildChecks (NewRawCheckpoint source epoch prev xmsgs) childs))
      = childs).
Proof.
  assert (Hgen : forall (l : list ChildCheck) (c0 : Checkpoint),
             List.NoDup (map cc_Source l) ->
             (forall ch : ChildCheck,
                 In ch l -> ~ In (cc_Source ch) (map cc_Source (Childs (Data c0)))) ->
             Childs (Data (AddChildChecks c0 l)) = Childs (Data c0) ++ l).
  { induction l as [|ch rest IH]; intros c0 Hnd Hfresh.
    - simpl. now rewrite app_nil_r.
    - change (AddChildChecks c0 (ch :: rest))
        with (AddChildChecks (addChildCheck c0 ch) rest).
      simpl in Hnd. inversion Hnd as [|x l' Hnin Hnd']. subst.
      assert (Hstep : Childs (Data (addChildCheck c0 ch)) = Childs (Data c0) ++ [ch]).
      { apply addChildCheck_absent, hasChild_absent, Hfresh. now left. }
      rewrite IH.
      + rewrite Hstep, <- app_assoc. reflexivity.
      + exact Hnd'.
      + intros ch' Hin. rewrite Hstep, map_app, in_app_iff. simpl.
        intros [Hold|[Heq|[]]].
        * apply (Hfresh ch'); [now right | exact Hold].
        * apply Hnin. rewrite Heq. now apply in_map. }
  intros Hnd Hfresh. split.
  - now apply Hgen.
  - intros source epoch prev xmsgs. rewrite Hgen; [reflexivity | exact Hnd |].
    intros ch _ [].
Qed.

End FreshSourceProps.

Section ConstructorProps.
Import Schema SCA SCAStake.
Context `{LinkSystem} `{Collaborators} `{StakeCollaborators} `{Windows}.

(** X28.  [Constructor] completes exactly when it is called by the
    system actor; any other caller aborts with [SysErrForbidden].  The
    state it creates is the one of [ConstructSCAState]: its period is at
    least [MinCheckpointPeriod], no subnet is registered and no
    checkpoint is stored. *)
Theorem Constructor_spec (rt : Runtime) (params : ConstructorParams) :
  (Caller rt <> SystemActorAddr -> Constructor rt params = Abort SysErrForbidden) /\
  (Caller rt = SystemActorAddr ->
     exists st : SCAState,
       Constructor rt params = Done st /\
       ConstructSCAState params = Ok st /\
       MinCheckpointPeriod <= CheckPeriod st /\
       (forall id : SubnetID, GetSubnet st id = None) /\
       (forall e : ChainEpoch, GetCheckpoint st e = None)).
Proof.
  unfold Constructor, ValidateImmediateCallerIs. split.
  - intros Hc. now rewrite bool_decide_eq_false_2 by exact Hc.
  - intros Hc. rewrite bool_decide_eq_true_2 by exact Hc.
    eexists. split; [reflexivity|]. split; [reflexivity|]. simpl.
    split; [|split].
    + unfold MinCheckpointPeriod, DefaultCheckpointPeriod.
      destruct (Z.ltb_spec (u64_to_i64 (cp_CheckpointPeriod params)) 10); lia.
    + intros id. unfold GetSubnet. simpl. apply lookup_empty.
    + intros e. unfold GetCheckpoint. simpl. apply lookup_empty.
Qed.

End ConstructorProps.

(** ** The properties above on concrete inputs *)

Section MoreWitnesses.
Import Schema SCA SCAStake DagCbor Demo.

Lemma majorityVote_without_miners_witness :
  Subnet.Miners (Examples.subnet_with_miners 0) = [] /\
  (Subnet.majorityVote (Examples.subnet_with_miners 0) (Examples.votes 1) = true
   <-> Subnet.cv_Miners (Examples.votes 1) <> []).
Proof.
  split; [reflexivity|].
  apply (majorityVote_without_miners (Examples.subnet_with_miners 0) (Examples.votes 1)).
  - reflexivity.
  - reflexivity.
Defined.

Lemma majorityVote_monotone_witness :
  Subnet.majorityVote (Examples.subnet_with_miners 3) (Examples.votes 2) = true /\
  Subnet.majorityVote (Examples.subnet_with_miners 2) (Examples.votes 3) = true.
Proof.
  assert (Hp : Subnet.majorityVote (Examples.subnet_with_miners 3) (Examples.votes 2) = true)
    by (vm_compute; reflexivity).
  split; [exact Hp|].
  apply (majorityVote_monotone (Examples.subnet_with_miners 3) (Examples.subnet_with_miners 2)
                               (Examples.votes 2) (Examples.votes 3)).
  - reflexivity.
  - reflexivity.
  - vm_compute. discriminate.
  - vm_compute. discriminate.
  - exact Hp.
Defined.

(** At epoch 25 with period 10 the signing window is 10 and the window
    before it is 0. *)
Lemma prevCheckCid_spec_witness :
  SubnetStore.prevCheckCid (call "t0100" SubnetActorCodeID 0 0)
    (SubnetStore.flushCheckpoint two_miners
       (NewRawCheckpoint "/root/a" 0 noPreviousCheck None))
  = Cid (NewRawCheckpoint "/root/a" 0 noPreviousCheck None).
Proof.
  apply (proj2 (proj2 (prevCheckCid_spec (call "t0100" SubnetActorCodeID 0 0) two_miners))).
  - vm_compute. discriminate.
  - reflexivity.
Defined.

Lemma subnet_store_lookup_witness :
  SubnetStore.GetCheckpoint (SubnetStore.flushCheckpoint two_miners check2) (-1)
  = SubnetStore.GetCheckpoint two_miners (-1).
Proof.
  apply (proj1 (proj2 (subnet_store_lookup two_miners check2 noPreviousCheck
                                           (Examples.votes 1)))).
  - vm_compute. split; [discriminate | reflexivity].
  - vm_compute. split; [discriminate | reflexivity].
  - vm_compute. discriminate.
Defined.

(** A period of 2^63 is negative as a chain epoch and is replaced. *)
Lemma ConstructSCAState_period_witness :
  exists st : SCAState,
    ConstructSCAState {| cp_NetworkName := "/root"; cp_CheckpointPeriod := 2 ^ 63 |} = Ok st /\
    CheckPeriod st = 10.
Proof.
  destruct (ConstructSCAState_period
              {| cp_NetworkName := "/root"; cp_CheckpointPeriod := 2 ^ 63 |})
    as (st & Hst & _ & _ & Hdef & _).
  - vm_compute. split; [discriminate | reflexivity].
  - exists st. split; [exact Hst|]. apply Hdef. right. vm_compute. discriminate.
Defined.

Lemma Register_only_if_witness :
  Register (call "t0100" SubnetActorCodeID (2 * 10 ^ 18) 0) st0
  = Done ({| sp_ID := "/root/t0100" |}, registered) /\
  MinStake st0 < 2 * 10 ^ 18 /\
  delete ("/root/t0100" : SubnetID) (Subnets registered) = Subnets st0.
Proof.
  assert (Hr : Register (call "t0100" SubnetActorCodeID (2 * 10 ^ 18) 0) st0
               = Done ({| sp_ID := "/root/t0100" |}, registered))
    by (vm_compute; reflexivity).
  split; [exact Hr|].
  destruct (Register_only_if _ _ _ _ Hr) as (_ & _ & Hv & _ & Hd & _).
  split; [exact Hv | exact Hd].
Defined.

Lemma Register_on_fresh_state_witness :
  ConstructSCAState {| cp_NetworkName := "/root"; cp_CheckpointPeriod := 10 |} = Ok st0 /\
  Register (call "t0100" SubnetActorCodeID (10 ^ 18) 0) st0 = Abort ErrIllegalArgument.
Proof.
  split; [reflexivity|].
  apply (Register_on_fresh_state
           {| cp_NetworkName := "/root"; cp_CheckpointPeriod := 10 |} st0
           (call "t0100" SubnetActorCodeID (10 ^ 18) 0)).
  - reflexivity.
  - reflexivity.
  - vm_compute. discriminate.
Defined.

Lemma Kill_only_if_witness :
  Kill (call "t0100" SubnetActorCodeID 0 (2 * 10 ^ 18)) registered
  = Done ({| send_To := "t0100"; send_Value := 2 * 10 ^ 18 |}, set_Subnets registered ∅) /\
  GetSubnet (set_Subnets registered ∅) "/root/t0100" = None /\
  TotalSubnets (set_Subnets registered ∅) = TotalSubnets registered.
Proof.
  assert (Hk : Kill (call "t0100" SubnetActorCodeID 0 (2 * 10 ^ 18)) registered
               = Done ({| send_To := "t0100"; send_Value := 2 * 10 ^ 18 |},
                       set_Subnets registered ∅))
    by (vm_compute; reflexivity).
  split; [exact Hk|].
  destruct (Kill_only_if _ _ _ _ Hk) as (_ & _ & Hn & _ & Ht).
  split; [exact Hn | exact Ht].
Defined.

Lemma Register_then_Kill_witness :
  Register (call "t0100" SubnetActorCodeID (2 * 10 ^ 18) 0) st0
  = Done ({| sp_ID := "/root/t0100" |}, registered) /\
  Kill (call "t0100" SubnetActorCodeID 0 (2 * 10 ^ 18)) registered
  = Done ({| send_To := "t0100"; send_Value := 2 * 10 ^ 18 |},
          set_TotalSubnets st0 (u64_succ (TotalSubnets st0))).
Proof.
  assert (Hr : Register (call "t0100" SubnetActorCodeID (2 * 10 ^ 18) 0) st0
               = Done ({| sp_ID := "/root/t0100" |}, registered))
    by (vm_compute; reflexivity).
  split; [exact Hr|].
  apply (Register_then_Kill (call "t0100" SubnetActorCodeID (2 * 10 ^ 18) 0)
                            (call "t0100" SubnetActorCodeID 0 (2 * 10 ^ 18))
                            st0 registered {| sp_ID := "/root/t0100" |} Hr).
  - reflexivity.
  - reflexivity.
  - vm_compute. discriminate.
  - reflexivity.
Defined.

Lemma registry_wf_invariant_witness :
  registry_wf st0 /\ registry_wf registered.
Proof.
  assert (H0 : registry_wf st0).
  { apply (proj1 (registry_wf_invariant st0)
                 {| cp_NetworkName := "/root"; cp_CheckpointPeriod := 10 |}).
    reflexivity. }
  split; [exact H0|].
  apply (proj1 (proj2 (registry_wf_invariant st0) H0)
               (call "t0100" SubnetActorCodeID (2 * 10 ^ 18) 0)
               {| sp_ID := "/root/t0100" |} registered).
  vm_compute. reflexivity.
Defined.

Lemma caller_type_checked_first_witness :
  CallerCode (call "t0200" AccountActorCodeID 10 100) <> SubnetActorCodeID /\
  Kill (call "t0200" AccountActorCodeID 10 100) registered = Abort SysErrForbidden.
Proof.
  split; [discriminate|].
  apply (proj1 (caller_type_checked_first
                  (call "t0200" AccountActorCodeID 10 100) registered
                  (params_of check1) {| sp_ID := "/root/t0100" |} {| fp_Value := 1 |})).
  discriminate.
Defined.

(** The subnet actor [t0200] commits a checkpoint of [/root/t0100]. *)
Lemma CommitChildCheckpoint_rejects_witness :
  UnmarshalBinary (chp_Checkpoint (params_of check1)) = Ok check1 /\
  Actor (Source (Data check1)) = Ok "t0100"%string /\
  CommitChildCheckpoint (call "t0200" SubnetActorCodeID 0 100) (params_of check1) registered
  = Abort ErrIllegalArgument.
Proof.
  assert (Hu : UnmarshalBinary (chp_Checkpoint (params_of check1)) = Ok check1)
    by (vm_compute; reflexivity).
  split; [exact Hu|]. split; [reflexivity|].
  apply (proj1 (proj2 (proj2 (CommitChildCheckpoint_rejects
                         (call "t0200" SubnetActorCodeID 0 100) (params_of check1)
                         registered eq_refl) check1 Hu)) "t0100"%string).
  - reflexivity.
  - discriminate.
Defined.

(** The first commit of the registered subnet [/root/t0100]. *)
Lemma commit_records_previous_witness :
  commitChild (call "t0100" SubnetActorCodeID 0 0) registered
              (entry (2 * 10 ^ 18) 0 Active EmptyCheckpoint)
              (currWindowCheckpoint (call "t0100" SubnetActorCodeID 0 0) registered) check1
  = Done (snd (commit check1 registered)) /\
  GetSubnet (snd (commit check1 registered)) "/root/t0100"
  = Some (set_PrevCheckpoint (entry (2 * 10 ^ 18) 0 Active EmptyCheckpoint) check1).
Proof.
  assert (Hc : commitChild (call "t0100" SubnetActorCodeID 0 0) registered
                 (entry (2 * 10 ^ 18) 0 Active EmptyCheckpoint)
                 (currWindowCheckpoint (call "t0100" SubnetActorCodeID 0 0) registered)
                 check1
               = Done (snd (commit check1 registered)))
    by (vm_compute; reflexivity).
  split; [exact Hc|].
  apply (proj1 (proj1 (commit_records_previous
                         (call "t0100" SubnetActorCodeID 0 0) registered
                         (entry (2 * 10 ^ 18) 0 Active EmptyCheckpoint)
                         (currWindowCheckpoint (call "t0100" SubnetActorCodeID 0 0)
                                               registered)
                         check1)
                      (snd (commit check1 registered)) Hc)).
Defined.

Lemma consecutive_commits_chain_witness :
  accepted (call "t0100" SubnetActorCodeID 0 0) registered
           (entry (2 * 10 ^ 18) 0 Active EmptyCheckpoint) check1
  = Done (tt, snd (commit check1 registered)) /\
  CommitChildCheckpoint (call "t0100" SubnetActorCodeID 0 0) (params_of check2)
                        (snd (commit check1 registered))
  = Done (tt, snd (commit check2 (snd (commit check1 registered)))) /\
  Cid check1 = Ok (PrevCheckpoint (Data check2)) /\
  Epoch (Data check1) <= Epoch (Data check2).
Proof.
  assert (H1 : accepted (call "t0100" SubnetActorCodeID 0 0) registered
                 (entry (2 * 10 ^ 18) 0 Active EmptyCheckpoint) check1
               = Done (tt, snd (commit check1 registered)))
    by (vm_compute; reflexivity).
  assert (H2 : CommitChildCheckpoint (call "t0100" SubnetActorCodeID 0 0)
                 (params_of check2) (snd (commit check1 registered))
               = Done (tt, snd (commit check2 (snd (commit check1 registered)))))
    by (vm_compute; reflexivity).
  split; [exact H1|]. split; [exact H2|].
  apply (consecutive_commits_chain
           (call "t0100" SubnetActorCodeID 0 0) (call "t0100" SubnetActorCodeID 0 0)
           registered (snd (commit check1 registered))
           (snd (commit check2 (snd (commit check1 registered))))
           (entry (2 * 10 ^ 18) 0 Active EmptyCheckpoint) check1 check2
           (params_of check2) H1).
  - vm_compute. reflexivity.
  - reflexivity.
  - vm_compute. discriminate.
  - reflexivity.
  - vm_compute. reflexivity.
  - reflexivity.
  - exact H2.
Defined.

(** Epoch 25 lies in the window that starts at epoch 20. *)
Lemma flushCheckpoint_then_lookup_witness :
  WindowEpoch 25 (CheckPeriod st0) = Epoch (Data check2) /\
  CurrWindowCheckpoint (flushCheckpoint st0 check2) 25 = check2.
Proof.
  split; [reflexivity|].
  apply (proj1 (proj2 (flushCheckpoint_then_lookup st0 check2)) 25).
  reflexivity.
Defined.

(** At epoch 25 the window being signed is the one of epoch 10. *)
Lemma RawCheckpoint_spec_witness :
  0 <= 25 /\
  Epoch (Data check1) = CheckpointEpoch 25 (CheckPeriod st0) /\
  RawCheckpoint (flushCheckpoint st0 check1) 25 = Ok check1.
Proof.
  split; [discriminate|]. split; [reflexivity|].
  apply (proj2 (proj2 (RawCheckpoint_spec st0 25) ltac:(discriminate)) check1).
  reflexivity.
Defined.

Lemma AddStake_guards_witness :
  getSubnetFromActorAddr st0 "t0100" = None /\
  AddStake (call "t0100" SubnetActorCodeID 5 0) st0 = Abort ErrIllegalArgument.
Proof.
  split; [reflexivity|].
  apply (proj1 (AddStake_guards (call "t0100" SubnetActorCodeID 5 0) st0 eq_refl)).
  reflexivity.
Defined.

(** The registered subnet, with a stake of 2 * 10^18, takes 10^18 back. *)
Lemma ReleaseStake_only_if_witness :
  ReleaseStake (call "t0100" SubnetActorCodeID 0 (2 * 10 ^ 18)) {| fp_Value := 10 ^ 18 |}
               registered
  = Done ({| send_To := "t0100"; send_Value := 10 ^ 18 |},
          flushSubnet registered (entry (10 ^ 18) 0 Active EmptyCheckpoint)) /\
  exists sh : Subnet,
    getSubnetFromActorAddr registered "t0100" = Some sh /\ 10 ^ 18 <= Stake sh.
Proof.
  assert (Hr : ReleaseStake (call "t0100" SubnetActorCodeID 0 (2 * 10 ^ 18))
                 {| fp_Value := 10 ^ 18 |} registered
               = Done ({| send_To := "t0100"; send_Value := 10 ^ 18 |},
                       flushSubnet registered (entry (10 ^ 18) 0 Active EmptyCheckpoint)))
    by (vm_compute; reflexivity).
  split; [exact Hr|].
  destruct (ReleaseStake_only_if _ _ _ _ _ Hr) as (_ & _ & sh & Hsh & Hs & _).
  exists sh. split; [exact Hsh | exact Hs].
Defined.

Lemma ReleaseStake_guards_witness :
  getSubnetFromActorAddr registered "t0100"
  = Some (entry (2 * 10 ^ 18) 0 Active EmptyCheckpoint) /\
  ReleaseStake (call "t0100" SubnetActorCodeID 0 (2 * 10 ^ 18))
               {| fp_Value := 3 * 10 ^ 18 |} registered
  = Abort ErrIllegalState.
Proof.
  assert (Hs : getSubnetFromActorAddr registered "t0100"
               = Some (entry (2 * 10 ^ 18) 0 Active EmptyCheckpoint))
    by (vm_compute; reflexivity).
  split; [exact Hs|].
  apply (proj1 (proj2 (proj2 (ReleaseStake_guards
                                 (call "t0100" SubnetActorCodeID 0 (2 * 10 ^ 18))
                                 {| fp_Value := 3 * 10 ^ 18 |} registered eq_refl)
                             ltac:(reflexivity))
                      (entry (2 * 10 ^ 18) 0 Active EmptyCheckpoint) Hs)).
  left. reflexivity.
Defined.

(** The host refuses the transfer to the burnt-funds actor. *)
Lemma Release_spec_witness :
  IsSuccess (SendResult (call_refused "t0200" AccountActorCodeID 7 0) "t099" 7) = false /\
  Release (call_refused "t0200" AccountActorCodeID 7 0) registered = Abort ErrIllegalState.
Proof.
  split; [reflexivity|].
  apply (proj1 (proj2 (Release_spec (call_refused "t0200" AccountActorCodeID 7 0)
                                    registered eq_refl))).
  - reflexivity.
  - reflexivity.
Defined.

Lemma applyCheckMsgs_loop_partitions_witness :
  exists (st' : SCAState) (aux : gmap string (list CrossMsgMeta)),
    applyCheckMsgs_loop (call "t0100" SubnetActorCodeID 0 0) st0 ∅ metas = Done (st', aux) /\
    storeAll (call "t0100" SubnetActorCodeID 0 0) st0 [meta "/root" 0; meta "/root" 3]
    = Done st' /\
    aux !! "/root/b"%string = Some [meta "/root/b" 1; meta "/root/b" 4] /\
    aux !! "/root"%string = None.
Proof.
  pose proof (applyCheckMsgs_loop_partitions (call "t0100" SubnetActorCodeID 0 0) st0 metas)
    as Hp.
  destruct (applyCheckMsgs_loop (call "t0100" SubnetActorCodeID 0 0) st0 ∅ metas)
    as [[st' aux]|c] eqn:Hl.
  - destruct Hp as (Hs & Hn & Ha).
    + intros s mm s1 Heq. injection Heq as <-. reflexivity.
    + exists st', aux. split; [reflexivity|]. split; [exact Hs|].
      split; [|exact Hn]. apply (Ha "/root/b"%string). discriminate.
  - exfalso. vm_compute in Hl. discriminate.
Defined.



Lemma AddChildChecks_fresh_sources_witness :
  Childs (Data (AddChildChecks Examples.window_with_a1
                               [{| cc_Source := "/root/b"; cc_Check := "cid3" |};
                                {| cc_Source := "/root/c"; cc_Check := "cid4" |}]))
  = [Examples.child_a1;
     {| cc_Source := "/root/b"; cc_Check := "cid3" |};
     {| cc_Source := "/root/c"; cc_Check := "cid4" |}].
Proof.
  apply (proj1 (AddChildChecks_fresh_sources
                  [{| cc_Source := "/root/b"; cc_Check := "cid3" |};
                   {| cc_Source := "/root/c"; cc_Check := "cid4" |}]
                  Examples.window_with_a1
                  ltac:(repeat constructor; simpl; intuition discriminate)
                  ltac:(simpl; intros ch [<-|[<-|[]]]; simpl; intuition discriminate))).
Defined.

Lemma Constructor_spec_witness :
  Caller (call "t00" SystemActorCode 0 0) = SystemActorAddr /\
  Constructor (call "t00" SystemActorCode 0 0)
              {| cp_NetworkName := "/root"; cp_CheckpointPeriod := 10 |}
  = Done st0.
Proof.
  assert (Hsys : Caller (call "t00" SystemActorCode 0 0) = SystemActorAddr)
    by reflexivity.
  split; [exact Hsys|].
  destruct (proj2 (Constructor_spec (call "t00" SystemActorCode 0 0)
                     {| cp_NetworkName := "/root"; cp_CheckpointPeriod := 10 |})
                  Hsys) as (st & Hc & Hs & _).
  rewrite Hc. f_equal. injection Hs as <-. reflexivity.
Defined.

End MoreWitnesses.
